(** * Persistent emulator session manager (agent_android/emulator.py)

    A shallow embedding of [EmulatorManager]: the session store on disk, the
    in-memory registries [_processes] and [_ports], the port allocator, the
    start/stop life cycle and the snapshot controller, followed by the
    properties of the specification that concern them.

    Conventions of the model.
    - Python [str] is [pystr], the sequence of the code points of the
      string; a string literal stands for the code points of its
      characters.
    - Python [int] is [Z].
    - A [Path] is the list of its components below [data_dir].  The source
      joins a session identifier to the sessions directory with [/]; the
      model appends it as one component, which is what [/] does for the
      identifiers that satisfy [path_component], and every property that
      depends on where a session lies is stated for those.
    - The disk is a tree of directories and regular files; a file holds
      text.
    - Exceptions are values of [exn]; an operation is a function from the
      state to a result (a value or a raised exception) and the next state,
      so that the effects made before a [raise] stay visible.
    - What the outside world answers (the SDK tools, [adb], the emulator
      process, the clock) is an explicit argument of the operation that asks;
      a program that is run may also fail to start.
    - [print] calls are not modelled. *)

From stdpp Require Import gmap strings list fin_maps pretty.
From Stdlib Require Import ZArith NArith Ascii.
From Stdlib.Strings Require Byte.

Local Open Scope Z_scope.
Local Set Warnings "-register-all".

(** ** Python strings *)

Inductive pystr :=
| EmptyStr
| Chr (c : N) (s : pystr).

Fixpoint of_bytes (l : list Byte.byte) : pystr :=
  match l with
  | [] => EmptyStr
  | b :: l' => Chr (Byte.to_N b) (of_bytes l')
  end.

Fixpoint to_bytes (s : pystr) : option (list Byte.byte) :=
  match s with
  | EmptyStr => Some []
  | Chr c s' =>
      match Byte.of_N c, to_bytes s' with
      | Some b, Some l => Some (b :: l)
      | _, _ => None
      end
  end.

Declare Scope pystr_scope.
Delimit Scope pystr_scope with pystr.
Bind Scope pystr_scope with pystr.
String Notation pystr of_bytes to_bytes : pystr_scope.
Local Open Scope pystr_scope.

(** [s + t] *)
Fixpoint sapp (s t : pystr) : pystr :=
  match s with
  | EmptyStr => t
  | Chr c s' => Chr c (sapp s' t)
  end.
Infix "+:+" := sapp (at level 60, right associativity) : pystr_scope.

(** [len(s)] *)
Fixpoint slen (s : pystr) : nat :=
  match s with
  | EmptyStr => O
  | Chr _ s' => S (slen s')
  end.

(** [s[::-1]] *)
Fixpoint srev (s : pystr) : pystr :=
  match s with
  | EmptyStr => EmptyStr
  | Chr c s' => srev s' +:+ Chr c EmptyStr
  end.

Fixpoint codepoints (s : pystr) : list N :=
  match s with
  | EmptyStr => []
  | Chr c s' => c :: codepoints s'
  end.

Fixpoint of_codepoints (l : list N) : pystr :=
  match l with
  | [] => EmptyStr
  | c :: l' => Chr c (of_codepoints l')
  end.

#[global] Instance pystr_eq_dec : EqDecision pystr.
Proof. solve_decision. Defined.

#[global] Instance pystr_countable : Countable pystr.
Proof.
  apply (inj_countable' codepoints of_codepoints).
  intros s. induction s as [|c s IH]; cbn; congruence.
Defined.

(** The code point of a character. *)
Definition ord (a : ascii) : N := N_of_ascii a.

(** A string of digits and signs as a [str]. *)
Fixpoint of_string (s : string) : pystr :=
  match s with
  | EmptyString => EmptyStr
  | String a s' => Chr (ord a) (of_string s')
  end.

(** ** Exceptions and results *)

Inductive errno := EEXIST | ENOENT | ENOTDIR | EISDIR | EINVAL | EADDRINUSE | EACCES.

(** [OSError EEXIST] is Python's [FileExistsError], [ENOENT] is
    [FileNotFoundError], [ENOTDIR] is [NotADirectoryError], [EISDIR] is
    [IsADirectoryError] and [EACCES] is [PermissionError]. *)
Inductive exn :=
| ValueError (msg : pystr)
| RuntimeError (msg : pystr)
| KeyError (key : pystr)
| IndexError
| TypeError
| JSONDecodeError
| UnicodeDecodeError
| TimeoutExpired
| OSError (e : errno).

Inductive result (A : Type) :=
| Ok (a : A)
| Raise (e : exn).
Arguments Ok {A} a.
Arguments Raise {A} e.

Definition rbind {A B} (r : result A) (k : A -> result B) : result B :=
  match r with
  | Ok a => k a
  | Raise e => Raise e
  end.

(** ** Python string methods used by the module *)

Module Py.

(** [s.startswith(p)] *)
Fixpoint startswith (p s : pystr) : bool :=
  match p, s with
  | EmptyStr, _ => true
  | Chr a p', Chr b s' => if decide (a = b) then startswith p' s' else false
  | Chr _ _, EmptyStr => false
  end.

(** [sub in s] *)
Fixpoint contains (sub s : pystr) : bool :=
  startswith sub s ||
  match s with
  | EmptyStr => false
  | Chr _ s' => contains sub s'
  end.

(** [str.isspace] on one character: the white space of Unicode. *)
Definition isspace (c : N) : bool :=
  ((9 <=? c) && (c <=? 13) || (28 <=? c) && (c <=? 32) ||
   (c =? 133) || (c =? 160) || (c =? 5760) ||
   (8192 <=? c) && (c <=? 8202) || (c =? 8232) || (c =? 8233) ||
   (c =? 8239) || (c =? 8287) || (c =? 12288))%N.

Fixpoint lstrip (s : pystr) : pystr :=
  match s with
  | EmptyStr => EmptyStr
  | Chr a s' => if isspace a then lstrip s' else s
  end.

(** [s.strip()] *)
Definition strip (s : pystr) : pystr :=
  srev (lstrip (srev (lstrip s))).

(** The fields of [s] between the occurrences of a non-empty separator,
    found from the left: [skip] counts the characters of a separator just
    matched that are still to be dropped, [cur] is the current field,
    reversed. *)
Fixpoint split_go (sep : pystr) (skip : nat) (cur : pystr) (s : pystr)
  : list pystr :=
  match s with
  | EmptyStr => [srev cur]
  | Chr a s' =>
      match skip with
      | S k => split_go sep k cur s'
      | O =>
          if startswith sep s
          then srev cur :: split_go sep (Nat.pred (slen sep)) EmptyStr s'
          else split_go sep O (Chr a cur) s'
      end
  end.

Definition fields (sep s : pystr) : list pystr := split_go sep 0 EmptyStr s.

(** [s.split(sep)]: an empty separator is refused. *)
Definition split (sep s : pystr) : result (list pystr) :=
  match sep with
  | EmptyStr => Raise (ValueError "empty separator")
  | Chr _ _ => Ok (fields sep s)
  end.

(** [s.split()]: the maximal runs of characters that are not white space. *)
Fixpoint words_go (cur : option pystr) (s : pystr) : list pystr :=
  match s with
  | EmptyStr => option_list (srev <$> cur)
  | Chr a s' =>
      if isspace a
      then option_list (srev <$> cur) ++ words_go None s'
      else words_go (Some (Chr a (default EmptyStr cur))) s'
  end.

Definition words (s : pystr) : list pystr := words_go None s.

(** [range(start, stop, step)] for a positive step. *)
Definition range (start stop step : Z) : list Z :=
  (fun i : nat => start + step * Z.of_nat i) <$>
  seq 0 (Z.to_nat ((stop - start + step - 1) / step)).

(** The line feed character. *)
Definition nl : pystr := Chr 10 EmptyStr.

(** [s.split("\n")] *)
Definition lines (s : pystr) : list pystr := fields nl s.

(** [str(n)] as used in f-strings. *)
Definition str (n : Z) : pystr := of_string (pretty n).

End Py.

(** ** The disk below [data_dir] *)

Inductive node :=
| File (data : pystr)
| Dir (children : gmap pystr node).

Fixpoint lookup_node (n : node) (p : list pystr) : option node :=
  match p with
  | [] => Some n
  | c :: p' =>
      match n with
      | Dir d => match d !! c with
                 | Some n' => lookup_node n' p'
                 | None => None
                 end
      | File _ => None
      end
  end.

Definition lookup_path (d : gmap pystr node) (p : list pystr) : option node :=
  lookup_node (Dir d) p.

(** [Path.exists()] *)
Definition path_exists (d : gmap pystr node) (p : list pystr) : bool :=
  match lookup_path d p with
  | Some _ => true
  | None => false
  end.

Definition is_dir (d : gmap pystr node) (p : list pystr) : bool :=
  match lookup_path d p with
  | Some (Dir _) => true
  | _ => false
  end.

(** Change the entry named [c :: p]: walk down to its parent directory and
    let [f] decide what the entry becomes ([None]: no entry). *)
Fixpoint update_at (d : gmap pystr node) (c : pystr) (p : list pystr)
    (f : option node -> result (option node)) : result (gmap pystr node) :=
  match p with
  | [] =>
      rbind (f (d !! c)) (fun o =>
        Ok (match o with
            | Some n => <[c := n]> d
            | None => delete c d
            end))
  | c' :: p' =>
      match d !! c with
      | Some (Dir d') =>
          rbind (update_at d' c' p' f) (fun d'' => Ok (<[c := Dir d'']> d))
      | Some (File _) => Raise (OSError ENOTDIR)
      | None => Raise (OSError ENOENT)
      end
  end.

Definition update_path (d : gmap pystr node) (p : list pystr)
    (f : option node -> result (option node)) : result (gmap pystr node) :=
  match p with
  | [] => rbind (f (Some (Dir d))) (fun o =>
            match o with
            | Some (Dir d') => Ok d'
            | _ => Raise (OSError EINVAL)
            end)
  | c :: p' => update_at d c p' f
  end.

(** [Path.mkdir()] *)
Definition mkdir (p : list pystr) (d : gmap pystr node)
  : result (gmap pystr node) :=
  update_path d p (fun o =>
    match o with
    | Some _ => Raise (OSError EEXIST)
    | None => Ok (Some (Dir ∅))
    end).

(** [Path.mkdir(parents=True)]: missing ancestors are created as well. *)
Fixpoint mkdir_at (d : gmap pystr node) (c : pystr) (p : list pystr)
  : result (gmap pystr node) :=
  match p with
  | [] =>
      match d !! c with
      | Some _ => Raise (OSError EEXIST)
      | None => Ok (<[c := Dir ∅]> d)
      end
  | c' :: p' =>
      match d !! c with
      | Some (Dir d') =>
          rbind (mkdir_at d' c' p') (fun d'' => Ok (<[c := Dir d'']> d))
      | Some (File _) => Raise (OSError ENOTDIR)
      | None =>
          rbind (mkdir_at ∅ c' p') (fun d'' => Ok (<[c := Dir d'']> d))
      end
  end.

Definition mkdir_parents (p : list pystr) (d : gmap pystr node)
  : result (gmap pystr node) :=
  match p with
  | [] => Raise (OSError EEXIST)
  | c :: p' => mkdir_at d c p'
  end.

(** [open(p, "w")] followed by writing [data] and closing. *)
Definition write_file (p : list pystr) (data : pystr) (d : gmap pystr node)
  : result (gmap pystr node) :=
  update_path d p (fun o =>
    match o with
    | Some (Dir _) => Raise (OSError EISDIR)
    | _ => Ok (Some (File data))
    end).

(** [open(p)] followed by reading everything. *)
Definition read_file (p : list pystr) (d : gmap pystr node) : result pystr :=
  match lookup_path d p with
  | Some (File data) => Ok data
  | Some (Dir _) => Raise (OSError EISDIR)
  | None => Raise (OSError ENOENT)
  end.

(** [shutil.rmtree(p)] *)
Definition rmtree (p : list pystr) (d : gmap pystr node)
  : result (gmap pystr node) :=
  update_path d p (fun o =>
    match o with
    | Some (Dir _) => Ok None
    | Some (File _) => Raise (OSError ENOTDIR)
    | None => Raise (OSError ENOENT)
    end).

(** [shutil.copy(src, dst)]: into [dst] when it is a directory. *)
Definition copy (src dst : list pystr) (d : gmap pystr node)
  : result (gmap pystr node) :=
  rbind (read_file src d) (fun data =>
    if is_dir d dst
    then write_file (dst ++ [default EmptyStr (last src)]) data d
    else write_file dst data d).

(** ** Session metadata and its JSON form *)

Module SessionMetadata.
Record t := Make {
  session_id : pystr;
  created_at : pystr;
  last_accessed : pystr;
  avd_name : pystr;
  system_image : pystr;
  installed_packages : list pystr;
  snapshots : list pystr;
  notes : pystr;
}.
End SessionMetadata.

(** The values a metadata dictionary holds: [str] and [list[str]]. *)
Inductive jvalue :=
| JStr (s : pystr)
| JList (l : list pystr).

(** [dataclasses.asdict]: the fields in declaration order. *)
Definition asdict (m : SessionMetadata.t) : list (pystr * jvalue) :=
  [ ("session_id", JStr (SessionMetadata.session_id m));
    ("created_at", JStr (SessionMetadata.created_at m));
    ("last_accessed", JStr (SessionMetadata.last_accessed m));
    ("avd_name", JStr (SessionMetadata.avd_name m));
    ("system_image", JStr (SessionMetadata.system_image m));
    ("installed_packages", JList (SessionMetadata.installed_packages m));
    ("snapshots", JList (SessionMetadata.snapshots m));
    ("notes", JStr (SessionMetadata.notes m)) ].

Module Json.

(** The digit of a value below 16, in lower case. *)
Definition hexdigit (n : N) : N :=
  (if n <? 10 then 48 + n else 87 + n)%N.

(** The value of a hexadecimal digit, in either case. *)
Definition hexval (c : N) : option N :=
  (if (48 <=? c) && (c <=? 57) then Some (c - 48)
   else if (97 <=? c) && (c <=? 102) then Some (c - 87)
   else if (65 <=? c) && (c <=? 70) then Some (c - 55)
   else None)%N.

(** [format(n, "04x")] for a value below 65536. *)
Definition hex4 (n : N) : pystr :=
  Chr (hexdigit (n / 4096 mod 16)) (Chr (hexdigit (n / 256 mod 16))
    (Chr (hexdigit (n / 16 mod 16)) (Chr (hexdigit (n mod 16)) EmptyStr)))%N.

Definition quote : pystr := Chr 34 EmptyStr.

(** One character of a string literal as [json.dump] writes it with
    [ensure_ascii]: the printable ASCII characters stand for themselves,
    except the quote and the backslash; the rest is escaped, a code point
    from 65536 on as the two surrogates of its UTF-16 form. *)
Definition escape_char (c : N) : pystr :=
  if decide (c = 34%N) then Chr 92 quote
  else if decide (c = 92%N) then "\\"
  else if decide (c = 10%N) then "\n"
  else if decide (c = 13%N) then "\r"
  else if decide (c = 9%N) then "\t"
  else if decide (c = 8%N) then "\b"
  else if decide (c = 12%N) then "\f"
  else if ((32 <=? c) && (c <=? 126))%N then Chr c EmptyStr
  else if (c <? 65536)%N then "\u" +:+ hex4 c
  else
    let v := (c - 65536)%N in
    "\u" +:+ hex4 (55296 + v / 1024 mod 1024) +:+
    "\u" +:+ hex4 (56320 + v mod 1024).

Fixpoint escape (s : pystr) : pystr :=
  match s with
  | EmptyStr => EmptyStr
  | Chr c s' => escape_char c +:+ escape s'
  end.

Definition dumps_str (s : pystr) : pystr := quote +:+ escape s +:+ quote.

(** [sep.join(l)] *)
Fixpoint join (sep : pystr) (l : list pystr) : pystr :=
  match l with
  | [] => EmptyStr
  | [x] => x
  | x :: l' => x +:+ sep +:+ join sep l'
  end.

(** A value at nesting level one of an object printed with [indent=2]. *)
Definition dumps_value (v : jvalue) : pystr :=
  match v with
  | JStr s => dumps_str s
  | JList [] => "[]"
  | JList l =>
      "[" +:+ Py.nl +:+ "    " +:+
      join ("," +:+ Py.nl +:+ "    ") (dumps_str <$> l) +:+
      Py.nl +:+ "  ]"
  end.

Definition dumps_item (kv : pystr * jvalue) : pystr :=
  dumps_str kv.1 +:+ ": " +:+ dumps_value kv.2.

(** [json.dumps(d, indent=2)] for a dictionary [d] of such values. *)
Definition dumps (d : list (pystr * jvalue)) : pystr :=
  match d with
  | [] => "{}"
  | _ => "{" +:+ Py.nl +:+ "  " +:+
         join ("," +:+ Py.nl +:+ "  ") (dumps_item <$> d) +:+
         Py.nl +:+ "}"
  end.

(** *** Reading: [json.load] restricted to dictionaries of such values *)

Definition is_ws (c : N) : bool :=
  ((c =? 32) || (c =? 9) || (c =? 10) || (c =? 13))%N.

Fixpoint skip_ws (s : pystr) : pystr :=
  match s with
  | EmptyStr => EmptyStr
  | Chr c s' => if is_ws c then skip_ws s' else s
  end.

Definition unescape (e : N) : option N :=
  if decide (e = 34%N) then Some e
  else if decide (e = 92%N) then Some e
  else if decide (e = ord "/") then Some e
  else if decide (e = ord "b") then Some 8%N
  else if decide (e = ord "f") then Some 12%N
  else if decide (e = ord "n") then Some 10%N
  else if decide (e = ord "r") then Some 13%N
  else if decide (e = ord "t") then Some 9%N
  else None.

(** The value written by the four hexadecimal digits of a [\u] escape. *)
Definition unhex4 (h1 h2 h3 h4 : N) : option N :=
  match hexval h1, hexval h2, hexval h3, hexval h4 with
  | Some a, Some b, Some c, Some d => Some (((a * 16 + b) * 16 + c) * 16 + d)%N
  | _, _, _, _ => None
  end.

(** The surrogates of UTF-16. *)
Definition is_high (u : N) : bool := ((55296 <=? u) && (u <=? 56319))%N.
Definition is_low (u : N) : bool := ((56320 <=? u) && (u <=? 57343))%N.

(** The code point a high and a low surrogate stand for. *)
Definition join_surrogates (hi lo : N) : N :=
  (65536 + (hi - 55296) * 1024 + (lo - 56320))%N.

(** The rest of a string literal after its opening quote: the decoded
    string and the text after the closing quote.  A raw control character
    is refused, as the strict decoder does.  An escaped high surrogate
    that is followed by an escaped low surrogate is read with it as one
    code point. *)
Fixpoint scanstring (s : pystr) : option (pystr * pystr) :=
  match s with
  | EmptyStr => None
  | Chr c s1 =>
      if decide (c = 34%N) then Some (EmptyStr, s1)
      else if decide (c = 92%N) then
        match s1 with
        | EmptyStr => None
        | Chr e s2 =>
            if decide (e = ord "u") then
              match s2 with
              | Chr h1 (Chr h2 (Chr h3 (Chr h4 s3))) =>
                  match unhex4 h1 h2 h3 h4 with
                  | Some u =>
                      let alone :=
                        match scanstring s3 with
                        | Some (x, r) => Some (Chr u x, r)
                        | None => None
                        end in
                      if is_high u then
                        match s3 with
                        | Chr b (Chr e' (Chr l1 (Chr l2 (Chr l3 (Chr l4 s4))))) =>
                            if bool_decide (b = 92%N) && bool_decide (e' = ord "u") then
                              match unhex4 l1 l2 l3 l4 with
                              | Some u2 =>
                                  if is_low u2 then
                                    match scanstring s4 with
                                    | Some (x, r) =>
                                        Some (Chr (join_surrogates u u2) x, r)
                                    | None => None
                                    end
                                  else alone
                              | None => None
                              end
                            else alone
                        | _ => alone
                        end
                      else alone
                  | None => None
                  end
              | _ => None
              end
            else
              match unescape e with
              | Some a =>
                  match scanstring s2 with
                  | Some (x, r) => Some (Chr a x, r)
                  | None => None
                  end
              | None => None
              end
        end
      else if (c <? 32)%N then None
      else
        match scanstring s1 with
        | Some (x, r) => Some (Chr c x, r)
        | None => None
        end
  end.

(** A string literal, opening quote included. *)
Definition parse_str (s : pystr) : option (pystr * pystr) :=
  match s with
  | Chr c s1 =>
      if decide (c = 34%N) then scanstring s1 else None
  | EmptyStr => None
  end.

(** The elements of a non-empty array, from the first element on; the
    fuel bounds the number of elements. *)
Fixpoint parse_elems (fuel : nat) (s : pystr) : option (list pystr * pystr) :=
  match fuel with
  | O => None
  | S fuel' =>
      match parse_str s with
      | Some (x, s1) =>
          match skip_ws s1 with
          | Chr c s2 =>
              if decide (c = ord ",") then
                match parse_elems fuel' (skip_ws s2) with
                | Some (xs, r) => Some (x :: xs, r)
                | None => None
                end
              else if decide (c = ord "]") then Some ([x], s2)
              else None
          | EmptyStr => None
          end
      | None => None
      end
  end.

Definition parse_value (s : pystr) : option (jvalue * pystr) :=
  match s with
  | Chr c s1 =>
      if decide (c = ord "[") then
        match skip_ws s1 with
        | Chr c' s2 as s1' =>
            if decide (c' = ord "]") then Some (JList [], s2)
            else match parse_elems (slen s1') s1' with
                 | Some (xs, r) => Some (JList xs, r)
                 | None => None
                 end
        | EmptyStr => None
        end
      else
        match parse_str s with
        | Some (x, r) => Some (JStr x, r)
        | None => None
        end
  | EmptyStr => None
  end.

(** The members of a non-empty object, from the first key on. *)
Fixpoint parse_members (fuel : nat) (s : pystr)
  : option (list (pystr * jvalue) * pystr) :=
  match fuel with
  | O => None
  | S fuel' =>
      match parse_str s with
      | Some (k, s1) =>
          match skip_ws s1 with
          | Chr c s2 =>
              if decide (c = ord ":") then
                match parse_value (skip_ws s2) with
                | Some (v, s3) =>
                    match skip_ws s3 with
                    | Chr c' s4 =>
                        if decide (c' = ord ",") then
                          match parse_members fuel' (skip_ws s4) with
                          | Some (kvs, r) => Some ((k, v) :: kvs, r)
                          | None => None
                          end
                        else if decide (c' = ord "}") then Some ([(k, v)], s4)
                        else None
                    | EmptyStr => None
                    end
                | None => None
                end
              else None
          | EmptyStr => None
          end
      | None => None
      end
  end.

(** [json.loads]: one object, white space around it, nothing after it.
    A text that is not of this shape is reported as [JSONDecodeError]
    (Python would also accept numbers, literals and deeper nesting, which
    the typed record below cannot hold). *)
Definition loads (s : pystr) : result (list (pystr * jvalue)) :=
  match skip_ws s with
  | Chr c s1 =>
      if decide (c = ord "{") then
        match skip_ws s1 with
        | Chr c' s2 as s1' =>
            let parsed :=
              if decide (c' = ord "}") then Some ([], s2)
              else parse_members (slen s1') s1' in
            match parsed with
            | Some (kvs, r) =>
                match skip_ws r with
                | EmptyStr => Ok kvs
                | _ => Raise JSONDecodeError
                end
            | None => Raise JSONDecodeError
            end
        | EmptyStr => Raise JSONDecodeError
        end
      else Raise JSONDecodeError
  | EmptyStr => Raise JSONDecodeError
  end.

(** The strings that [json] reads back as it writes them: Python strings
    (code points below 1114112) in which no high surrogate is followed by
    a low one. *)
Fixpoint stable (s : pystr) : bool :=
  match s with
  | EmptyStr => true
  | Chr c s' =>
      (c <? 1114112)%N &&
      match s' with
      | Chr c' _ => negb (is_high c && is_low c')
      | EmptyStr => true
      end && stable s'
  end.

Definition stable_value (v : jvalue) : bool :=
  match v with
  | JStr s => stable s
  | JList l => forallb stable l
  end.

Definition stable_dict (d : list (pystr * jvalue)) : bool :=
  forallb (fun kv => stable kv.1 && stable_value kv.2) d.

End Json.

(** The dictionary built from the members read: a later duplicate of a key
    replaces the earlier one. *)
Definition to_dict (data : list (pystr * jvalue)) : gmap pystr jvalue :=
  foldl (fun d kv => <[kv.1 := kv.2]> d) ∅ data.

Definition field_names : list pystr :=
  [ "session_id"; "created_at"; "last_accessed"; "avd_name"; "system_image";
    "installed_packages"; "snapshots"; "notes" ].

(** A required [str] field: [TypeError] when the keyword is missing.  A
    value of the other type would give an ill-typed record in Python; the
    model reports it as [TypeError] too. *)
Definition kw_str (d : gmap pystr jvalue) (k : pystr) : result pystr :=
  match d !! k with
  | Some (JStr s) => Ok s
  | _ => Raise TypeError
  end.

Definition kw_str_default (d : gmap pystr jvalue) (k : pystr) (dflt : pystr)
  : result pystr :=
  match d !! k with
  | Some (JStr s) => Ok s
  | Some (JList _) => Raise TypeError
  | None => Ok dflt
  end.

Definition kw_list_default (d : gmap pystr jvalue) (k : pystr)
  : result (list pystr) :=
  match d !! k with
  | Some (JList l) => Ok l
  | Some (JStr _) => Raise TypeError
  | None => Ok []
  end.

(** The constructor call of [SessionMetadata] with the dictionary as its
    keyword arguments. *)
Definition from_dict (data : list (pystr * jvalue)) : result SessionMetadata.t :=
  if forallb (fun kv : pystr * jvalue => bool_decide (kv.1 ∈ field_names)) data
  then
    let d := to_dict data in
    rbind (kw_str d "session_id") (fun sid =>
    rbind (kw_str d "created_at") (fun created =>
    rbind (kw_str d "last_accessed") (fun accessed =>
    rbind (kw_str d "avd_name") (fun avd =>
    rbind (kw_str d "system_image") (fun img =>
    rbind (kw_list_default d "installed_packages") (fun pkgs =>
    rbind (kw_list_default d "snapshots") (fun snaps =>
    rbind (kw_str_default d "notes" EmptyStr) (fun nts =>
    Ok (SessionMetadata.Make sid created accessed avd img pkgs snaps nts)))))))))
  else Raise TypeError.

(** ** Configuration, state and the outside world *)

Module EmulatorConfig.
Record t := Make {
  avd_name : pystr;
  system_image : pystr;
  device_profile : pystr;
  headless : bool;
  gpu : pystr;
  memory_mb : Z;
  cores : Z;
  sdcard_mb : Z;
  port : option Z;
  writable_system : bool;
  snapshot_on_exit : bool;
}.

(** [EmulatorConfig()] *)
Definition default : t :=
  Make "base_pixel7_api34" "system-images;android-34;google_apis;x86_64"
       "pixel_7" true "swiftshader_indirect" 4096 4 2048 None false true.
End EmulatorConfig.

(** What the manager asks of the operating system, in order. *)
Inductive event :=
| Run (argv : list pystr)                (* [subprocess.run] *)
| Spawn (pid : nat) (argv : list pystr)  (* [subprocess.Popen] *)
| Killpg (pid : nat).                     (* [os.killpg(..., SIGKILL)] *)

(** The manager object ([data_dir], [sdk_path], [_processes], [_ports])
    together with the part of the machine it acts on: the disk below
    [data_dir], the processes it has spawned and which of them have exited,
    and the log of what it asked. A [Popen] handle is the process id. *)
Record state := State {
  data_dir : pystr;
  sdk_path : pystr;
  disk : gmap pystr node;
  _processes : gmap pystr nat;
  _ports : gmap pystr Z;
  next_pid : nat;
  exited : gset nat;
  log : list event;
}.

Definition with_disk (d : gmap pystr node) (st : state) : state :=
  State (data_dir st) (sdk_path st) d (_processes st) (_ports st)
        (next_pid st) (exited st) (log st).
Definition with_processes (ps : gmap pystr nat) (st : state) : state :=
  State (data_dir st) (sdk_path st) (disk st) ps (_ports st)
        (next_pid st) (exited st) (log st).
Definition with_ports (ps : gmap pystr Z) (st : state) : state :=
  State (data_dir st) (sdk_path st) (disk st) (_processes st) ps
        (next_pid st) (exited st) (log st).
Definition with_next_pid (n : nat) (st : state) : state :=
  State (data_dir st) (sdk_path st) (disk st) (_processes st) (_ports st)
        n (exited st) (log st).
Definition with_exited (ex : gset nat) (st : state) : state :=
  State (data_dir st) (sdk_path st) (disk st) (_processes st) (_ports st)
        (next_pid st) ex (log st).
Definition with_log (l : list event) (st : state) : state :=
  State (data_dir st) (sdk_path st) (disk st) (_processes st) (_ports st)
        (next_pid st) (exited st) l.

(** An operation: the result and the state it leaves, also when it raises. *)
Definition M (A : Type) : Type := state -> result A * state.

Definition ret {A} (a : A) : M A := fun st => (Ok a, st).
Definition raise {A} (e : exn) : M A := fun st => (Raise e, st).
Definition bind {A B} (m : M A) (k : A -> M B) : M B :=
  fun st =>
    match m st with
    | (Ok a, st') => k a st'
    | (Raise e, st') => (Raise e, st')
    end.
Definition get : M state := fun st => (Ok st, st).
Definition modify (f : state -> state) : M unit := fun st => (Ok tt, f st).
Definition lift {A} (r : result A) : M A := fun st => (r, st).

(** [try: m except E: handler], [catches] telling which exceptions [E]
    covers. *)
Definition try_except {A} (m : M A) (catches : exn -> bool) (handler : M A) : M A :=
  fun st =>
    match m st with
    | (Raise e, st') => if catches e then handler st' else (Raise e, st')
    | r => r
    end.

Definition is_TimeoutExpired (e : exn) : bool :=
  match e with TimeoutExpired => true | _ => false end.

Definition is_OSError (e : exn) : bool :=
  match e with OSError _ => true | _ => false end.

(** Every exception of the model derives from [Exception]. *)
Definition is_Exception (e : exn) : bool := true.

Declare Scope py_scope.
Delimit Scope py_scope with py.
Notation "x <- m ;; k" := (bind m (fun x => k))
  (at level 100, m at next level, right associativity) : py_scope.
Notation "m ;;; k" := (bind m (fun _ => k))
  (at level 100, right associativity) : py_scope.
Local Open Scope py_scope.

(** An action on the disk. *)
Definition on_disk (f : gmap pystr node -> result (gmap pystr node)) : M unit :=
  fun st =>
    match f (disk st) with
    | Ok d => (Ok tt, with_disk d st)
    | Raise e => (Raise e, st)
    end.

(** [d[k]] *)
Definition getitem {V} (d : gmap pystr V) (k : pystr) : M V :=
  match d !! k with
  | Some v => ret v
  | None => raise (KeyError k)
  end.

Record CompletedProcess := Completed {
  returncode : Z;
  stdout : pystr;
  stderr : pystr;
}.

(** What a call [subprocess.run(argv, capture_output=True, text=True)]
    comes to: the program runs and exits; or it cannot be started (it is
    not there, or may not be executed) and [OSError] is raised; or what it
    printed is not text in the encoding of the locale and
    [UnicodeDecodeError] is raised. *)
Inductive outcome :=
| Completes (r : CompletedProcess)
| NotStarted (e : errno)
| Undecodable.

Definition run (argv : list pystr) (reply : outcome) : M CompletedProcess :=
  modify (fun st => with_log (log st ++ [Run argv]) st);;;
  match reply with
  | Completes r => ret r
  | NotStarted e => raise (OSError e)
  | Undecodable => raise UnicodeDecodeError
  end.

(** What a call [subprocess.run(argv, capture_output=True, timeout=...)]
    comes to; nothing is decoded there.  [Expired]: the program did not
    finish in time and [TimeoutExpired] is raised. *)
Inductive timed_outcome :=
| Finished (r : CompletedProcess)
| Unstarted (e : errno)
| Expired.

Definition run_timeout (argv : list pystr) (reply : timed_outcome)
  : M CompletedProcess :=
  modify (fun st => with_log (log st ++ [Run argv]) st);;;
  match reply with
  | Finished r => ret r
  | Unstarted e => raise (OSError e)
  | Expired => raise TimeoutExpired
  end.

(** [d[k]] and [del d[k]] *)
Definition delitem {V} (d : gmap pystr V) (k : pystr) : result (gmap pystr V) :=
  match d !! k with
  | Some _ => Ok (delete k d)
  | None => Raise (KeyError k)
  end.

(** [process.wait(timeout=30)]: returns at once when the process has
    exited, else waits; [in_time] tells whether it exits before the
    timeout. *)
Definition wait_timeout (process : nat) (in_time : bool) : M unit :=
  st <- get;;
  if decide (process ∈ exited st) then ret tt
  else if in_time then modify (fun s => with_exited ({[process]} ∪ exited s) s)
  else raise TimeoutExpired.

(** [os.killpg(os.getpgid(process.pid), signal.SIGKILL)] *)
Definition killpg (process : nat) : M unit :=
  modify (fun s => with_log (log s ++ [Killpg process]) s).

(** [process.wait()] after the kill: the process is gone when it returns. *)
Definition wait (process : nat) : M unit :=
  modify (fun s => with_exited ({[process]} ∪ exited s) s).

(** [str(path)] for a path below [data_dir]. *)
Definition path_str (st : state) (p : list pystr) : pystr :=
  data_dir st +:+ "/" +:+ Json.join "/" p.

Definition avds_dir : list pystr := ["avds"].
Definition sessions_dir : list pystr := ["sessions"].
Definition shared_dir : list pystr := ["shared"].

Definition emulator_bin (st : state) : pystr := sdk_path st +:+ "/emulator/emulator".
Definition avdmanager_bin (st : state) : pystr :=
  sdk_path st +:+ "/cmdline-tools/latest/bin/avdmanager".
Definition sdkmanager_bin (st : state) : pystr :=
  sdk_path st +:+ "/cmdline-tools/latest/bin/sdkmanager".
Definition adb_bin (st : state) : pystr := sdk_path st +:+ "/platform-tools/adb".

(** ** Session identifiers as file names *)

(** The bytes a code point takes in the name of a file. *)
Definition utf8_len (c : N) : N :=
  (if c <? 128 then 1 else if c <? 2048 then 2 else if c <? 65536 then 3 else 4)%N.

Fixpoint name_bytes (s : pystr) : N :=
  match s with
  | EmptyStr => 0%N
  | Chr c s' => (utf8_len c + name_bytes s')%N
  end.

(** No slash, no null character, no surrogate, and nothing that is not a
    code point. *)
Fixpoint name_chars (s : pystr) : bool :=
  match s with
  | EmptyStr => true
  | Chr c s' =>
      negb (bool_decide (c = ord "/")) && negb (bool_decide (c = 0%N))
      && negb ((55296 <=? c) && (c <=? 57343))%N && (c <? 1114112)%N
      && name_chars s'
  end.

(** The strings that name one entry of a directory: not empty, not [.]
    and not [..], of such characters, and no longer than a file name may
    be.  For such a string [dir / s] is the entry [s] of [dir]. *)
Definition path_component (s : pystr) : bool :=
  negb (bool_decide (s = EmptyStr)) && negb (bool_decide (s = "."))
  && negb (bool_decide (s = "..")) && name_chars s
  && (name_bytes s <=? 255)%N.

(** ** EmulatorManager *)

(** [d.mkdir(parents=True, exist_ok=True)] *)
Definition mkdir_exist_ok (p : list pystr) (d : gmap pystr node)
  : result (gmap pystr node) :=
  if is_dir d p then Ok d else mkdir_parents p d.

(** The constructor: the three directories are made, the registries start
    empty. *)
Definition __init__ (data sdk : pystr) (d : gmap pystr node) : result state :=
  rbind (mkdir_exist_ok avds_dir d) (fun d1 =>
  rbind (mkdir_exist_ok sessions_dir d1) (fun d2 =>
  rbind (mkdir_exist_ok shared_dir d2) (fun d3 =>
  Ok (State data sdk d3 ∅ ∅ 0 ∅ [])))).

(** *** Session management *)

(** The session directory is an [Optional[Path]] at some call sites;
    [None / "metadata.json"] is a [TypeError]. *)
Definition _save_metadata (session_dir : option (list pystr))
    (metadata : SessionMetadata.t) : M unit :=
  match session_dir with
  | None => raise TypeError
  | Some dir =>
      let metadata_file := dir ++ ["metadata.json"] in
      on_disk (write_file metadata_file (Json.dumps (asdict metadata)))
  end.

Definition _load_metadata (session_dir : option (list pystr))
  : M (option SessionMetadata.t) :=
  match session_dir with
  | None => raise TypeError
  | Some dir =>
      let metadata_file := dir ++ ["metadata.json"] in
      st <- get;;
      if path_exists (disk st) metadata_file then
        text <- lift (read_file metadata_file (disk st));;
        data <- lift (Json.loads text);;
        metadata <- lift (from_dict data);;
        ret (Some metadata)
      else ret None
  end.

(** The two readings of [datetime.now().isoformat()] made by
    [create_session]. *)
Record CreateEnv := {
  now_created : pystr;
  now_accessed : pystr;
}.

Definition already_exists (session_id : pystr) : exn :=
  ValueError ("Session '" +:+ session_id +:+ "' already exists").

Definition create_session (session_id : pystr)
    (config : option EmulatorConfig.t) (from_template : option pystr)
    (e : CreateEnv) : M (list pystr) :=
  let config := default EmulatorConfig.default config in
  let session_dir := sessions_dir ++ [session_id] in
  st <- get;;
  if path_exists (disk st) session_dir then raise (already_exists session_id)
  else
    on_disk (mkdir_parents session_dir);;;
    on_disk (mkdir (session_dir ++ ["snapshots"]));;;
    let metadata :=
      SessionMetadata.Make session_id (now_created e) (now_accessed e)
        (EmulatorConfig.avd_name config) (EmulatorConfig.system_image config)
        [] [] EmptyStr in
    _save_metadata (Some session_dir) metadata;;;
    match from_template with
    | Some (Chr _ _ as template) =>
        let base_userdata :=
          if decide (template = "base")
          then shared_dir ++ ["base_userdata.img"]
          else sessions_dir ++ [template; "userdata.img"] in
        st' <- get;;
        if path_exists (disk st') base_userdata
        then on_disk (copy base_userdata (session_dir ++ ["userdata.img"]))
        else ret tt
    | _ => ret tt
    end;;;
    ret session_dir.

Definition get_session (session_id : pystr) : M (option (list pystr)) :=
  let session_dir := sessions_dir ++ [session_id] in
  st <- get;;
  if path_exists (disk st) session_dir then ret (Some session_dir) else ret None.

(** *** Stopping; status *)

(** What happens while [stop] runs: what the [adb emu kill] request comes
    to, and whether the process, if still alive, exits within 30 s. *)
Record StopEnv := {
  kill_reply : timed_outcome;
  exits_in_time : bool;
}.

Definition serial_of (port : Z) : pystr := "emulator-" +:+ Py.str port.

Definition stop (session_id : pystr) (e : StopEnv) : M bool :=
  st <- get;;
  if decide (session_id ∉ dom (_processes st)) then ret false
  else
    process <- getitem (_processes st) session_id;;
    port <- getitem (_ports st) session_id;;
    let serial := serial_of port in
    try_except
      (run_timeout [adb_bin st; "-s"; serial; "emu"; "kill"] (kill_reply e);;;
       ret tt)
      is_TimeoutExpired (ret tt);;;
    try_except (wait_timeout process (exits_in_time e))
      is_TimeoutExpired (killpg process;;; wait process);;;
    st1 <- get;;
    ps <- lift (delitem (_processes st1) session_id);;
    modify (with_processes ps);;;
    st2 <- get;;
    ports <- lift (delitem (_ports st2) session_id);;
    modify (with_ports ports);;;
    ret true.

Definition is_running (session_id : pystr) : M bool :=
  st <- get;;
  match _processes st !! session_id with
  | None => ret false
  | Some process => ret (bool_decide (process ∉ exited st))
  end.

Definition get_serial (session_id : pystr) : M (option pystr) :=
  st <- get;;
  match _ports st !! session_id with
  | Some port => ret (Some (serial_of port))
  | None => ret None
  end.

Definition session_running (session_id : pystr) : exn :=
  RuntimeError ("Session '" +:+ session_id +:+
                "' is running. Stop it first or use force=True").

Definition delete_session (session_id : pystr) (force : bool) (e : StopEnv)
  : M bool :=
  st <- get;;
  (if decide (session_id ∈ dom (_processes st)) then
     if force then stop session_id e;;; ret tt
     else raise (session_running session_id)
   else ret tt);;;
  let session_dir := sessions_dir ++ [session_id] in
  st' <- get;;
  if path_exists (disk st') session_dir then
    on_disk (rmtree session_dir);;;
    ret true
  else ret false.

(** *** Provisioning *)

(** The answers of [sdkmanager] and [avdmanager]; the second of each pair
    is consulted only when the source runs that command. *)
Record SdkEnv := {
  list_installed : outcome;
  install_image : outcome;
  list_avd : outcome;
  create_avd : outcome;
}.

Definition ensure_system_image (system_image : pystr) (e : SdkEnv) : M bool :=
  st <- get;;
  result <- run [sdkmanager_bin st; "--list_installed"] (list_installed e);;
  if Py.contains system_image (stdout result) then ret true
  else
    result <- run [sdkmanager_bin st; system_image] (install_image e);;
    ret (bool_decide (returncode result = 0)).

Definition create_base_avd (config : EmulatorConfig.t) (e : SdkEnv) : M bool :=
  ok <- ensure_system_image (EmulatorConfig.system_image config) e;;
  if negb ok then
    raise (RuntimeError ("Failed to install system image: " +:+
                         EmulatorConfig.system_image config))
  else
    st <- get;;
    result <- run [avdmanager_bin st; "list"; "avd"; "-c"] (list_avd e);;
    if bool_decide (EmulatorConfig.avd_name config ∈ Py.lines (stdout result))
    then ret true
    else
      let cmd :=
        [ avdmanager_bin st; "create"; "avd";
          "--name"; EmulatorConfig.avd_name config;
          "--package"; EmulatorConfig.system_image config;
          "--device"; EmulatorConfig.device_profile config;
          "--force" ] in
      result <- run cmd (create_avd e);;
      if decide (returncode result ≠ 0)
      then raise (RuntimeError ("Failed to create AVD: " +:+ stderr result))
      else ret true.

(** *** The port allocator *)

(** A TCP socket: unbound, or bound to a local port. *)
Record socket := Socket { bound : option Z }.

(** [s.bind(("localhost", port))].  [free] tells which local ports the
    operating system lets a new socket bind.  A socket is bound once:
    binding a bound socket again fails with [EINVAL] (bind(2): the socket
    is already bound to an address), whatever the port. *)
Definition socket_bind (free : Z -> bool) (s : socket) (port : Z) : result socket :=
  match bound s with
  | Some _ => Raise (OSError EINVAL)
  | None => if free port then Ok (Socket (Some port)) else Raise (OSError EADDRINUSE)
  end.

(** The body of the [with socket.socket(...) as s: try: ...] block: both
    binds are made on the one socket [s]. *)
Definition probe (free : Z -> bool) (port : Z) : result Z :=
  let s := Socket None in
  rbind (socket_bind free s port) (fun s =>
  rbind (socket_bind free s (port + 1)) (fun _ =>
  Ok port)).

Definition no_ports : exn := RuntimeError "No available emulator ports".

Fixpoint scan_ports (free : Z -> bool) (used_ports : gset Z) (candidates : list Z)
  : result Z :=
  match candidates with
  | [] => Raise no_ports
  | port :: rest =>
      if decide (port ∈ used_ports) then scan_ports free used_ports rest
      else
        match probe free port with
        | Ok p => Ok p
        | Raise e =>
            if is_OSError e then scan_ports free used_ports rest else Raise e
        end
  end.

Definition _find_available_port (free : Z -> bool) : M Z :=
  st <- get;;
  let used_ports : gset Z := map_img (_ports st) in
  lift (scan_ports free used_ports (Py.range 5554 5682 2)).

(** *** The boot watcher *)

(** The [i]-th poll of each phase: how many seconds the [adb] call takes
    and what it answers.  Time is counted in whole seconds from the reading
    of [start]; every unsuccessful poll is followed by [time.sleep(2)]. *)
Record BootEnv := {
  devices_poll : nat -> nat * outcome;
  bootprop_poll : nat -> nat * outcome;
}.

(** [serial in out and "device" in out.split(serial)[1].split("\n")[0]]:
    the second operand is evaluated only when [out] contains [serial], and
    there is then a second field; a split has a first field always. *)
Definition device_listed (serial out : pystr) : result bool :=
  if Py.contains serial out then
    rbind (Py.split serial out) (fun parts =>
      Ok (match parts with
          | _ :: part :: _ => Py.contains "device" (hd EmptyStr (Py.lines part))
          | _ => false
          end))
  else Ok false.

(** The first [while] loop: [Some t] when it leaves by [break] at time [t],
    [None] when its [else] branch is taken. *)
Fixpoint wait_device (e : BootEnv) (serial : pystr) (timeout : Z)
    (fuel i : nat) (elapsed : Z) : M (option Z) :=
  if elapsed <? timeout then
    match fuel with
    | O => ret None
    | S fuel' =>
        st <- get;;
        result <- run [adb_bin st; "devices"] (devices_poll e i).2;;
        let elapsed' := elapsed + Z.of_nat (devices_poll e i).1 in
        listed <- lift (device_listed serial (stdout result));;
        if (listed : bool) then ret (Some elapsed')
        else wait_device e serial timeout fuel' (S i) (elapsed' + 2)
    end
  else ret None.

(** The second [while] loop. *)
Fixpoint wait_completed (e : BootEnv) (serial : pystr) (timeout : Z)
    (fuel i : nat) (elapsed : Z) : M bool :=
  if elapsed <? timeout then
    match fuel with
    | O => ret false
    | S fuel' =>
        st <- get;;
        result <- run [adb_bin st; "-s"; serial; "shell"; "getprop";
                       "sys.boot_completed"] (bootprop_poll e i).2;;
        let elapsed' := elapsed + Z.of_nat (bootprop_poll e i).1 in
        if decide (Py.strip (stdout result) = "1") then ret true
        else wait_completed e serial timeout fuel' (S i) (elapsed' + 2)
    end
  else ret false.

(** Each turn of a loop takes two seconds at least, so [timeout] turns
    are more than either loop can make. *)
Definition _wait_for_boot (serial : pystr) (timeout : Z) (e : BootEnv) : M bool :=
  seen <- wait_device e serial timeout (Z.to_nat timeout) 0 0;;
  match seen with
  | None => ret false
  | Some elapsed => wait_completed e serial timeout (Z.to_nat timeout) 0 elapsed
  end.

(** *** Starting *)

Record StartEnv := {
  create_env : CreateEnv;        (* when the session is created on the way *)
  sdk_env : SdkEnv;
  free_port : Z -> bool;         (* the ports the system lets a socket bind *)
  emulator_fails : option errno; (* the emulator cannot be started: [OSError] *)
  boot_env : BootEnv;
  cleanup_env : StopEnv;         (* for the [stop] after a failed boot *)
  now_started : pystr;          (* [datetime.now().isoformat()] at the end *)
}.

Definition boot_timeout (timeout : Z) : exn :=
  RuntimeError ("Emulator failed to boot within " +:+ Py.str timeout +:+ "s").

(** [subprocess.Popen(cmd, ..., preexec_fn=os.setsid)]: the program is
    started as a new process, or it cannot be started and [OSError] is
    raised. *)
Definition Popen (cmd : list pystr) (fails : option errno) : M nat :=
  match fails with
  | Some e => raise (OSError e)
  | None =>
      st <- get;;
      let pid := next_pid st in
      modify (fun s => with_next_pid (S pid) (with_log (log s ++ [Spawn pid cmd]) s));;;
      ret pid
  end.

Definition set_last_accessed (now : pystr) (m : SessionMetadata.t) : SessionMetadata.t :=
  SessionMetadata.Make (SessionMetadata.session_id m) (SessionMetadata.created_at m)
    now (SessionMetadata.avd_name m) (SessionMetadata.system_image m)
    (SessionMetadata.installed_packages m) (SessionMetadata.snapshots m)
    (SessionMetadata.notes m).

Definition start (session_id : pystr) (config : option EmulatorConfig.t)
    (wait_boot : bool) (timeout : Z) (e : StartEnv) : M pystr :=
  st <- get;;
  if decide (session_id ∈ dom (_processes st)) then
    port <- getitem (_ports st) session_id;;
    ret (serial_of port)
  else
    found <- get_session session_id;;
    session_dir <-
      match found with
      | Some dir => ret dir
      | None => create_session session_id config None (create_env e)
      end;;
    let config := default EmulatorConfig.default config in
    metadata <- _load_metadata (Some session_dir);;
    create_base_avd config (sdk_env e);;;
    port <-
      match EmulatorConfig.port config with
      | Some p => if decide (p = 0) then _find_available_port (free_port e) else ret p
      | None => _find_available_port (free_port e)
      end;;
    modify (fun s => with_ports (<[session_id := port]> (_ports s)) s);;;
    st1 <- get;;
    let userdata_path := session_dir ++ ["userdata.img"] in
    let sdcard_path := session_dir ++ ["sdcard.img"] in
    let cmd :=
      [ emulator_bin st1; "-avd"; EmulatorConfig.avd_name config;
        "-port"; Py.str port;
        "-memory"; Py.str (EmulatorConfig.memory_mb config);
        "-cores"; Py.str (EmulatorConfig.cores config) ]
      ++ (if path_exists (disk st1) userdata_path
          then ["-data"; path_str st1 userdata_path] else [])
      ++ (if path_exists (disk st1) sdcard_path
          then ["-sdcard"; path_str st1 sdcard_path] else [])
      ++ (if EmulatorConfig.headless config
          then ["-no-window"; "-no-audio"; "-no-boot-anim"; "-gpu";
                EmulatorConfig.gpu config]
          else ["-gpu"; "host"])
      ++ (if EmulatorConfig.writable_system config then ["-writable-system"] else [])
      ++ (if negb (EmulatorConfig.snapshot_on_exit config)
          then ["-no-snapshot-save"] else []) in
    process <- Popen cmd (emulator_fails e);;
    modify (fun s => with_processes (<[session_id := process]> (_processes s)) s);;;
    let serial := serial_of port in
    (if wait_boot then
       booted <- _wait_for_boot serial timeout (boot_env e);;
       if negb booted then
         stop session_id (cleanup_env e);;;
         raise (boot_timeout timeout)
       else ret tt
     else ret tt);;;
    match metadata with
    | Some m => _save_metadata (Some session_dir) (set_last_accessed (now_started e) m)
    | None => ret tt
    end;;;
    ret serial.

(** [restart]: [stop], a pause, [start] with the default arguments. *)
Definition restart (session_id : pystr) (config : option EmulatorConfig.t)
    (se : StopEnv) (e : StartEnv) : M pystr :=
  stop session_id se;;;
  start session_id config true 120 e.

(** *** Snapshots *)

Definition not_running (session_id : pystr) : exn :=
  RuntimeError ("Session '" +:+ session_id +:+ "' is not running").

(** Truth value of an [Optional[str]]. *)
Definition truthy (s : option pystr) : bool :=
  match s with
  | Some (Chr _ _) => true
  | _ => false
  end.

Definition set_snapshots (l : list pystr) (m : SessionMetadata.t) : SessionMetadata.t :=
  SessionMetadata.Make (SessionMetadata.session_id m) (SessionMetadata.created_at m)
    (SessionMetadata.last_accessed m) (SessionMetadata.avd_name m)
    (SessionMetadata.system_image m) (SessionMetadata.installed_packages m)
    l (SessionMetadata.notes m).

Definition set_installed_packages (l : list pystr) (m : SessionMetadata.t)
  : SessionMetadata.t :=
  SessionMetadata.Make (SessionMetadata.session_id m) (SessionMetadata.created_at m)
    (SessionMetadata.last_accessed m) (SessionMetadata.avd_name m)
    (SessionMetadata.system_image m) l
    (SessionMetadata.snapshots m) (SessionMetadata.notes m).

(** [l.remove(x)] for an [x] that occurs in [l]: the first occurrence goes. *)
Fixpoint remove_first (x : pystr) (l : list pystr) : list pystr :=
  match l with
  | [] => []
  | y :: l' => if decide (x = y) then l' else y :: remove_first x l'
  end.

Definition save_snapshot (session_id snapshot_name : pystr)
    (reply : outcome) : M bool :=
  serial <- get_serial session_id;;
  if negb (truthy serial) then raise (not_running session_id)
  else
    st <- get;;
    result <- run [adb_bin st; "-s"; default EmptyStr serial; "emu"; "avd";
                   "snapshot"; "save"; snapshot_name] reply;;
    if decide (returncode result = 0) then
      session_dir <- get_session session_id;;
      metadata <- _load_metadata session_dir;;
      match metadata with
      | Some m =>
          if decide (snapshot_name ∉ SessionMetadata.snapshots m) then
            _save_metadata session_dir
              (set_snapshots (SessionMetadata.snapshots m ++ [snapshot_name]) m)
          else ret tt
      | None => ret tt
      end;;;
      ret true
    else ret false.

Definition load_snapshot (session_id snapshot_name : pystr)
    (reply : outcome) : M bool :=
  serial <- get_serial session_id;;
  if negb (truthy serial) then raise (not_running session_id)
  else
    st <- get;;
    result <- run [adb_bin st; "-s"; default EmptyStr serial; "emu"; "avd";
                   "snapshot"; "load"; snapshot_name] reply;;
    if decide (returncode result = 0) then ret true else ret false.

(** The names read off the instance's listing: the first word of every
    line that, stripped, is not empty and starts neither with [ID] nor
    with a dash. *)
Definition parse_snapshot_list (out : pystr) : list pystr :=
  omap (fun line =>
          let line := Py.strip line in
          if negb (bool_decide (line = EmptyStr))
             && negb (Py.startswith "ID" line)
             && negb (Py.startswith "-" line)
          then head (Py.words line)
          else None)
       (Py.lines out).

Definition list_snapshots (session_id : pystr) (reply : outcome)
  : M (list pystr) :=
  serial <- get_serial session_id;;
  if negb (truthy serial) then
    session_dir <- get_session session_id;;
    match session_dir with
    | Some dir =>
        metadata <- _load_metadata (Some dir);;
        match metadata with
        | Some m => ret (SessionMetadata.snapshots m)
        | None => ret []
        end
    | None => ret []
    end
  else
    st <- get;;
    result <- run [adb_bin st; "-s"; default EmptyStr serial; "emu"; "avd";
                   "snapshot"; "list"] reply;;
    ret (parse_snapshot_list (stdout result)).

Definition delete_snapshot (session_id snapshot_name : pystr)
    (reply : outcome) : M bool :=
  serial <- get_serial session_id;;
  if negb (truthy serial) then raise (not_running session_id)
  else
    st <- get;;
    result <- run [adb_bin st; "-s"; default EmptyStr serial; "emu"; "avd";
                   "snapshot"; "delete"; snapshot_name] reply;;
    if decide (returncode result = 0) then
      session_dir <- get_session session_id;;
      metadata <- _load_metadata session_dir;;
      match metadata with
      | Some m =>
          if decide (snapshot_name ∈ SessionMetadata.snapshots m) then
            _save_metadata session_dir
              (set_snapshots (remove_first snapshot_name (SessionMetadata.snapshots m)) m)
          else ret tt
      | None => ret tt
      end;;;
      ret true
    else ret false.

(** *** App management *)

(** What [adb install] and [aapt] come to; [aapt] is looked up on
    [PATH]. *)
Record InstallEnv := {
  install_reply : outcome;
  aapt_reply : outcome;
}.

(** [l[i]] *)
Definition index {A} (l : list A) (i : nat) : result A :=
  match l !! i with
  | Some x => Ok x
  | None => Raise IndexError
  end.

Definition install_apk (session_id apk_path : pystr) (e : InstallEnv) : M bool :=
  serial <- get_serial session_id;;
  if negb (truthy serial) then raise (not_running session_id)
  else
    st <- get;;
    result <- run [adb_bin st; "-s"; default EmptyStr serial; "install"; "-r";
                   apk_path] (install_reply e);;
    if decide (returncode result = 0) then
      try_except
        (aapt_result <- run ["aapt"; "dump"; "badging"; apk_path] (aapt_reply e);;
         match find (Py.startswith "package:") (Py.lines (stdout aapt_result)) with
         | Some line =>
             parts <- lift (Py.split "name='" line);;
             rest <- lift (index parts 1);;
             parts' <- lift (Py.split "'" rest);;
             package <- lift (index parts' 0);;
             session_dir <- get_session session_id;;
             metadata <- _load_metadata session_dir;;
             match metadata with
             | Some m =>
                 if decide (package ∉ SessionMetadata.installed_packages m) then
                   _save_metadata session_dir
                     (set_installed_packages
                        (SessionMetadata.installed_packages m ++ [package]) m)
                 else ret tt
             | None => ret tt
             end
         | None => ret tt
         end)
        is_Exception (ret tt);;;
      ret true
    else ret false.

(** [s.replace(old, new)] for a non-empty [old]: the fields between the
    occurrences of [old], found from the left, joined by [new]. *)
Definition str_replace (old new s : pystr) : pystr :=
  Json.join new (Py.fields old s).

Definition list_installed_packages (session_id : pystr) (reply : outcome)
  : M (list pystr) :=
  serial <- get_serial session_id;;
  if negb (truthy serial) then raise (not_running session_id)
  else
    st <- get;;
    result <- run [adb_bin st; "-s"; default EmptyStr serial; "shell"; "pm";
                   "list"; "packages"; "-3"] reply;;
    ret (omap (fun line =>
                 if Py.startswith "package:" line
                 then Some (Py.strip (str_replace "package:" EmptyStr line))
                 else None)
              (Py.lines (stdout result))).

(** *** AVD listing and removal *)

Definition list_avds (reply : outcome) : M (list pystr) :=
  st <- get;;
  result <- run [avdmanager_bin st; "list"; "avd"; "-c"] reply;;
  ret (Py.strip <$>
       List.filter (fun avd => negb (bool_decide (Py.strip avd = EmptyStr)))
                   (Py.lines (stdout result))).

Definition delete_avd (avd_name : pystr) (reply : outcome) : M bool :=
  st <- get;;
  result <- run [avdmanager_bin st; "delete"; "avd"; "--name"; avd_name] reply;;
  ret (bool_decide (returncode result = 0)).

(** *** Listing the sessions *)

(** [Path.iterdir()]: the names in a directory.  Python leaves their order
    to the file system; the model takes the order of the map. *)
Definition iterdir (p : list pystr) (d : gmap pystr node) : result (list pystr) :=
  match lookup_path d p with
  | Some (Dir m) => Ok (map_to_list m).*1
  | Some (File _) => Raise (OSError ENOTDIR)
  | None => Raise (OSError ENOENT)
  end.

(** The [for] loop of [list_sessions] over the entries still to visit.  A
    dataclass instance is always true, so [if metadata] asks whether the
    file was there. *)
Fixpoint list_sessions_from (entries : list pystr)
    (sessions : list SessionMetadata.t) : M (list SessionMetadata.t) :=
  match entries with
  | [] => ret sessions
  | name :: rest =>
      let session_dir := sessions_dir ++ [name] in
      st <- get;;
      if is_dir (disk st) session_dir then
        metadata <- _load_metadata (Some session_dir);;
        match metadata with
        | Some m => list_sessions_from rest (sessions ++ [m])
        | None => list_sessions_from rest sessions
        end
      else list_sessions_from rest sessions
  end.

Definition list_sessions : M (list SessionMetadata.t) :=
  st <- get;;
  entries <- lift (iterdir sessions_dir (disk st));;
  list_sessions_from entries [].

(** *** Stopping everything *)

(** The loop of [_cleanup] over a copy of the keys; [e] tells what happens
    while each session is stopped. *)
Fixpoint stop_each (ids : list pystr) (e : pystr -> StopEnv) : M unit :=
  match ids with
  | [] => ret tt
  | session_id :: rest => stop session_id (e session_id);;; stop_each rest e
  end.

(** [list(self._processes.keys())] is in insertion order in Python and in
    the order of the map here. *)
Definition _cleanup (e : pystr -> StopEnv) : M unit :=
  st <- get;;
  stop_each (map_to_list (_processes st)).*1 e.

(** ** The port allocator as the specification words it

    The first even port of [5554, 5682) that the registry does not hold and
    whose control port and console port are both free. *)
Definition allocate_spec (free : Z -> bool) (used_ports : gset Z) : option Z :=
  head (List.filter
          (fun port => bool_decide (port ∉ used_ports) && free port && free (port + 1))
          (Py.range 5554 5682 2)).

(** ** The states a manager can be in *)

(** A call of a public method, with what the world answers during it. *)
Inductive call :=
| Call_create_session (session_id : pystr) (config : option EmulatorConfig.t)
    (from_template : option pystr) (e : CreateEnv)
| Call_delete_session (session_id : pystr) (force : bool) (e : StopEnv)
| Call_start (session_id : pystr) (config : option EmulatorConfig.t)
    (wait_boot : bool) (timeout : Z) (e : StartEnv)
| Call_stop (session_id : pystr) (e : StopEnv)
| Call_restart (session_id : pystr) (config : option EmulatorConfig.t)
    (se : StopEnv) (e : StartEnv)
| Call_save_snapshot (session_id snapshot_name : pystr) (reply : outcome)
| Call_load_snapshot (session_id snapshot_name : pystr) (reply : outcome)
| Call_list_snapshots (session_id : pystr) (reply : outcome)
| Call_delete_snapshot (session_id snapshot_name : pystr) (reply : outcome)
| Call_install_apk (session_id apk_path : pystr) (e : InstallEnv)
| Call_list_installed_packages (session_id : pystr) (reply : outcome)
| Call_ensure_system_image (system_image : pystr) (e : SdkEnv)
| Call_create_base_avd (config : EmulatorConfig.t) (e : SdkEnv)
| Call_list_avds (reply : outcome)
| Call_delete_avd (avd_name : pystr) (reply : outcome)
| Call_list_sessions
| Call_cleanup (e : pystr -> StopEnv).

(** The state a call leaves, whether it returns or raises. *)
Definition after (c : call) (st : state) : state :=
  match c with
  | Call_create_session id config t e => (create_session id config t e st).2
  | Call_delete_session id force e => (delete_session id force e st).2
  | Call_start id config w t e => (start id config w t e st).2
  | Call_stop id e => (stop id e st).2
  | Call_restart id config se e => (restart id config se e st).2
  | Call_save_snapshot id n r => (save_snapshot id n r st).2
  | Call_load_snapshot id n r => (load_snapshot id n r st).2
  | Call_list_snapshots id r => (list_snapshots id r st).2
  | Call_delete_snapshot id n r => (delete_snapshot id n r st).2
  | Call_install_apk id p e => (install_apk id p e st).2
  | Call_list_installed_packages id r => (list_installed_packages id r st).2
  | Call_ensure_system_image img e => (ensure_system_image img e st).2
  | Call_create_base_avd config e => (create_base_avd config e st).2
  | Call_list_avds r => (list_avds r st).2
  | Call_delete_avd name r => (delete_avd name r st).2
  | Call_list_sessions => (list_sessions st).2
  | Call_cleanup e => (_cleanup e st).2
  end.

(** An emulator process exits on its own. *)
Definition process_exits (pid : nat) (st : state) : state :=
  with_exited ({[pid]} ∪ exited st) st.

Inductive reachable : state -> Prop :=
| reachable_init data sdk d st :
    __init__ data sdk d = Ok st -> reachable st
| reachable_call c st :
    reachable st -> reachable (after c st)
| reachable_exit pid st :
    reachable st -> reachable (process_exits pid st).

(** Every session with a process handle has a port. *)
Definition registry_inv (st : state) : Prop :=
  dom (_processes st) ⊆ dom (_ports st).

(** ** Vocabulary of the proofs *)

(** [wp m Q st]: run from [st], [m] ends in a result and a state that
    satisfy [Q]. *)
Definition wp {A} (m : M A) (Q : result A -> state -> Prop) (st : state) : Prop :=
  Q (m st).1 (m st).2.

(** What an operation that only reads and writes the disk or runs a tool
    leaves alone: the registries, the processes and the two roots; and the
    log only grows. *)
Definition keeps (st s : state) : Prop :=
  _processes s = _processes st /\ _ports s = _ports st /\
  next_pid s = next_pid st /\ exited s = exited st /\
  data_dir s = data_dir st /\ sdk_path s = sdk_path st /\
  log st `prefix_of` log s.

(** [quiet E m]: [m] keeps all that, and whatever it raises is in [E]. *)
Definition quiet {A} (E : exn -> Prop) (m : M A) : Prop :=
  forall st, wp m (fun r s => keeps st s /\ forall e, r = Raise e -> E e) st.

(** What running a program can raise. *)
Definition tool_error (e : exn) : Prop :=
  match e with
  | OSError _ | UnicodeDecodeError => True
  | _ => False
  end.

(** The exceptions of the disk, of the metadata file and of a program
    that is run. *)
Definition io_error (e : exn) : Prop :=
  match e with
  | OSError _ | JSONDecodeError | TypeError | UnicodeDecodeError => True
  | _ => False
  end.

Definition no_error (e : exn) : Prop := False.

(** The entry [name] of a directory once [update_at] has put [o] there. *)
Definition put (o : option node) (name : pystr) (m : gmap pystr node)
  : gmap pystr node :=
  match o with
  | Some n => <[name := n]> m
  | None => delete name m
  end.

(** The separators [json.dump] writes with [indent=2]. *)
Definition elem_sep : pystr := "," +:+ Py.nl +:+ "    ".
Definition item_sep : pystr := "," +:+ Py.nl +:+ "  ".

(** A record whose strings [json] reads back as it writes them. *)
Definition stable_record (m : SessionMetadata.t) : bool :=
  Json.stable (SessionMetadata.session_id m) &&
  Json.stable (SessionMetadata.created_at m) &&
  Json.stable (SessionMetadata.last_accessed m) &&
  Json.stable (SessionMetadata.avd_name m) &&
  Json.stable (SessionMetadata.system_image m) &&
  forallb Json.stable (SessionMetadata.installed_packages m) &&
  forallb Json.stable (SessionMetadata.snapshots m) &&
  Json.stable (SessionMetadata.notes m).

(** The metadata a session directory holds, if its file decodes. *)
Definition persisted (session_id : pystr) (st : state) : option SessionMetadata.t :=
  match (_load_metadata (Some (sessions_dir ++ [session_id])) st).1 with
  | Ok o => o
  | Raise _ => None
  end.

(** What [create_session] can raise. *)
Definition create_error (session_id : pystr) (e : exn) : Prop :=
  io_error e \/ e = already_exists session_id.

(** What [create_base_avd] can raise. *)
Definition provisioning_error (e : exn) : Prop :=
  tool_error e \/ exists msg, e = RuntimeError ("Failed to " +:+ msg).

(** The request [stop] sends to the instance on [port]. *)
Definition kill_request (st : state) (port : Z) : event :=
  Run [adb_bin st; "-s"; serial_of port; "emu"; "kill"].

(** What the boot watcher can raise: the serial is the separator of a
    split. *)
Definition boot_error (serial : pystr) (e : exn) : Prop :=
  tool_error e \/ (serial = EmptyStr /\ e = ValueError "empty separator").

(** What an operation that only asks [adb] can raise. *)
Definition adb_error (session_id : pystr) (e : exn) : Prop :=
  tool_error e \/ e = RuntimeError ("Session '" +:+ session_id +:+ "' is not running").

(** What [install_apk] comes to for a session with a port, by what
    [adb install] comes to. *)
Definition install_result (reply : outcome) : result bool :=
  match reply with
  | Completes r => Ok (bool_decide (returncode r = 0))
  | NotStarted errno => Raise (OSError errno)
  | Undecodable => Raise UnicodeDecodeError
  end.

(** What the snapshot operations can raise. *)
Definition snapshot_error (session_id : pystr) (e : exn) : Prop :=
  io_error e \/ e = not_running session_id.

(** [started id cfg st s port]: from [st], the session [id] has been
    registered in [s] on [port], with a new process. *)
Definition started (session_id : pystr) (cfg : EmulatorConfig.t)
    (st s : state) (port : Z) : Prop :=
  EmulatorConfig.port cfg = Some port /\ port <> 0 /\
  _ports s = <[session_id := port]> (_ports st) /\
  _processes s = <[session_id := next_pid st]> (_processes st) /\
  next_pid s = S (next_pid st) /\ exited s = exited st /\
  exists cmd, Spawn (next_pid st) cmd ∈ log s.

(** [cleaned_up id cfg st s]: from [st], a process has been spawned for
    [id] and stopped again, and [id] is in neither registry in [s]. *)
Definition cleaned_up (session_id : pystr) (cfg : EmulatorConfig.t)
    (st s : state) : Prop :=
  _processes s = delete session_id (_processes st) /\
  _ports s = delete session_id (_ports st) /\
  next_pid s = S (next_pid st) /\
  exited s = {[next_pid st]} ∪ exited st /\
  (exists cmd, Spawn (next_pid st) cmd ∈ log s) /\
  exists port, EmulatorConfig.port cfg = Some port /\ port <> 0 /\
               kill_request s port ∈ log s.

(** [port_taken id cfg st s port]: from [st], [port] has been entered for
    [id] in [s], and nothing else has changed in the registries and the
    processes. *)
Definition port_taken (session_id : pystr) (cfg : EmulatorConfig.t)
    (st s : state) (port : Z) : Prop :=
  EmulatorConfig.port cfg = Some port /\ port <> 0 /\
  _ports s = <[session_id := port]> (_ports st) /\
  _processes s = _processes st /\
  next_pid s = next_pid st /\ exited s = exited st.

(** What the boot watcher answers for the instance on [port]; the state it
    is asked in has no part in the answer. *)
Definition boot_answer (port timeout : Z) (e : BootEnv) (st : state) : result bool :=
  (_wait_for_boot (serial_of port) timeout e st).1.

(** How [start] ends with an exception once the process is registered:
    the boot watcher raises; or it answers no and [stop] cannot start
    [adb]; or the metadata cannot be written at the end. *)
Definition start_aborted (wait_boot : bool) (timeout : Z) (e : StartEnv)
    (st : state) (port : Z) (x : exn) : Prop :=
  (wait_boot = true /\ boot_answer port timeout (boot_env e) st = Raise x) \/
  (wait_boot = true /\ boot_answer port timeout (boot_env e) st = Ok false /\
   exists errno, kill_reply (cleanup_env e) = Unstarted errno /\ x = OSError errno) \/
  (io_error x /\
   (wait_boot = true -> boot_answer port timeout (boot_env e) st = Ok true)).

(** The ways [start] ends for a session that has no process yet: it
    returns, with the session registered; or it raises before a port is
    taken; or the emulator cannot be started; or it raises with the
    session registered; or the boot watcher answers no and the session is
    stopped again. *)
Definition start_post (session_id : pystr) (config : option EmulatorConfig.t)
    (wait_boot : bool) (timeout : Z) (e : StartEnv) (st : state)
    (r : result pystr) (s : state) : Prop :=
  let cfg := default EmulatorConfig.default config in
  match r with
  | Ok serial =>
      exists port, serial = serial_of port /\ started session_id cfg st s port /\
        (wait_boot = true -> boot_answer port timeout (boot_env e) st = Ok true)
  | Raise x =>
      (x <> boot_timeout timeout /\ keeps st s) \/
      (exists port errno, x = OSError errno /\ emulator_fails e = Some errno /\
         port_taken session_id cfg st s port) \/
      (exists port, started session_id cfg st s port /\
         start_aborted wait_boot timeout e st port x) \/
      (x = boot_timeout timeout /\ wait_boot = true /\
       cleaned_up session_id cfg st s /\
       forall port, EmulatorConfig.port cfg = Some port ->
                    boot_answer port timeout (boot_env e) st = Ok false)
  end.

(** Two paths that part at some component. *)
Fixpoint diverge (p q : list pystr) : Prop :=
  match p, q with
  | a :: p', b :: q' => (a <> b) \/ (a = b /\ diverge p' q')
  | _, _ => False
  end.

(** The metadata [create_session] writes. *)
Definition initial_metadata (session_id : pystr)
    (config : option EmulatorConfig.t) (e : CreateEnv) : SessionMetadata.t :=
  let cfg := default EmulatorConfig.default config in
  SessionMetadata.Make session_id (now_created e) (now_accessed e)
    (EmulatorConfig.avd_name cfg) (EmulatorConfig.system_image cfg)
    [] [] EmptyStr.

(** Where [create_session] looks for the image of a template. *)
Definition template_source (template : pystr) : list pystr :=
  if decide (template = "base")
  then shared_dir ++ ["base_userdata.img"]
  else sessions_dir ++ [template; "userdata.img"].

(** What is found there, when a template is asked for. *)
Definition template_node (from_template : option pystr) (d : gmap pystr node)
  : option node :=
  match from_template with
  | Some (Chr _ _ as template) => lookup_path d (template_source template)
  | _ => None
  end.

(** A template that is [None], empty, or a file name: [sessions_dir /
    from_template] is then an entry of the sessions directory. *)
Definition template_component (from_template : option pystr) : bool :=
  match from_template with
  | Some (Chr _ _ as template) => path_component template
  | _ => true
  end.

(** The session directory [create_session] makes, before any copy. *)
Definition new_session_dir (md : SessionMetadata.t) : gmap pystr node :=
  <["metadata.json" := File (Json.dumps (asdict md))]> {["snapshots" := Dir ∅]}.

(** [stores id m st]: the metadata file of session [id] holds [m]. *)
Definition stores (session_id : pystr) (m : SessionMetadata.t) (st : state) : Prop :=
  exists dm,
    lookup_path (disk st) (sessions_dir ++ [session_id]) = Some (Dir dm) /\
    dm !! "metadata.json" = Some (File (Json.dumps (asdict m))).

(** The snapshot list of the metadata after [save_snapshot] and after
    [delete_snapshot], the instance having answered with [rc]. *)
Definition after_save (n : pystr) (rc : Z) (old : list pystr) : list pystr :=
  if decide (rc = 0 /\ n ∉ old) then old ++ [n] else old.

Definition after_delete (n : pystr) (rc : Z) (old : list pystr) : list pystr :=
  if decide (rc = 0 /\ n ∈ old) then remove_first n old else old.

(** ** A small world for the examples *)

Definition ex_image : pystr := "system-images;android-34;google_apis;x86_64".

(** A configuration with a fixed port. *)
Definition ex_config : EmulatorConfig.t :=
  EmulatorConfig.Make "base_pixel7_api34" ex_image "pixel_7" true
    "swiftshader_indirect" 4096 4 2048 (Some 5554) false true.

Definition ex_done : CompletedProcess := Completed 0 EmptyStr EmptyStr.
Definition ex_failed : CompletedProcess := Completed 1 EmptyStr "error".

(** The image is installed and the AVD exists. *)
Definition ex_sdk : SdkEnv :=
  {| list_installed := Completes (Completed 0 ex_image EmptyStr);
     install_image := Completes ex_done;
     list_avd := Completes (Completed 0 "base_pixel7_api34" EmptyStr);
     create_avd := Completes ex_done |}.

(** The same, with two AVDs listed, one name a line. *)
Definition ex_sdk_two : SdkEnv :=
  {| list_installed := Completes (Completed 0 ex_image EmptyStr);
     install_image := Completes ex_done;
     list_avd :=
       Completes (Completed 0 ("base_pixel7_api34" +:+ Py.nl +:+ "tablet" +:+ Py.nl)
                    EmptyStr);
     create_avd := Completes ex_done |}.

Definition ex_create : CreateEnv :=
  {| now_created := "2024-05-01T10:00:00.000001";
     now_accessed := "2024-05-01T10:00:00.000002" |}.

(** The device never shows up. *)
Definition ex_never_boots : BootEnv :=
  {| devices_poll := fun _ =>
       (1%nat, Completes (Completed 0 "List of devices attached" EmptyStr));
     bootprop_poll := fun _ => (1%nat, Completes ex_done) |}.

(** The instance answers neither the request nor the wait. *)
Definition ex_forced : StopEnv := {| kill_reply := Expired; exits_in_time := false |}.

(** There is no [adb] below [sdk_path]. *)
Definition ex_no_adb : StopEnv :=
  {| kill_reply := Unstarted ENOENT; exits_in_time := true |}.

Definition ex_start : StartEnv :=
  {| create_env := ex_create;
     sdk_env := ex_sdk;
     free_port := fun _ => true;
     emulator_fails := None;
     boot_env := ex_never_boots;
     cleanup_env := ex_forced;
     now_started := "2024-05-01T10:05:00.000003" |}.

(** A manager that has just been made on an empty disk. *)
Definition ex_fresh : state :=
  State "/data" "/sdk"
    {[ "avds" := Dir ∅; "sessions" := Dir ∅; "shared" := Dir ∅ ]}
    ∅ ∅ 0 ∅ [].

(** The same after [start("s1", config, wait_boot=False)]. *)
Definition ex_running : state :=
  (start "s1" (Some ex_config) false 120 ex_start ex_fresh).2.

(** The fresh manager after [start("s2", config, timeout=3)], the device
    never showing up. *)
Definition ex_timed_out : state :=
  (start "s2" (Some ex_config) true 3 ex_start ex_fresh).2.

(** The metadata of session [s1] in [ex_running]. *)
Definition ex_metadata : SessionMetadata.t :=
  set_last_accessed "2024-05-01T10:05:00.000003"
    (initial_metadata "s1" (Some ex_config) ex_create).

(** A listing in the form of the table the emulator console prints: a
    title, the column heads, one row for each snapshot and [OK]. *)
Definition ex_listing : CompletedProcess :=
  Completed 0
    ("List of snapshots present on all disks:" +:+ Py.nl +:+
     " ID        TAG                 VM SIZE                DATE       VM CLOCK"
       +:+ Py.nl +:+
     " --        snap1                  130M 2024-05-01 10:06:00   00:01:06.084"
       +:+ Py.nl +:+
     "OK" +:+ Py.nl)
    EmptyStr.

(** [ex_running] after the emulator process of [s1] has exited. *)
Definition ex_exited : state := process_exits 0 ex_running.

(** The package is installed; there is no [aapt] on [PATH]. *)
Definition ex_install : InstallEnv :=
  {| install_reply := Completes ex_done; aapt_reply := NotStarted ENOENT |}.

(** [_wait_for_boot] with any number of turns allowed to its loops. *)
Definition wait_for_boot_fuel (fuel : nat) (serial : pystr) (timeout : Z)
    (e : BootEnv) : M bool :=
  seen <- wait_device e serial timeout fuel 0 0;;
  match seen with
  | None => ret false
  | Some elapsed => wait_completed e serial timeout fuel 0 elapsed
  end.

(** A session store in which every metadata file there is has been
    written by [_save_metadata], for a record that reads back as
    written. *)
Definition well_kept (sm : gmap pystr node) : Prop :=
  forall name dm,
    sm !! name = Some (Dir dm) ->
    dm !! "metadata.json" = None \/
    exists m, stable_record m = true /\
              dm !! "metadata.json" = Some (File (Json.dumps (asdict m))).

(** A session directory whose metadata file holds a line feed and nothing
    else. *)
Definition ex_corrupt : state :=
  with_disk
    (<["sessions" := Dir {["cut" := Dir {["metadata.json" := File Py.nl]}]}]>
       (disk ex_fresh))
    ex_fresh.

(** [ex_running] after [save_snapshot("s1", "snap1")], the instance
    reporting success. *)
Definition ex_saved : state :=
  (save_snapshot "s1" "snap1" (Completes ex_done) ex_running).2.

(** A record whose notes are the two surrogates of U+1F600, and the
    record with that character in their place. *)
Definition ex_pair : SessionMetadata.t :=
  SessionMetadata.Make "s1" "2024-05-01T10:00:00.000001"
    "2024-05-01T10:00:00.000002" "base_pixel7_api34" ex_image [] []
    (Chr 55357 (Chr 56832 EmptyStr)).

Definition ex_joined : SessionMetadata.t :=
  SessionMetadata.Make "s1" "2024-05-01T10:00:00.000001"
    "2024-05-01T10:00:00.000002" "base_pixel7_api34" ex_image [] []
    (Chr 128512 EmptyStr).

(** The session store of [ex_running]. *)
Definition ex_store : gmap pystr node :=
  {["s1" := Dir (new_session_dir ex_metadata)]}.

(** No white space in a string. *)
Fixpoint nospace (s : pystr) : bool :=
  match s with
  | EmptyStr => true
  | Chr a s' => negb (Py.isspace a) && nospace s'
  end.

(** A text of lines, each ended by a line feed. *)
Definition unlines (ls : list pystr) : pystr :=
  foldr (fun l acc => l +:+ Py.nl +:+ acc) EmptyStr ls.

(** What [pm list packages] prints for the packages [names]. *)
Definition pm_listing (names : list pystr) : pystr :=
  unlines ((fun n => "package:" +:+ n) <$> names).

Ltac munfold :=
  unfold bind, ret, raise, get, modify, lift, try_except, run, run_timeout,
    getitem, wait_timeout, killpg, wait, on_disk in *.

(** * Properties *)

Lemma socket_bind_bound free s port s' q :
  socket_bind free s port = Ok s' -> socket_bind free s' q = Raise (OSError EINVAL).
Proof.
  unfold socket_bind. destruct (bound s); [discriminate|].
  destruct (free port); [|discriminate]. intros [= <-]. reflexivity.
Qed.

Lemma probe_raises free port : exists e, probe free port = Raise (OSError e).
Proof.
  unfold probe. destruct (socket_bind free (Socket None) port) as [s|e] eqn:H1; simpl.
  - rewrite (socket_bind_bound _ _ _ _ _ H1). simpl. eauto.
  - unfold socket_bind in H1. simpl in H1. destruct (free port); [discriminate|].
    inversion H1. eauto.
Qed.

Lemma scan_ports_raises free used cands : scan_ports free used cands = Raise no_ports.
Proof.
  induction cands as [|port rest IH]; simpl; [reflexivity|].
  destruct (decide (port ∈ used)); [exact IH|].
  destruct (probe_raises free port) as [e ->]. simpl. exact IH.
Qed.


Lemma find_available_port_raises free st :
  _find_available_port free st = (Raise no_ports, st).
Proof.
  unfold _find_available_port, bind, get, lift.
  by rewrite scan_ports_raises.
Qed.



Lemma sapp_cons a s t : Chr a s +:+ t = Chr a (s +:+ t).
Proof. reflexivity. Qed.
Lemma sapp_nil t : EmptyStr +:+ t = t.
Proof. reflexivity. Qed.
Lemma sapp_assoc s t u : (s +:+ t) +:+ u = s +:+ (t +:+ u).
Proof. induction s as [|a s IH]; [reflexivity|]. rewrite !sapp_cons. by rewrite IH. Qed.

(** *** The [\u] escapes *)

Lemma hexval_hexdigit k : (k < 16)%N -> Json.hexval (Json.hexdigit k) = Some k.
Proof.
  intros Hk. unfold Json.hexval, Json.hexdigit.
  destruct (N.ltb_spec k 10) as [H|H].
  - replace ((48 <=? 48 + k)%N && (48 + k <=? 57)%N) with true
      by (symmetry; apply andb_true_iff; split; apply N.leb_le; lia).
    f_equal. lia.
  - replace ((48 <=? 87 + k)%N && (87 + k <=? 57)%N) with false
      by (symmetry; apply andb_false_iff; right; apply N.leb_gt; lia).
    replace ((97 <=? 87 + k)%N && (87 + k <=? 102)%N) with true
      by (symmetry; apply andb_true_iff; split; apply N.leb_le; lia).
    f_equal. lia.
Qed.

Lemma hex_digits n :
  (n < 65536)%N ->
  (((n / 16 / 16 / 16 mod 16 * 16 + n / 16 / 16 mod 16) * 16 +
    n / 16 mod 16) * 16 + n mod 16)%N = n.
Proof.
  intros Hn.
  pose proof (N.div_mod n 16). pose proof (N.div_mod (n / 16) 16).
  pose proof (N.div_mod (n / 16 / 16) 16).
  pose proof (N.div_mod (n / 16 / 16 / 16) 16).
  pose proof (N.mod_lt n 16). pose proof (N.mod_lt (n / 16) 16).
  pose proof (N.mod_lt (n / 16 / 16) 16).
  pose proof (N.mod_lt (n / 16 / 16 / 16) 16).
  generalize dependent (n mod 16)%N.
  generalize dependent (n / 16 mod 16)%N.
  generalize dependent (n / 16 / 16 mod 16)%N.
  generalize dependent (n / 16 / 16 / 16 mod 16)%N.
  generalize dependent (n / 16 / 16 / 16 / 16)%N.
  generalize dependent (n / 16 / 16 / 16)%N.
  generalize dependent (n / 16 / 16)%N.
  generalize dependent (n / 16)%N.
  intros. lia.
Qed.

Lemma unhex4_hex4 n :
  (n < 65536)%N ->
  exists h1 h2 h3 h4,
    Json.hex4 n = Chr h1 (Chr h2 (Chr h3 (Chr h4 EmptyStr))) /\
    Json.unhex4 h1 h2 h3 h4 = Some n.
Proof.
  intros Hn. do 4 eexists. split; [reflexivity|]. unfold Json.unhex4.
  rewrite !hexval_hexdigit by (apply N.mod_lt; discriminate).
  f_equal.
  replace (n / 4096)%N with (n / 16 / 16 / 16)%N
    by (by rewrite !N.Div0.div_div).
  replace (n / 256)%N with (n / 16 / 16)%N by (by rewrite N.Div0.div_div).
  by apply hex_digits.
Qed.

(** One step of the reader at a [\u] escape. *)
Lemma scanstring_u h1 h2 h3 h4 s3 u :
  Json.unhex4 h1 h2 h3 h4 = Some u ->
  Json.scanstring (Chr 92 (Chr 117 (Chr h1 (Chr h2 (Chr h3 (Chr h4 s3)))))) =
  let alone :=
    match Json.scanstring s3 with
    | Some (x, r) => Some (Chr u x, r)
    | None => None
    end in
  if Json.is_high u then
    match s3 with
    | Chr b (Chr e' (Chr l1 (Chr l2 (Chr l3 (Chr l4 s4))))) =>
        if bool_decide (b = 92%N) && bool_decide (e' = 117%N) then
          match Json.unhex4 l1 l2 l3 l4 with
          | Some u2 =>
              if Json.is_low u2 then
                match Json.scanstring s4 with
                | Some (x, r) => Some (Chr (Json.join_surrogates u u2) x, r)
                | None => None
                end
              else alone
          | None => None
          end
        else alone
    | _ => alone
    end
  else alone.
Proof.
  intros Hu.
  change (Json.scanstring (Chr 92 (Chr 117 (Chr h1 (Chr h2 (Chr h3 (Chr h4 s3)))))))
    with (match Json.unhex4 h1 h2 h3 h4 with
          | Some u =>
              let alone :=
                match Json.scanstring s3 with
                | Some (x, r) => Some (Chr u x, r)
                | None => None
                end in
              if Json.is_high u then
                match s3 with
                | Chr b (Chr e' (Chr l1 (Chr l2 (Chr l3 (Chr l4 s4))))) =>
                    if bool_decide (b = 92%N) && bool_decide (e' = 117%N) then
                      match Json.unhex4 l1 l2 l3 l4 with
                      | Some u2 =>
                          if Json.is_low u2 then
                            match Json.scanstring s4 with
                            | Some (x, r) =>
                                Some (Chr (Json.join_surrogates u u2) x, r)
                            | None => None
                            end
                          else alone
                      | None => None
                      end
                    else alone
                | _ => alone
                end
              else alone
          | None => None
          end).
  by rewrite Hu.
Qed.

(** An escape that is read alone: it is no high surrogate, or what
    follows is no escaped low surrogate. *)
Lemma scanstring_u_alone h1 h2 h3 h4 s3 u :
  Json.unhex4 h1 h2 h3 h4 = Some u ->
  (Json.is_high u = true ->
   forall l1 l2 l3 l4 s4,
     s3 = Chr 92 (Chr 117 (Chr l1 (Chr l2 (Chr l3 (Chr l4 s4))))) ->
     exists u2, Json.unhex4 l1 l2 l3 l4 = Some u2 /\ Json.is_low u2 = false) ->
  Json.scanstring (Chr 92 (Chr 117 (Chr h1 (Chr h2 (Chr h3 (Chr h4 s3)))))) =
  match Json.scanstring s3 with
  | Some (x, r) => Some (Chr u x, r)
  | None => None
  end.
Proof.
  intros Hu Ha. rewrite (scanstring_u _ _ _ _ _ _ Hu). cbv zeta.
  destruct (Json.is_high u); [|reflexivity]. specialize (Ha eq_refl).
  destruct s3 as [|b [|e' [|l1 [|l2 [|l3 [|l4 s4]]]]]]; try reflexivity.
  destruct (decide (b = 92%N)) as [->|Hb];
    [|by rewrite (bool_decide_false _ Hb)].
  destruct (decide (e' = 117%N)) as [->|He];
    [|by rewrite (bool_decide_false _ He), andb_false_r].
  destruct (Ha _ _ _ _ _ eq_refl) as (u2 & -> & ->). reflexivity.
Qed.

(** A surrogate pair is read as the code point it stands for. *)
Lemma scanstring_u_pair h1 h2 h3 h4 l1 l2 l3 l4 s4 u u2 :
  Json.unhex4 h1 h2 h3 h4 = Some u ->
  Json.is_high u = true ->
  Json.unhex4 l1 l2 l3 l4 = Some u2 ->
  Json.is_low u2 = true ->
  Json.scanstring
    (Chr 92 (Chr 117 (Chr h1 (Chr h2 (Chr h3 (Chr h4
       (Chr 92 (Chr 117 (Chr l1 (Chr l2 (Chr l3 (Chr l4 s4)))))))))))) =
  match Json.scanstring s4 with
  | Some (x, r) => Some (Chr (Json.join_surrogates u u2) x, r)
  | None => None
  end.
Proof.
  intros Hu Hh Hu2 Hl. rewrite (scanstring_u _ _ _ _ _ _ Hu). cbv zeta.
  rewrite Hh. cbv iota.
  rewrite !bool_decide_true by reflexivity. cbn [andb].
  by rewrite Hu2, Hl.
Qed.

Lemma scanstring_plain c s1 :
  c <> 34%N -> c <> 92%N -> (c <? 32)%N = false ->
  Json.scanstring (Chr c s1) =
  match Json.scanstring s1 with
  | Some (x, r) => Some (Chr c x, r)
  | None => None
  end.
Proof.
  intros H1 H2 H3. cbn [Json.scanstring].
  rewrite (decide_False (P := c = 34%N)) by done.
  rewrite (decide_False (P := c = 92%N)) by done.
  by rewrite H3.
Qed.

(** The surrogates [json] writes for a code point beyond the basic plane. *)
Lemma surrogates_of c :
  (65536 <= c < 1114112)%N ->
  let v := (c - 65536)%N in
  let hi := (55296 + v / 1024 mod 1024)%N in
  let lo := (56320 + v mod 1024)%N in
  (hi < 65536)%N /\ (lo < 65536)%N /\
  Json.is_high hi = true /\ Json.is_low hi = false /\
  Json.is_low lo = true /\ Json.join_surrogates hi lo = c.
Proof.
  intros Hc. cbv zeta.
  assert (Hv : (c - 65536 < 1048576)%N) by lia.
  assert (Hc' : (c = 65536 + (c - 65536))%N) by lia.
  revert Hv Hc'. generalize (c - 65536)%N. intros v Hv ->.
  assert (Hq : (v / 1024 < 1024)%N) by (apply N.Div0.div_lt_upper_bound; lia).
  rewrite (N.mod_small (v / 1024) 1024 Hq).
  pose proof (N.div_mod v 1024 ltac:(done)) as Hd.
  pose proof (N.mod_lt v 1024 ltac:(done)) as Hr.
  revert Hd Hr Hq. generalize (v mod 1024)%N (v / 1024)%N. intros r q Hd Hr Hq.
  split; [lia|]. split; [lia|]. unfold Json.is_high, Json.is_low.
  split; [apply andb_true_iff; split; apply N.leb_le; lia|].
  split; [apply andb_false_iff; left; apply N.leb_gt; lia|].
  split; [apply andb_true_iff; split; apply N.leb_le; lia|].
  unfold Json.join_surrogates. lia.
Qed.

(** The ways a character is written. *)
Lemma escape_char_cases c :
  (c < 1114112)%N ->
  (exists e, Json.escape_char c = Chr 92 (Chr e EmptyStr) /\
             e <> 117%N /\ Json.unescape e = Some c) \/
  (Json.escape_char c = Chr c EmptyStr /\
   c <> 34%N /\ c <> 92%N /\ (c <? 32)%N = false) \/
  ((c < 65536)%N /\ Json.escape_char c = "\u" +:+ Json.hex4 c) \/
  ((65536 <= c)%N /\
   Json.escape_char c =
   "\u" +:+ Json.hex4 (55296 + (c - 65536) / 1024 mod 1024) +:+
   "\u" +:+ Json.hex4 (56320 + (c - 65536) mod 1024)).
Proof.
  intros Hc. unfold Json.escape_char.
  destruct (decide (c = 34%N)) as [->|H1]; [left; by exists 34%N|].
  destruct (decide (c = 92%N)) as [->|H2]; [left; by exists 92%N|].
  destruct (decide (c = 10%N)) as [->|H3]; [left; by exists 110%N|].
  destruct (decide (c = 13%N)) as [->|H4]; [left; by exists 114%N|].
  destruct (decide (c = 9%N)) as [->|H5]; [left; by exists 116%N|].
  destruct (decide (c = 8%N)) as [->|H6]; [left; by exists 98%N|].
  destruct (decide (c = 12%N)) as [->|H7]; [left; by exists 102%N|].
  destruct ((32 <=? c)%N && (c <=? 126)%N) eqn:Hp.
  { right; left. apply andb_true_iff in Hp as [Hp _]. apply N.leb_le in Hp.
    split; [reflexivity|]. split; [done|]. split; [done|].
    apply N.ltb_ge. exact Hp. }
  destruct (N.ltb_spec c 65536) as [Hlt|Hge].
  - right; right; left. by split.
  - right; right; right. by split.
Qed.

Lemma scanstring_special e c s2 :
  e <> 117%N -> Json.unescape e = Some c ->
  Json.scanstring (Chr 92 (Chr e s2)) =
  match Json.scanstring s2 with
  | Some (x, r) => Some (Chr c x, r)
  | None => None
  end.
Proof.
  intros He Hu. cbn [Json.scanstring].
  rewrite (decide_False (P := 92%N = 34%N)) by done.
  rewrite (decide_True (P := 92%N = 92%N)) by done.
  rewrite (decide_False (P := e = ord "u")) by done.
  by rewrite Hu.
Qed.

(** What [escape] writes never starts with an escaped low surrogate,
    unless the string starts with a low surrogate. *)
Lemma escape_not_low s t l1 l2 l3 l4 s4 :
  match s with
  | Chr c _ => (c <? 1114112)%N && negb (Json.is_low c)
  | EmptyStr => true
  end = true ->
  Json.escape s +:+ Json.quote +:+ t =
  Chr 92 (Chr 117 (Chr l1 (Chr l2 (Chr l3 (Chr l4 s4))))) ->
  exists u2, Json.unhex4 l1 l2 l3 l4 = Some u2 /\ Json.is_low u2 = false.
Proof.
  destruct s as [|c s]; [discriminate|].
  intros [Hc Hl]%andb_true_iff. apply N.ltb_lt in Hc.
  apply negb_true_iff in Hl. cbn [Json.escape]. rewrite sapp_assoc.
  destruct (escape_char_cases c Hc)
    as [(e & -> & He & _)|[(-> & _ & H2 & _)|[(Hlt & ->)|(Hge & ->)]]].
  - cbn [sapp]. intros [= -> _]. done.
  - cbn [sapp]. intros [= -> _]. done.
  - destruct (unhex4_hex4 c Hlt) as (h1 & h2 & h3 & h4 & -> & Hu).
    cbn [sapp]. intros [= <- <- <- <- _]. by exists c.
  - destruct (surrogates_of c (conj Hge Hc)) as (Hhi & _ & _ & Hnl & _).
    destruct (unhex4_hex4 _ Hhi) as (h1 & h2 & h3 & h4 & -> & Hu).
    cbn [sapp]. intros [= <- <- <- <- _]. eexists. by split.
Qed.

Lemma scanstring_escape s rest :
  Json.stable s = true ->
  Json.scanstring (Json.escape s +:+ Json.quote +:+ rest) = Some (s, rest).
Proof.
  induction s as [|c s IH]; [reflexivity|].
  cbn [Json.stable]. intros [[Hc Hn]%andb_true_iff Hs]%andb_true_iff.
  apply N.ltb_lt in Hc. specialize (IH Hs).
  cbn [Json.escape]. rewrite sapp_assoc.
  destruct (escape_char_cases c Hc)
    as [(e & -> & He & Hu)|[(-> & H1 & H2 & H3)|[(Hlt & ->)|(Hge & ->)]]].
  - rewrite !sapp_cons, sapp_nil, (scanstring_special _ _ _ He Hu). by rewrite IH.
  - rewrite sapp_cons, sapp_nil, (scanstring_plain _ _ H1 H2 H3). by rewrite IH.
  - destruct (unhex4_hex4 c Hlt) as (h1 & h2 & h3 & h4 & -> & Hu).
    cbn [sapp]. rewrite (scanstring_u_alone _ _ _ _ _ _ Hu); [by rewrite IH|].
    intros Hh l1 l2 l3 l4 s4. apply escape_not_low.
    destruct s as [|c' s']; [reflexivity|]. rewrite Hh in Hn.
    cbn [Json.stable] in Hs.
    apply andb_true_iff in Hs as [[Hc' _]%andb_true_iff _].
    rewrite Hc'. exact Hn.
  - destruct (surrogates_of c (conj Hge Hc)) as (Hhi & Hlo & Hh & _ & Hl & Hj).
    destruct (unhex4_hex4 _ Hhi) as (h1 & h2 & h3 & h4 & -> & Hu).
    destruct (unhex4_hex4 _ Hlo) as (l1 & l2 & l3 & l4 & -> & Hu2).
    cbn [sapp]. rewrite (scanstring_u_pair _ _ _ _ _ _ _ _ _ _ _ Hu Hh Hu2 Hl).
    by rewrite IH, Hj.
Qed.

Lemma parse_str_dumps s rest :
  Json.stable s = true ->
  Json.parse_str (Json.dumps_str s +:+ rest) = Some (s, rest).
Proof.
  intros Hs. unfold Json.dumps_str. rewrite !sapp_assoc.
  change (Json.quote +:+ ?x) with (Chr 34 x).
  unfold Json.parse_str. rewrite decide_True by reflexivity.
  by apply scanstring_escape.
Qed.

Lemma dumps_str_cons s : exists x, Json.dumps_str s = Chr 34 x.
Proof. unfold Json.dumps_str. eexists. reflexivity. Qed.


Lemma skip_ws_stop c t : Json.is_ws c = false -> Json.skip_ws (Chr c t) = Chr c t.
Proof. intros H. cbn [Json.skip_ws]. by rewrite H. Qed.

Lemma skip_ws_nl_indent n y t :
  Json.skip_ws (Py.nl +:+ n +:+ Json.dumps_str y +:+ t) = Json.skip_ws (n +:+ Json.dumps_str y +:+ t).
Proof. reflexivity. Qed.

Lemma skip_ws_dumps_str y t : Json.skip_ws (Json.dumps_str y +:+ t) = Json.dumps_str y +:+ t.
Proof. destruct (dumps_str_cons y) as [z ->]. reflexivity. Qed.

Lemma skip_ws_indent4 y t :
  Json.skip_ws (Py.nl +:+ "    " +:+ Json.dumps_str y +:+ t) = Json.dumps_str y +:+ t.
Proof. rewrite <- (skip_ws_dumps_str y t). reflexivity. Qed.

Lemma skip_ws_indent2 y t :
  Json.skip_ws (Py.nl +:+ "  " +:+ Json.dumps_str y +:+ t) = Json.dumps_str y +:+ t.
Proof. rewrite <- (skip_ws_dumps_str y t). reflexivity. Qed.

Lemma join_cons2 sep x y l :
  Json.join sep (x :: y :: l) = x +:+ sep +:+ Json.join sep (y :: l).
Proof. reflexivity. Qed.

Lemma join_dumps_cons {A} sep (f : A -> pystr) y l t :
  (forall z, exists w, f z = Chr 34 w) ->
  exists w, Json.join sep (f <$> y :: l) +:+ t = Chr 34 w.
Proof.
  intros Hf. destruct l as [|y' l]; cbn [fmap list_fmap Json.join];
    destruct (Hf y) as [w ->]; eexists; reflexivity.
Qed.

Lemma parse_elems_join l x rest fuel :
  forallb Json.stable (x :: l) = true ->
  (length l < fuel)%nat ->
  Json.parse_elems fuel
    (Json.join elem_sep (Json.dumps_str <$> (x :: l)) +:+ Py.nl +:+ "  ]" +:+ rest)
  = Some (x :: l, rest).
Proof.
  revert x fuel. induction l as [|y l IH]; intros x fuel Hst Hf;
    cbn [forallb] in Hst; apply andb_true_iff in Hst as [Hx Hst].
  - destruct fuel as [|fuel]; [simpl in Hf; lia|].
    cbn [fmap list_fmap Json.join Json.parse_elems].
    rewrite parse_str_dumps by done. reflexivity.
  - destruct fuel as [|fuel]; [simpl in Hf; lia|].
    rewrite fmap_cons, fmap_cons, join_cons2, <- fmap_cons.
    cbn [Json.parse_elems]. rewrite !sapp_assoc, parse_str_dumps by done.
    unfold elem_sep at 1. rewrite !sapp_assoc.
    change ("," +:+ ?t) with (Chr (ord ",") t).
    rewrite skip_ws_stop by reflexivity.
    rewrite decide_True by reflexivity.
    destruct (join_dumps_cons elem_sep Json.dumps_str y l
                (Py.nl +:+ "  ]" +:+ rest) dumps_str_cons) as [w Hw].
    assert (Hskip : Json.skip_ws (Py.nl +:+ "    " +:+
              Json.join elem_sep (Json.dumps_str <$> y :: l) +:+ Py.nl +:+ "  ]" +:+ rest)
            = Json.join elem_sep (Json.dumps_str <$> y :: l) +:+ Py.nl +:+ "  ]" +:+ rest).
    { rewrite Hw. reflexivity. }
    rewrite Hskip, IH by (done || (simpl in *; lia)). reflexivity.
Qed.

Lemma slength_app s t :
  slen (s +:+ t) = (slen s + slen t)%nat.
Proof. induction s as [|a s IH]; [reflexivity|]. rewrite sapp_cons. simpl. by rewrite IH. Qed.

Lemma length_join_dumps sep l :
  (length l <= slen (Json.join sep (Json.dumps_str <$> l)))%nat.
Proof.
  induction l as [|x l IH]; [simpl; lia|].
  destruct l as [|y l].
  - cbn [fmap list_fmap Json.join]. destruct (dumps_str_cons x) as [w ->]. simpl. lia.
  - rewrite fmap_cons, fmap_cons, join_cons2, <- fmap_cons, !slength_app.
    destruct (dumps_str_cons x) as [w ->]. simpl in *. lia.
Qed.

Lemma parse_value_dumps v rest :
  Json.stable_value v = true ->
  Json.parse_value (Json.dumps_value v +:+ rest) = Some (v, rest).
Proof.
  destruct v as [s|[|x l]]; cbn [Json.stable_value]; intros Hst.
  - cbn [Json.dumps_value]. pose proof (parse_str_dumps s rest Hst) as H.
    destruct (dumps_str_cons s) as [w Hw]. rewrite Hw in *.
    rewrite sapp_cons in *. cbn [Json.parse_value].
    rewrite decide_False by discriminate. by rewrite H.
  - reflexivity.
  - cbn [Json.dumps_value]. rewrite !sapp_assoc.
    change ("[" +:+ ?t) with (Chr (ord "[") t).
    cbn [Json.parse_value]. rewrite decide_True by reflexivity.
    destruct (join_dumps_cons elem_sep Json.dumps_str x l
                (Py.nl +:+ "  ]" +:+ rest) dumps_str_cons) as [w Hw].
    fold elem_sep.
    assert (Hskip : Json.skip_ws (Py.nl +:+ "    " +:+
              Json.join elem_sep (Json.dumps_str <$> x :: l) +:+ Py.nl +:+ "  ]" +:+ rest)
            = Json.join elem_sep (Json.dumps_str <$> x :: l) +:+ Py.nl +:+ "  ]" +:+ rest).
    { rewrite Hw. reflexivity. }
    rewrite Hskip.
    assert (Hlen : (length l < slen
              (Json.join elem_sep (Json.dumps_str <$> x :: l) +:+ Py.nl +:+ "  ]" +:+ rest))%nat).
    { rewrite slength_app. pose proof (length_join_dumps elem_sep (x :: l)). simpl in *. lia. }
    pose proof (parse_elems_join l x rest _ Hst Hlen) as Hp.
    rewrite Hw in *. rewrite decide_False by discriminate.
    rewrite Hp. reflexivity.
Qed.

Lemma dumps_value_nonws v t :
  Json.skip_ws (Json.dumps_value v +:+ t) = Json.dumps_value v +:+ t.
Proof.
  destruct v as [s|[|x l]]; [|reflexivity..].
  cbn [Json.dumps_value]. apply skip_ws_dumps_str.
Qed.

Lemma dumps_item_cons kv : exists w, Json.dumps_item kv = Chr 34 w.
Proof.
  unfold Json.dumps_item. destruct (dumps_str_cons kv.1) as [w ->].
  eexists. reflexivity.
Qed.

Lemma length_join_items sep d :
  (length d <= slen (Json.join sep (Json.dumps_item <$> d)))%nat.
Proof.
  induction d as [|x l IH]; [simpl; lia|].
  destruct l as [|y l].
  - cbn [fmap list_fmap Json.join]. destruct (dumps_item_cons x) as [w ->]. simpl. lia.
  - rewrite fmap_cons, fmap_cons, join_cons2, <- fmap_cons, !slength_app.
    destruct (dumps_item_cons x) as [w ->]. simpl in *. lia.
Qed.

Lemma parse_members_join d kv rest fuel :
  Json.stable_dict (kv :: d) = true ->
  (length d < fuel)%nat ->
  Json.parse_members fuel
    (Json.join item_sep (Json.dumps_item <$> (kv :: d)) +:+ Py.nl +:+ "}" +:+ rest)
  = Some (kv :: d, rest).
Proof.
  unfold Json.stable_dict.
  revert kv fuel. induction d as [|kv' d IH]; intros [k v] fuel Hst Hf;
    cbn [forallb fst snd] in Hst;
    apply andb_true_iff in Hst as [[Hk Hv]%andb_true_iff Hst].
  - destruct fuel as [|fuel]; [simpl in Hf; lia|].
    cbn [fmap list_fmap Json.join Json.parse_members].
    unfold Json.dumps_item at 1. cbn [fst snd].
    rewrite !sapp_assoc, parse_str_dumps by done.
    change (": " +:+ ?t) with (Chr (ord ":") (Chr (ord " ") t)).
    rewrite skip_ws_stop by reflexivity. rewrite decide_True by reflexivity.
    change (Json.skip_ws (Chr (ord " ") ?t)) with (Json.skip_ws t).
    rewrite dumps_value_nonws, parse_value_dumps by done. reflexivity.
  - destruct fuel as [|fuel]; [simpl in Hf; lia|].
    rewrite fmap_cons, fmap_cons, join_cons2, <- fmap_cons.
    cbn [Json.parse_members].
    unfold Json.dumps_item at 1. cbn [fst snd].
    rewrite !sapp_assoc, parse_str_dumps by done.
    change (": " +:+ ?t) with (Chr (ord ":") (Chr (ord " ") t)).
    rewrite skip_ws_stop by reflexivity. rewrite decide_True by reflexivity.
    change (Json.skip_ws (Chr (ord " ") ?t)) with (Json.skip_ws t).
    rewrite dumps_value_nonws, parse_value_dumps by done.
    unfold item_sep at 1. rewrite !sapp_assoc.
    change ("," +:+ ?t) with (Chr (ord ",") t).
    rewrite skip_ws_stop by reflexivity.
    rewrite decide_True by reflexivity.
    destruct (join_dumps_cons item_sep Json.dumps_item kv' d
                (Py.nl +:+ "}" +:+ rest) dumps_item_cons) as [w Hw].
    assert (Hskip : Json.skip_ws (Py.nl +:+ "  " +:+
              Json.join item_sep (Json.dumps_item <$> kv' :: d) +:+ Py.nl +:+ "}" +:+ rest)
            = Json.join item_sep (Json.dumps_item <$> kv' :: d) +:+ Py.nl +:+ "}" +:+ rest).
    { rewrite Hw. reflexivity. }
    rewrite Hskip, IH by (done || (simpl in *; lia)). reflexivity.
Qed.

Lemma loads_dumps d :
  Json.stable_dict d = true -> Json.loads (Json.dumps d) = Ok d.
Proof.
  intros Hst. destruct d as [|kv d]; [reflexivity|].
  unfold Json.dumps. fold item_sep.
  change ("{" +:+ ?t) with (Chr (ord "{") t).
  unfold Json.loads. rewrite skip_ws_stop by reflexivity.
  rewrite decide_True by reflexivity.
  set (body := Json.join item_sep (Json.dumps_item <$> kv :: d) +:+ Py.nl +:+ "}").
  destruct (join_dumps_cons item_sep Json.dumps_item kv d
              (Py.nl +:+ "}") dumps_item_cons) as [w Hw].
  fold body in Hw.
  assert (Hskip : Json.skip_ws (Py.nl +:+ "  " +:+ body) = body).
  { rewrite Hw. reflexivity. }
  assert (Hp : Json.parse_members (slen body) body = Some (kv :: d, EmptyStr)).
  { apply (parse_members_join d kv EmptyStr _ Hst).
    unfold body. rewrite slength_app.
    pose proof (length_join_items item_sep (kv :: d)). simpl in *. lia. }
  rewrite Hskip. rewrite Hw in *. rewrite decide_False by discriminate.
  rewrite Hp. reflexivity.
Qed.

Lemma from_dict_asdict m : from_dict (asdict m) = Ok m.
Proof. destruct m. vm_compute. reflexivity. Qed.

Lemma stable_asdict m :
  stable_record m = true -> Json.stable_dict (asdict m) = true.
Proof.
  unfold stable_record. intros H.
  repeat (apply andb_true_iff in H as [H ?]).
  unfold Json.stable_dict, asdict. cbn [forallb fst snd Json.stable_value].
  repeat (apply andb_true_iff; split); done.
Qed.

(** A stable record is read back from the text written for it. *)
Lemma loads_dumps_record m :
  stable_record m = true ->
  rbind (Json.loads (Json.dumps (asdict m))) from_dict = Ok m.
Proof.
  intros H. rewrite loads_dumps by (by apply stable_asdict).
  cbn [rbind]. apply from_dict_asdict.
Qed.
Lemma put_lookup o name m : put o name m !! name = o.
Proof. destruct o; simpl; [apply lookup_insert_eq | apply lookup_delete_eq]. Qed.

Lemma lookup_node_app n p q :
  lookup_node n (p ++ q) =
  match lookup_node n p with
  | Some n' => lookup_node n' q
  | None => None
  end.
Proof.
  revert n. induction p as [|c p IH]; intros n; [reflexivity|].
  cbn [app lookup_node]. destruct n as [|d]; [reflexivity|].
  destruct (d !! c); [apply IH | reflexivity].
Qed.

Lemma update_at_child d c p name f m o :
  lookup_node (Dir d) (c :: p) = Some (Dir m) ->
  f (m !! name) = Ok o ->
  exists d', update_at d c (p ++ [name]) f = Ok d' /\
             lookup_node (Dir d') (c :: p) = Some (Dir (put o name m)).
Proof.
  revert d c. induction p as [|c' p IH]; intros d c Hl Hf.
  - cbn [lookup_node] in Hl. destruct (d !! c) as [n|] eqn:Hc; [|discriminate].
    simplify_eq. cbn [app update_at]. rewrite Hc.
    cbn [update_at]. rewrite Hf. cbn [rbind].
    eexists. split; [reflexivity|]. cbn [lookup_node].
    rewrite lookup_insert_eq. reflexivity.
  - cbn [lookup_node] in Hl. destruct (d !! c) as [[|d0]|] eqn:Hc; try discriminate.
    destruct (IH d0 c' Hl Hf) as (d0' & Hu & Hl').
    + change ((c' :: p) ++ [name]) with (c' :: (p ++ [name])).
      change (update_at d c (c' :: p ++ [name]) f) with
        (match d !! c with
         | Some (Dir d') =>
             rbind (update_at d' c' (p ++ [name]) f) (fun d'' => Ok (<[c := Dir d'']> d))
         | Some (File _) => Raise (OSError ENOTDIR)
         | None => Raise (OSError ENOENT)
         end).
      rewrite Hc, Hu. cbn [rbind]. eexists. split; [reflexivity|].
      cbn [lookup_node]. rewrite lookup_insert_eq. exact Hl'.
Qed.

Lemma update_path_child d dir name f m o :
  lookup_path d dir = Some (Dir m) ->
  f (m !! name) = Ok o ->
  exists d', update_path d (dir ++ [name]) f = Ok d' /\
             lookup_path d' dir = Some (Dir (put o name m)).
Proof.
  unfold lookup_path. destruct dir as [|c p]; intros Hl Hf.
  - cbn [lookup_node] in Hl. simplify_eq. cbn [app update_path update_at].
    rewrite Hf. cbn [rbind]. eexists. split; reflexivity.
  - apply update_at_child; assumption.
Qed.

Lemma lookup_path_child d dir name m :
  lookup_path d dir = Some (Dir m) ->
  lookup_path d (dir ++ [name]) = m !! name.
Proof.
  unfold lookup_path. intros H. rewrite lookup_node_app, H. cbn [lookup_node].
  destruct (m !! name); reflexivity.
Qed.

Lemma write_file_child d dir name data m :
  lookup_path d dir = Some (Dir m) ->
  (forall m', m !! name <> Some (Dir m')) ->
  exists d', write_file (dir ++ [name]) data d = Ok d' /\
             lookup_path d' dir = Some (Dir (<[name := File data]> m)).
Proof.
  intros Hl Hn. unfold write_file.
  apply (update_path_child d dir name _ m (Some (File data)) Hl).
  destruct (m !! name) as [[|m']|]; try reflexivity. by destruct (Hn m').
Qed.

Lemma read_file_child d dir name data m :
  lookup_path d dir = Some (Dir m) ->
  m !! name = Some (File data) ->
  read_file (dir ++ [name]) d = Ok data.
Proof.
  intros Hl Hn. unfold read_file. by rewrite (lookup_path_child _ _ _ _ Hl), Hn.
Qed.

(** Saving then loading *)
Lemma save_metadata_child st dir m md :
  lookup_path (disk st) dir = Some (Dir m) ->
  (forall m', m !! "metadata.json" <> Some (Dir m')) ->
  exists d',
    _save_metadata (Some dir) md st = (Ok tt, with_disk d' st) /\
    lookup_path d' dir =
      Some (Dir (<["metadata.json" := File (Json.dumps (asdict md))]> m)).
Proof.
  intros Hl Hn.
  destruct (write_file_child _ _ _ (Json.dumps (asdict md)) _ Hl Hn) as (d' & Hw & Hl').
  exists d'. split; [|exact Hl'].
  unfold _save_metadata, on_disk. by rewrite Hw.
Qed.

Lemma load_metadata_child st dir m md :
  stable_record md = true ->
  lookup_path (disk st) dir = Some (Dir m) ->
  m !! "metadata.json" = Some (File (Json.dumps (asdict md))) ->
  _load_metadata (Some dir) st = (Ok (Some md), st).
Proof.
  intros Hst Hl Hn. unfold _load_metadata, bind, get, lift, ret, path_exists.
  rewrite (lookup_path_child _ _ _ _ Hl), Hn.
  rewrite (read_file_child _ _ _ _ _ Hl Hn).
  by rewrite loads_dumps, from_dict_asdict by (by apply stable_asdict).
Qed.

Lemma load_metadata_absent st dir m :
  lookup_path (disk st) dir = Some (Dir m) ->
  m !! "metadata.json" = None ->
  _load_metadata (Some dir) st = (Ok None, st).
Proof.
  intros Hl Hn. unfold _load_metadata, bind, get, lift, ret, path_exists.
  by rewrite (lookup_path_child _ _ _ _ Hl), Hn.
Qed.

(** ** The rules of [wp] *)

Lemma wp_ret {A} (a : A) Q st : Q (Ok a) st -> wp (ret a) Q st.
Proof. intros H. exact H. Qed.

Lemma wp_raise {A} e (Q : result A -> state -> Prop) st :
  Q (Raise e) st -> wp (raise e) Q st.
Proof. intros H. exact H. Qed.

Lemma wp_get Q st : Q (Ok st) st -> wp get Q st.
Proof. intros H. exact H. Qed.

Lemma wp_modify f Q st : Q (Ok tt) (f st) -> wp (modify f) Q st.
Proof. intros H. exact H. Qed.

Lemma wp_lift {A} (r : result A) Q st : Q r st -> wp (lift r) Q st.
Proof. intros H. exact H. Qed.

Lemma wp_bind {A B} (m : M A) (k : A -> M B) (Q : result B -> state -> Prop) st :
  wp m (fun r s => match r with
                   | Ok a => wp (k a) Q s
                   | Raise e => Q (Raise e) s
                   end) st ->
  wp (bind m k) Q st.
Proof.
  unfold wp, bind. destruct (m st) as [[a|e] s]; cbn [fst snd]; intros H; exact H.
Qed.

Lemma wp_try_except {A} (m h : M A) (catches : exn -> bool) (Q : result A -> state -> Prop) st :
  wp m (fun r s => match r with
                   | Ok a => Q (Ok a) s
                   | Raise e => if catches e then wp h Q s else Q (Raise e) s
                   end) st ->
  wp (try_except m catches h) Q st.
Proof.
  unfold wp, try_except. destruct (m st) as [[a|e] s]; cbn [fst snd]; [intros H; exact H|].
  destruct (catches e); intros H; exact H.
Qed.

Lemma wp_mono {A} (m : M A) (Q Q' : result A -> state -> Prop) st :
  wp m Q st -> (forall r s, Q r s -> Q' r s) -> wp m Q' st.
Proof. unfold wp. auto. Qed.

Lemma wp_eq {A} (m : M A) Q st r s : m st = (r, s) -> Q r s -> wp m Q st.
Proof. unfold wp. by intros ->. Qed.

Lemma wp_run {A} (m : M A) Q st : wp m Q st -> exists r s, m st = (r, s) /\ Q r s.
Proof. unfold wp. intros H. exists (m st).1, (m st).2. by destruct (m st). Qed.

(** ** What [keeps] and [quiet] give *)

Lemma keeps_refl st : keeps st st.
Proof. by repeat split. Qed.

Lemma keeps_trans st1 st2 st3 : keeps st1 st2 -> keeps st2 st3 -> keeps st1 st3.
Proof.
  intros (?&?&?&?&?&?&?) (?&?&?&?&?&?&?).
  repeat (split; [congruence|]). by etrans.
Qed.

Lemma keeps_with_disk d st : keeps st (with_disk d st).
Proof. by repeat split. Qed.

Lemma keeps_with_log l st : keeps st (with_log (log st ++ l) st).
Proof. repeat (split; [reflexivity|]). by apply prefix_app_r. Qed.

Lemma keeps_log st s ev : keeps st s -> ev ∈ log st -> ev ∈ log s.
Proof.
  intros (_&_&_&_&_&_&[l ->]) H. apply elem_of_app. by left.
Qed.

Lemma keeps_registry_inv st s : keeps st s -> registry_inv st -> registry_inv s.
Proof. intros (Hp & Hq & _). unfold registry_inv. by rewrite Hp, Hq. Qed.

Lemma quiet_wp {A} E (m : M A) (Q : result A -> state -> Prop) st :
  quiet E m ->
  (forall r s, keeps st s -> (forall e, r = Raise e -> E e) -> Q r s) ->
  wp m Q st.
Proof. intros Hm HQ. eapply wp_mono; [apply Hm|]. intros r s [? ?]. auto. Qed.

Lemma quiet_run_eq {A} E (m : M A) st :
  quiet E m -> keeps st (m st).2 /\ forall e, (m st).1 = Raise e -> E e.
Proof. intros Hm. exact (Hm st). Qed.

Section Quiet.
Context (E : exn -> Prop).

Lemma quiet_ret {A} (a : A) : quiet E (ret a).
Proof. intros st. split; [apply keeps_refl | discriminate]. Qed.

Lemma quiet_raise {A} e : E e -> quiet E (@raise A e).
Proof. intros He st. split; [apply keeps_refl|]. by intros ? [= <-]. Qed.

Lemma quiet_get : quiet E get.
Proof. intros st. split; [apply keeps_refl | discriminate]. Qed.

Lemma quiet_lift {A} (r : result A) :
  (forall e, r = Raise e -> E e) -> quiet E (lift r).
Proof. intros Hr st. split; [apply keeps_refl | exact Hr]. Qed.

Lemma quiet_bind {A B} (m : M A) (k : A -> M B) :
  quiet E m -> (forall a, quiet E (k a)) -> quiet E (bind m k).
Proof.
  intros Hm Hk st. apply wp_bind. eapply quiet_wp; [exact Hm|].
  intros [a|e] s Hs He.
  - eapply quiet_wp; [apply Hk|]. intros r s' Hs' He'.
    split; [by eapply keeps_trans | exact He'].
  - split; [exact Hs|]. intros ? [= <-]. by apply He.
Qed.

Lemma quiet_try_except {A} E' (m h : M A) catches :
  quiet E' m -> (forall e, E' e -> catches e = false -> E e) -> quiet E h ->
  quiet E (try_except m catches h).
Proof.
  intros Hm Hc Hh st. apply wp_try_except. eapply quiet_wp; [exact Hm|].
  intros [a|e] s Hs He.
  - split; [exact Hs | discriminate].
  - destruct (catches e) eqn:Hce.
    + eapply quiet_wp; [exact Hh|]. intros r s' Hs' He'.
      split; [by eapply keeps_trans | exact He'].
    + split; [exact Hs|]. intros ? [= <-]. apply Hc; auto.
Qed.

Lemma quiet_on_disk f :
  (forall d e, f d = Raise e -> E e) -> quiet E (on_disk f).
Proof.
  intros Hf st. unfold wp, on_disk. destruct (f (disk st)) eqn:H; cbn [fst snd].
  - split; [apply keeps_with_disk | discriminate].
  - split; [apply keeps_refl|]. intros ? [= <-]. eauto.
Qed.

Lemma quiet_log (l : list event) :
  quiet E (modify (fun st => with_log (log st ++ l) st)).
Proof. intros st. split; [apply keeps_with_log | discriminate]. Qed.

Lemma quiet_run argv reply :
  (forall x, tool_error x -> E x) -> quiet E (run argv reply).
Proof.
  intros He. apply quiet_bind; [apply (quiet_log [Run argv])|].
  intros _. destruct reply; [apply quiet_ret | apply quiet_raise..];
    by apply He.
Qed.

Lemma quiet_run_timeout argv reply :
  (forall x, tool_error x -> E x) -> E TimeoutExpired ->
  quiet E (run_timeout argv reply).
Proof.
  intros He Ht. apply quiet_bind; [apply (quiet_log [Run argv])|].
  intros _. destruct reply; [apply quiet_ret | apply quiet_raise..];
    [by apply He | exact Ht].
Qed.

Lemma quiet_if {A} (b : bool) (m1 m2 : M A) :
  quiet E m1 -> quiet E m2 -> quiet E (if b then m1 else m2).
Proof. by destruct b. Qed.

Lemma quiet_get_serial id : quiet E (get_serial id).
Proof.
  apply quiet_bind; [apply quiet_get|]. intros st.
  destruct (_ports st !! id); apply quiet_ret.
Qed.

Lemma quiet_get_session id : quiet E (get_session id).
Proof.
  apply quiet_bind; [apply quiet_get|]. intros st.
  apply quiet_if; apply quiet_ret.
Qed.
End Quiet.

Lemma quiet_weaken {A} (E E' : exn -> Prop) (m : M A) :
  (forall e, E e -> E' e) -> quiet E m -> quiet E' m.
Proof. intros H Hm st. destruct (Hm st) as [? ?]. split; auto. Qed.

Lemma tool_error_io x : tool_error x -> io_error x.
Proof. by destruct x. Qed.

(** ** The exceptions of the disk operations *)

Lemma update_at_io d c p f e :
  (forall o e, f o = Raise e -> io_error e) ->
  update_at d c p f = Raise e -> io_error e.
Proof.
  intros Hf. revert d c. induction p as [|c' p IH]; intros d c.
  - cbn [update_at]. destruct (f (d !! c)) eqn:H; [discriminate|].
    cbn. intros [= <-]. eauto.
  - change (update_at d c (c' :: p) f) with
      (match d !! c with
       | Some (Dir d') =>
           rbind (update_at d' c' p f) (fun d'' => Ok (<[c := Dir d'']> d))
       | Some (File _) => Raise (OSError ENOTDIR)
       | None => Raise (OSError ENOENT)
       end).
    destruct (d !! c) as [[|d0]|]; try (intros [= <-]; exact I).
    destruct (update_at d0 c' p f) eqn:H; [discriminate|].
    cbn. intros [= <-]. eauto.
Qed.

Lemma update_path_io d p f e :
  (forall o e, f o = Raise e -> io_error e) ->
  update_path d p f = Raise e -> io_error e.
Proof.
  intros Hf. destruct p as [|c p]; [|by apply update_at_io].
  cbn [update_path]. destruct (f (Some (Dir d))) as [[[|]|]|] eqn:H; cbn;
    try discriminate; intros [= <-]; eauto; exact I.
Qed.

Lemma write_file_io p data d e : write_file p data d = Raise e -> io_error e.
Proof.
  apply update_path_io. intros [[|]|] e'; try discriminate. by intros [= <-].
Qed.

Lemma mkdir_io p d e : mkdir p d = Raise e -> io_error e.
Proof.
  apply update_path_io. intros [|] e'; try discriminate. by intros [= <-].
Qed.

Lemma rmtree_io p d e : rmtree p d = Raise e -> io_error e.
Proof.
  apply update_path_io. intros [[|]|] e'; try discriminate; by intros [= <-].
Qed.

Lemma mkdir_at_io d c p e : mkdir_at d c p = Raise e -> io_error e.
Proof.
  revert d c. induction p as [|c' p IH]; intros d c.
  - cbn [mkdir_at]. destruct (d !! c); [|discriminate]. by intros [= <-].
  - change (mkdir_at d c (c' :: p)) with
      (match d !! c with
       | Some (Dir d') =>
           rbind (mkdir_at d' c' p) (fun d'' => Ok (<[c := Dir d'']> d))
       | Some (File _) => Raise (OSError ENOTDIR)
       | None =>
           rbind (mkdir_at ∅ c' p) (fun d'' => Ok (<[c := Dir d'']> d))
       end).
    destruct (d !! c) as [[|d0]|]; try (intros [= <-]; exact I).
    + destruct (mkdir_at d0 c' p) eqn:H; [discriminate|]. cbn. intros [= <-]. eauto.
    + destruct (mkdir_at ∅ c' p) eqn:H; [discriminate|]. cbn. intros [= <-]. eauto.
Qed.

Lemma mkdir_parents_io p d e : mkdir_parents p d = Raise e -> io_error e.
Proof.
  destruct p as [|c p]; [by intros [= <-]|]. apply mkdir_at_io.
Qed.

Lemma read_file_io p d e : read_file p d = Raise e -> io_error e.
Proof.
  unfold read_file. destruct (lookup_path d p) as [[|]|]; try discriminate;
    by intros [= <-].
Qed.

Lemma copy_io src dst d e : copy src dst d = Raise e -> io_error e.
Proof.
  unfold copy. destruct (read_file src d) eqn:H; cbn.
  - destruct (is_dir d dst); apply write_file_io.
  - intros [= <-]. by eapply read_file_io.
Qed.

Lemma loads_io s e : Json.loads s = Raise e -> io_error e.
Proof.
  unfold Json.loads. repeat case_match; try discriminate; by intros [= <-].
Qed.

Lemma rbind_io {A B} (r : result A) (k : A -> result B) e :
  (forall e, r = Raise e -> io_error e) ->
  (forall a e, k a = Raise e -> io_error e) ->
  rbind r k = Raise e -> io_error e.
Proof. destruct r; cbn; eauto. intros H _ [= <-]. eauto. Qed.

Lemma kw_str_io d k e : kw_str d k = Raise e -> io_error e.
Proof. unfold kw_str. destruct (d !! k) as [[|]|]; try discriminate; by intros [= <-]. Qed.

Lemma kw_str_default_io d k dflt e : kw_str_default d k dflt = Raise e -> io_error e.
Proof.
  unfold kw_str_default. destruct (d !! k) as [[|]|]; try discriminate; by intros [= <-].
Qed.

Lemma kw_list_default_io d k e : kw_list_default d k = Raise e -> io_error e.
Proof.
  unfold kw_list_default. destruct (d !! k) as [[|]|]; try discriminate; by intros [= <-].
Qed.

Lemma from_dict_io data e : from_dict data = Raise e -> io_error e.
Proof.
  unfold from_dict. destruct (forallb _ _); [|by intros [= <-]].
  revert e.
  repeat (intros ?; apply rbind_io;
          [intros ?; first [apply kw_str_io | apply kw_list_default_io
                            | apply kw_str_default_io]
          |intros ?]).
  intros ? H. discriminate H.
Qed.

(** ** Operations that leave the registries alone *)

Lemma quiet_save_metadata dir md : quiet io_error (_save_metadata dir md).
Proof.
  destruct dir as [dir|]; [|by apply quiet_raise].
  apply quiet_on_disk. intros d e. apply write_file_io.
Qed.

Lemma quiet_load_metadata dir : quiet io_error (_load_metadata dir).
Proof.
  destruct dir as [dir|]; [|by apply quiet_raise].
  apply quiet_bind; [apply quiet_get|]. intros st.
  apply quiet_if; [|apply quiet_ret].
  apply quiet_bind; [apply quiet_lift, read_file_io|]. intros text.
  apply quiet_bind; [apply quiet_lift, loads_io|]. intros data.
  apply quiet_bind; [apply quiet_lift, from_dict_io|]. intros md.
  apply quiet_ret.
Qed.

Lemma quiet_create_session id config tmpl e :
  quiet (create_error id) (create_session id config tmpl e).
Proof.
  apply quiet_bind; [apply quiet_get|]. intros st.
  apply quiet_if; [apply quiet_raise; by right|].
  apply (quiet_weaken io_error); [by left|].
  apply quiet_bind; [apply quiet_on_disk; intros d x; apply mkdir_parents_io|].
  intros _.
  apply quiet_bind; [apply quiet_on_disk; intros d x; apply mkdir_io|].
  intros _.
  apply quiet_bind; [apply quiet_save_metadata|]. intros _.
  apply quiet_bind; [|intros _; apply quiet_ret].
  destruct tmpl as [[|c t]|]; try apply quiet_ret.
  apply quiet_bind; [apply quiet_get|]. intros st'.
  apply quiet_if; [|apply quiet_ret].
  apply quiet_on_disk. intros d x. apply copy_io.
Qed.

(** ** Stopping *)

Lemma stop_unregistered st id e :
  _processes st !! id = None -> stop id e st = (Ok false, st).
Proof.
  intros H. unfold stop. munfold.
  rewrite decide_True; [reflexivity|]. by apply not_elem_of_dom.
Qed.

Lemma stop_registered st id e p port :
  _processes st !! id = Some p ->
  _ports st !! id = Some port ->
  (forall errno, kill_reply e <> Unstarted errno) ->
  exists st', stop id e st = (Ok true, st') /\
    _processes st' = delete id (_processes st) /\
    _ports st' = delete id (_ports st) /\
    disk st' = disk st /\
    next_pid st' = next_pid st /\
    exited st' = {[p]} ∪ exited st /\
    data_dir st' = data_dir st /\ sdk_path st' = sdk_path st /\
    exists l, log st' = log st ++ kill_request st port :: l.
Proof.
  intros Hp Hport Hk. unfold stop, kill_request. munfold.
  rewrite decide_False; [|intros Hn; apply Hn, elem_of_dom; eauto].
  rewrite Hp, Hport. unfold delitem.
  destruct (kill_reply e) as [r|errno|]; [|by destruct (Hk errno)|]; cbn;
    (destruct (decide (p ∈ exited st)) as [Hin|Hin];
     [|destruct (exits_in_time e)]); cbn; rewrite ?Hp, ?Hport; cbn;
    (eexists; split; [reflexivity|]); cbn;
    repeat (split; [first [reflexivity
                          | by symmetry; apply subseteq_union_1_L, singleton_subseteq_l]|]);
    eexists; rewrite <- ?(assoc_L (++)); reflexivity.
Qed.

(** When [adb] cannot be started the error leaves [stop] before anything
    is done to the process or to the registries. *)
Lemma stop_unstarted st id e p port errno :
  _processes st !! id = Some p ->
  _ports st !! id = Some port ->
  kill_reply e = Unstarted errno ->
  stop id e st =
  (Raise (OSError errno), with_log (log st ++ [kill_request st port]) st).
Proof.
  intros Hp Hport Hk. unfold stop, kill_request. munfold.
  rewrite decide_False; [|intros Hn; apply Hn, elem_of_dom; eauto].
  by rewrite Hp, Hport, Hk.
Qed.

(** In a state that satisfies the invariant [stop] ends in one of three
    ways. *)
Lemma stop_cases st id e :
  registry_inv st ->
  (_processes st !! id = None /\ stop id e st = (Ok false, st)) \/
  (exists p port errno,
     _processes st !! id = Some p /\ _ports st !! id = Some port /\
     kill_reply e = Unstarted errno /\
     stop id e st =
     (Raise (OSError errno), with_log (log st ++ [kill_request st port]) st)) \/
  (exists p port st',
     _processes st !! id = Some p /\ _ports st !! id = Some port /\
     (forall errno, kill_reply e <> Unstarted errno) /\
     stop id e st = (Ok true, st') /\
     _processes st' = delete id (_processes st) /\
     _ports st' = delete id (_ports st) /\
     disk st' = disk st /\ next_pid st' = next_pid st /\
     exited st' = {[p]} ∪ exited st /\
     data_dir st' = data_dir st /\ sdk_path st' = sdk_path st /\
     exists l, log st' = log st ++ kill_request st port :: l).
Proof.
  intros Hinv. destruct (_processes st !! id) as [p|] eqn:Hp.
  - right. assert (Hd : id ∈ dom (_ports st)).
    { apply Hinv, elem_of_dom. eauto. }
    apply elem_of_dom in Hd as [port Hport].
    destruct (kill_reply e) as [r|errno|] eqn:Hk.
    + right. destruct (stop_registered st id e p port Hp Hport) as (st' & H).
      { intros ?. rewrite Hk. discriminate. }
      exists p, port, st'. repeat (split; [done|]). tauto.
    + left. exists p, port, errno. repeat (split; [done|]).
      by eapply stop_unstarted.
    + right. destruct (stop_registered st id e p port Hp Hport) as (st' & H).
      { intros ?. rewrite Hk. discriminate. }
      exists p, port, st'. repeat (split; [done|]). tauto.
  - left. split; [reflexivity|]. by apply stop_unregistered.
Qed.

Lemma stop_registry_inv st id e :
  registry_inv st -> registry_inv (stop id e st).2.
Proof.
  intros Hinv.
  destruct (stop_cases st id e Hinv) as [[_ ->]|[H|H]]; [exact Hinv| |].
  - destruct H as (p & port & errno & _ & _ & _ & ->). exact Hinv.
  - destruct H as (p & port & st' & _ & _ & _ & -> & Hp & Hq & _). cbn [snd].
    unfold registry_inv in *. rewrite Hp, Hq, !dom_delete.
    intros x [Hx Hne]%elem_of_difference. apply elem_of_difference.
    split; [by apply Hinv | exact Hne].
Qed.

(** [stop] raises only when [adb] cannot be started, and has then changed
    nothing but the log. *)
Lemma stop_raise st id e x :
  registry_inv st ->
  (stop id e st).1 = Raise x ->
  exists errno, kill_reply e = Unstarted errno /\ x = OSError errno /\
                keeps st (stop id e st).2 /\ disk (stop id e st).2 = disk st.
Proof.
  intros Hinv.
  destruct (stop_cases st id e Hinv) as [[_ ->]|[H|H]]; [discriminate| |].
  - destruct H as (p & port & errno & _ & _ & Hk & ->). intros [= <-].
    exists errno. repeat (split; [done|]). split; [apply keeps_with_log | done].
  - destruct H as (p & port & st' & _ & _ & _ & -> & _). discriminate.
Qed.

(** ** Provisioning, the allocator and the boot watcher *)

Lemma quiet_ensure_system_image img e : quiet tool_error (ensure_system_image img e).
Proof.
  apply quiet_bind; [apply quiet_get|]. intros st.
  apply quiet_bind; [by apply quiet_run|]. intros r.
  apply quiet_if; [apply quiet_ret|].
  apply quiet_bind; [by apply quiet_run|]. intros r'. apply quiet_ret.
Qed.

Lemma quiet_create_base_avd config e :
  quiet provisioning_error (create_base_avd config e).
Proof.
  apply quiet_bind.
  { apply (quiet_weaken tool_error); [by left | apply quiet_ensure_system_image]. }
  intros ok. apply quiet_if.
  { apply quiet_raise. right.
    by exists ("install system image: " +:+ EmulatorConfig.system_image config). }
  apply quiet_bind; [apply quiet_get|]. intros st.
  apply quiet_bind; [apply quiet_run; by left|]. intros r.
  apply quiet_if; [apply quiet_ret|].
  apply quiet_bind; [apply quiet_run; by left|]. intros r'.
  destruct (decide (returncode r' ≠ 0)); [|apply quiet_ret].
  apply quiet_raise. right. by exists ("create AVD: " +:+ stderr r').
Qed.

Lemma quiet_find_available_port free :
  quiet (fun e => e = no_ports) (_find_available_port free).
Proof.
  intros st. unfold wp. rewrite find_available_port_raises. cbn [fst snd].
  split; [apply keeps_refl|]. by intros ? [= <-].
Qed.

Lemma device_listed_raise serial out x :
  device_listed serial out = Raise x ->
  serial = EmptyStr /\ x = ValueError "empty separator".
Proof.
  unfold device_listed. destruct (Py.contains serial out); [|discriminate].
  destruct serial; cbn; [by intros [= <-] | discriminate].
Qed.

Lemma quiet_wait_device e serial timeout fuel i elapsed :
  quiet (boot_error serial) (wait_device e serial timeout fuel i elapsed).
Proof.
  revert i elapsed. induction fuel as [|fuel IH]; intros i elapsed;
    cbn [wait_device]; destruct (elapsed <? timeout); try apply quiet_ret.
  apply quiet_bind; [apply quiet_get|]. intros st.
  apply quiet_bind; [apply quiet_run; by left|]. intros r.
  apply quiet_bind.
  { apply quiet_lift. intros x Hx. right. by eapply device_listed_raise. }
  intros listed. apply quiet_if; [apply quiet_ret | apply IH].
Qed.

Lemma quiet_wait_completed E e serial timeout fuel i elapsed :
  (forall x, tool_error x -> E x) ->
  quiet E (wait_completed e serial timeout fuel i elapsed).
Proof.
  intros He. revert i elapsed. induction fuel as [|fuel IH]; intros i elapsed;
    cbn [wait_completed]; destruct (elapsed <? timeout); try apply quiet_ret.
  apply quiet_bind; [apply quiet_get|]. intros st.
  apply quiet_bind; [by apply quiet_run|]. intros r.
  destruct (decide (Py.strip (stdout r) = "1")); [apply quiet_ret | apply IH].
Qed.

Lemma quiet_wait_for_boot serial timeout e :
  quiet (boot_error serial) (_wait_for_boot serial timeout e).
Proof.
  apply quiet_bind; [apply quiet_wait_device|]. intros [elapsed|].
  - apply quiet_wait_completed. by left.
  - apply quiet_ret.
Qed.

(** ** Snapshots, packages and listings *)

(** The metadata update shared by [save_snapshot], [delete_snapshot] and
    [install_apk]. *)
Lemma quiet_reconcile id (upd : SessionMetadata.t -> M unit) :
  (forall m, quiet io_error (upd m)) ->
  quiet io_error
    (session_dir <- get_session id;;
     metadata <- _load_metadata session_dir;;
     match metadata with
     | Some m => upd m
     | None => ret tt
     end).
Proof.
  intros Hupd.
  apply quiet_bind; [apply quiet_get_session|]. intros dir.
  apply quiet_bind; [apply quiet_load_metadata|]. intros [m|];
    [apply Hupd | apply quiet_ret].
Qed.

Lemma quiet_save_snapshot id n reply :
  quiet (snapshot_error id) (save_snapshot id n reply).
Proof.
  apply quiet_bind; [apply quiet_get_serial|]. intros serial.
  apply quiet_if; [apply quiet_raise; by right|].
  apply (quiet_weaken io_error); [by left|].
  apply quiet_bind; [apply quiet_get|]. intros st.
  apply quiet_bind; [apply quiet_run, tool_error_io|]. intros r.
  destruct (decide (returncode r = 0)); [|apply quiet_ret].
  apply quiet_bind; [apply quiet_get_session|]. intros dir.
  apply quiet_bind; [apply quiet_load_metadata|]. intros metadata.
  apply quiet_bind; [|intros _; apply quiet_ret].
  destruct metadata as [m|]; [|apply quiet_ret].
  destruct (decide (n ∉ SessionMetadata.snapshots m));
    [apply quiet_save_metadata | apply quiet_ret].
Qed.

Lemma quiet_delete_snapshot id n reply :
  quiet (snapshot_error id) (delete_snapshot id n reply).
Proof.
  apply quiet_bind; [apply quiet_get_serial|]. intros serial.
  apply quiet_if; [apply quiet_raise; by right|].
  apply (quiet_weaken io_error); [by left|].
  apply quiet_bind; [apply quiet_get|]. intros st.
  apply quiet_bind; [apply quiet_run, tool_error_io|]. intros r.
  destruct (decide (returncode r = 0)); [|apply quiet_ret].
  apply quiet_bind; [apply quiet_get_session|]. intros dir.
  apply quiet_bind; [apply quiet_load_metadata|]. intros metadata.
  apply quiet_bind; [|intros _; apply quiet_ret].
  destruct metadata as [m|]; [|apply quiet_ret].
  destruct (decide (n ∈ SessionMetadata.snapshots m));
    [apply quiet_save_metadata | apply quiet_ret].
Qed.

Lemma quiet_load_snapshot id n reply :
  quiet (adb_error id) (load_snapshot id n reply).
Proof.
  apply quiet_bind; [apply quiet_get_serial|]. intros serial.
  apply quiet_if; [apply quiet_raise; by right|].
  apply quiet_bind; [apply quiet_get|]. intros st.
  apply quiet_bind; [apply quiet_run; by left|]. intros r.
  destruct (decide (returncode r = 0)); apply quiet_ret.
Qed.

Lemma quiet_list_snapshots id reply : quiet io_error (list_snapshots id reply).
Proof.
  apply quiet_bind; [apply quiet_get_serial|]. intros serial.
  apply quiet_if.
  - apply quiet_bind; [apply quiet_get_session|]. intros [dir|]; [|apply quiet_ret].
    apply quiet_bind; [apply quiet_load_metadata|]. intros [m|]; apply quiet_ret.
  - apply quiet_bind; [apply quiet_get|]. intros st.
    apply quiet_bind; [apply quiet_run, tool_error_io|]. intros r. apply quiet_ret.
Qed.

Lemma quiet_install_apk id apk e :
  quiet (adb_error id) (install_apk id apk e).
Proof.
  apply quiet_bind; [apply quiet_get_serial|]. intros serial.
  apply quiet_if; [apply quiet_raise; by right|].
  apply quiet_bind; [apply quiet_get|]. intros st.
  apply quiet_bind; [apply quiet_run; by left|]. intros r.
  destruct (decide (returncode r = 0)); [|apply quiet_ret].
  apply quiet_bind; [|intros _; apply quiet_ret].
  apply (quiet_try_except _ (fun _ => True)); [|discriminate|apply quiet_ret].
  apply quiet_bind; [by apply quiet_run|]. intros aapt.
  destruct (find _ _) as [line|]; [|apply quiet_ret].
  apply quiet_bind; [by apply quiet_lift|]. intros parts.
  apply quiet_bind; [by apply quiet_lift|]. intros rest.
  apply quiet_bind; [by apply quiet_lift|]. intros parts'.
  apply quiet_bind; [by apply quiet_lift|]. intros package.
  apply (quiet_weaken io_error); [done|].
  apply quiet_bind; [apply quiet_get_session|]. intros dir.
  apply quiet_bind; [apply quiet_load_metadata|]. intros [m|]; [|apply quiet_ret].
  destruct (decide (package ∉ SessionMetadata.installed_packages m));
    [apply quiet_save_metadata | apply quiet_ret].
Qed.

Lemma quiet_list_installed_packages id reply :
  quiet (adb_error id) (list_installed_packages id reply).
Proof.
  apply quiet_bind; [apply quiet_get_serial|]. intros serial.
  apply quiet_if; [apply quiet_raise; by right|].
  apply quiet_bind; [apply quiet_get|]. intros st.
  apply quiet_bind; [apply quiet_run; by left|]. intros r. apply quiet_ret.
Qed.

Lemma quiet_list_avds reply : quiet tool_error (list_avds reply).
Proof.
  apply quiet_bind; [apply quiet_get|]. intros st.
  apply quiet_bind; [by apply quiet_run|]. intros r. apply quiet_ret.
Qed.

Lemma quiet_delete_avd name reply : quiet tool_error (delete_avd name reply).
Proof.
  apply quiet_bind; [apply quiet_get|]. intros st.
  apply quiet_bind; [by apply quiet_run|]. intros r. apply quiet_ret.
Qed.

Lemma quiet_list_sessions_from entries acc :
  quiet io_error (list_sessions_from entries acc).
Proof.
  revert acc. induction entries as [|name rest IH]; intros acc;
    cbn [list_sessions_from]; [apply quiet_ret|].
  apply quiet_bind; [apply quiet_get|]. intros st.
  apply quiet_if; [|apply IH].
  apply quiet_bind; [apply quiet_load_metadata|]. intros [m|]; apply IH.
Qed.

Lemma iterdir_io p d e : iterdir p d = Raise e -> io_error e.
Proof.
  unfold iterdir. destruct (lookup_path d p) as [[|]|]; try discriminate;
    by intros [= <-].
Qed.

Lemma quiet_list_sessions : quiet io_error list_sessions.
Proof.
  apply quiet_bind; [apply quiet_get|]. intros st.
  apply quiet_bind; [apply quiet_lift, iterdir_io|]. intros entries.
  apply quiet_list_sessions_from.
Qed.

(** ** Starting *)

Lemma io_error_not_boot_timeout e timeout : io_error e -> e <> boot_timeout timeout.
Proof. destruct e; cbn; try done. Qed.

Lemma create_error_not_boot_timeout id e timeout :
  create_error id e -> e <> boot_timeout timeout.
Proof. intros [H| ->]; [by apply io_error_not_boot_timeout | discriminate]. Qed.

Lemma tool_error_not_boot_timeout e timeout : tool_error e -> e <> boot_timeout timeout.
Proof. destruct e; cbn; try done. Qed.

Lemma provisioning_error_not_boot_timeout e timeout :
  provisioning_error e -> e <> boot_timeout timeout.
Proof.
  intros [H|[msg ->]]; [by apply tool_error_not_boot_timeout|].
  unfold boot_timeout. intros H. discriminate H.
Qed.

Lemma no_ports_not_boot_timeout timeout : no_ports <> boot_timeout timeout.
Proof. unfold boot_timeout, no_ports. intros H. discriminate H. Qed.

(** A session that has a process: [start] answers from [_ports]. *)
Lemma start_registered id config wait_boot timeout e st port :
  id ∈ dom (_processes st) ->
  _ports st !! id = Some port ->
  start id config wait_boot timeout e st = (Ok (serial_of port), st).
Proof.
  intros Hin Hport. unfold start, bind, get, getitem, ret.
  rewrite decide_True by exact Hin. by rewrite Hport.
Qed.

Lemma start_registered_state id config wait_boot timeout e st :
  id ∈ dom (_processes st) ->
  (start id config wait_boot timeout e st).2 = st.
Proof.
  intros Hin. unfold start, bind, get, getitem, ret, raise.
  rewrite decide_True by exact Hin. by destruct (_ports st !! id).
Qed.

Lemma started_keeps id cfg st s s' port :
  started id cfg st s port -> keeps s s' -> started id cfg st s' port.
Proof.
  intros (? & ? & ? & ? & ? & ? & cmd & Hcmd) K.
  pose proof (keeps_log _ _ _ K Hcmd).
  destruct K as (? & ? & ? & ? & ? & ? & ?).
  unfold started. repeat (split; [congruence|]). by exists cmd.
Qed.

(** The answer of the boot watcher is that of the polls: the state it
    runs in only receives the log. *)
Lemma wait_device_answer e serial timeout fuel i elapsed s s' :
  (wait_device e serial timeout fuel i elapsed s).1 =
  (wait_device e serial timeout fuel i elapsed s').1.
Proof.
  revert i elapsed s s'. induction fuel as [|fuel IH]; intros i elapsed s s';
    cbn [wait_device]; destruct (elapsed <? timeout); try reflexivity.
  unfold run. unfold bind, get, modify, ret, raise, lift. cbv beta iota.
  destruct (devices_poll e i).2 as [r|errno|]; cbv beta iota; try reflexivity.
  destruct (device_listed serial (stdout r)) as [[]|x]; cbv beta iota;
    try reflexivity.
  apply IH.
Qed.

Lemma wait_completed_answer e serial timeout fuel i elapsed s s' :
  (wait_completed e serial timeout fuel i elapsed s).1 =
  (wait_completed e serial timeout fuel i elapsed s').1.
Proof.
  revert i elapsed s s'. induction fuel as [|fuel IH]; intros i elapsed s s';
    cbn [wait_completed]; destruct (elapsed <? timeout); try reflexivity.
  unfold run. unfold bind, get, modify, ret, raise. cbv beta iota.
  destruct (bootprop_poll e i).2 as [r|errno|]; cbv beta iota; try reflexivity.
  destruct (decide (Py.strip (stdout r) = "1")); [reflexivity | apply IH].
Qed.

Lemma wait_for_boot_answer serial timeout e s s' :
  (_wait_for_boot serial timeout e s).1 = (_wait_for_boot serial timeout e s').1.
Proof.
  unfold _wait_for_boot, bind.
  pose proof (wait_device_answer e serial timeout (Z.to_nat timeout) 0 0 s s') as H.
  destruct (wait_device e serial timeout (Z.to_nat timeout) 0 0 s) as [r1 s1],
           (wait_device e serial timeout (Z.to_nat timeout) 0 0 s') as [r2 s2].
  cbn [fst] in H. subst r2. destruct r1 as [[elapsed|]|x]; try reflexivity.
  apply wait_completed_answer.
Qed.

Lemma boot_answer_any port timeout e s s' :
  boot_answer port timeout e s = boot_answer port timeout e s'.
Proof. apply wait_for_boot_answer. Qed.

Lemma serial_of_cons port : exists c r, serial_of port = Chr c r.
Proof. unfold serial_of. eexists _, _. reflexivity. Qed.

(** In [start] the serial is not empty: the boot watcher raises only what
    running [adb] raises. *)
Lemma boot_answer_error port timeout e s x :
  boot_answer port timeout e s = Raise x -> tool_error x.
Proof.
  unfold boot_answer. intros H.
  destruct (quiet_wait_for_boot (serial_of port) timeout e s) as [_ He].
  destruct (He x H) as [Ht|[Hs _]]; [exact Ht|].
  destruct (serial_of_cons port) as (c & r & Hc). by rewrite Hc in Hs.
Qed.

(** The boot wait of [start], from a state in which the session has just
    been registered. *)
Lemma start_wait_boot id cfg (wait_boot : bool) timeout e st s port :
  started id cfg st s port ->
  wp (if wait_boot then
        booted <- _wait_for_boot (serial_of port) timeout (boot_env e);;
        if negb booted then
          stop id (cleanup_env e);;;
          raise (boot_timeout timeout)
        else ret tt
      else ret tt)
     (fun r s' =>
        match r with
        | Ok _ =>
            keeps s s' /\
            (wait_boot = true -> boot_answer port timeout (boot_env e) st = Ok true)
        | Raise x =>
            (keeps s s' /\
             ((wait_boot = true /\ boot_answer port timeout (boot_env e) st = Raise x) \/
              (wait_boot = true /\
               boot_answer port timeout (boot_env e) st = Ok false /\
               exists errno, kill_reply (cleanup_env e) = Unstarted errno /\
                             x = OSError errno))) \/
            (x = boot_timeout timeout /\ wait_boot = true /\
             cleaned_up id cfg st s' /\
             boot_answer port timeout (boot_env e) st = Ok false)
        end) s.
Proof.
  intros (Hcfg & Hnz & Hports & Hprocs & Hpid & Hex & cmd & Hcmd).
  destruct wait_boot; [|apply wp_ret; split; [apply keeps_refl | discriminate]].
  apply wp_bind.
  destruct (quiet_wait_for_boot (serial_of port) timeout (boot_env e) s) as [Hk _].
  pose proof (boot_answer_any port timeout (boot_env e) st s) as Ha.
  unfold boot_answer in Ha. unfold wp.
  destruct (_wait_for_boot (serial_of port) timeout (boot_env e) s) as [r s1].
  cbn [fst snd] in *. fold (boot_answer port timeout (boot_env e) st) in Ha.
  destruct r as [booted|x]; [|left; split; [exact Hk|]; left; by split].
  destruct booted; cbn [negb]; [apply wp_ret; by split|].
  destruct Hk as (Kp & Kq & Kn & Kx & Kd & Ks & Kl).
  assert (Hp1 : _processes s1 !! id = Some (next_pid st))
    by (by rewrite Kp, Hprocs, lookup_insert_eq).
  assert (Hq1 : _ports s1 !! id = Some port)
    by (by rewrite Kq, Hports, lookup_insert_eq).
  apply wp_bind.
  destruct (kill_reply (cleanup_env e)) as [r|errno|] eqn:Hkill.
  2: { eapply wp_eq; [by eapply stop_unstarted|]. left. split.
       - repeat (split; [done|]). etrans; [exact Kl|]. by apply prefix_app_r.
       - right. split; [done|]. split; [done|]. by exists errno. }
  all: destruct (stop_registered s1 id (cleanup_env e) (next_pid st) port Hp1 Hq1)
         as (s2 & Hstop & Sp & Sq & Sd & Sn & Sx & Sdd & Ss & l & Sl);
       [intros ?; rewrite Hkill; discriminate|];
       (eapply wp_eq; [exact Hstop|]); apply wp_raise; right;
       (split; [reflexivity|]); (split; [reflexivity|]); (split; [|done]);
       unfold cleaned_up;
       rewrite Sp, Sq, Sn, Sx, Kp, Kq, Kn, Kx, Hprocs, Hports, Hpid, Hex;
       rewrite !delete_insert_eq;
       repeat (split; [reflexivity|]);
       (split; [exists cmd; rewrite Sl; apply elem_of_app; left;
                destruct Kl as [l' ->]; apply elem_of_app; by left|]);
       exists port; (split; [exact Hcfg|]); (split; [exact Hnz|]);
       rewrite Sl; unfold kill_request, adb_bin; rewrite Ss;
       apply elem_of_app; right; apply elem_of_cons; by left.
Qed.

(** The port [start] takes: the configured one, since the allocator never
    returns. *)
Lemma start_port cfg free s :
  wp (match EmulatorConfig.port cfg with
      | Some p => if decide (p = 0) then _find_available_port free else ret p
      | None => _find_available_port free
      end)
     (fun r s' => s' = s /\
        match r with
        | Ok port => EmulatorConfig.port cfg = Some port /\ port <> 0
        | Raise x => x = no_ports
        end) s.
Proof.
  destruct (EmulatorConfig.port cfg) as [p|];
    [destruct (decide (p = 0))|];
    try (eapply wp_eq; [apply find_available_port_raises|]; by split).
  apply wp_ret. by split.
Qed.

Lemma start_spec id config wait_boot timeout e st :
  id ∉ dom (_processes st) ->
  wp (start id config wait_boot timeout e)
     (start_post id config wait_boot timeout e st) st.
Proof.
  intros Hout. unfold start. apply wp_bind, wp_get.
  rewrite decide_False by exact Hout.
  apply wp_bind. eapply quiet_wp; [apply (quiet_get_session no_error)|].
  intros [found|x] s1 K1 E1; [|destruct (E1 x eq_refl)].
  apply wp_bind. eapply (quiet_wp (create_error id)).
  { destruct found; [apply quiet_ret | apply quiet_create_session]. }
  intros [dir|x] s2 K2 E2.
  2: { left. split; [by eapply create_error_not_boot_timeout, E2|].
       by eapply keeps_trans. }
  pose proof (keeps_trans _ _ _ K1 K2) as K12.
  apply wp_bind. eapply quiet_wp; [apply quiet_load_metadata|].
  intros [metadata|x] s3 K3 E3.
  2: { left. split; [by eapply io_error_not_boot_timeout, E3|].
       by eapply keeps_trans. }
  pose proof (keeps_trans _ _ _ K12 K3) as K13.
  apply wp_bind. eapply quiet_wp; [apply quiet_create_base_avd|].
  intros [ok|x] s4 K4 E4.
  2: { left. split; [by eapply provisioning_error_not_boot_timeout, E4|].
       by eapply keeps_trans. }
  pose proof (keeps_trans _ _ _ K13 K4) as K14.
  apply wp_bind. eapply wp_mono; [apply start_port|].
  intros [port|x] s5 [-> Hport].
  2: { left. subst x. split; [apply no_ports_not_boot_timeout | exact K14]. }
  destruct Hport as [Hcfg Hnz].
  destruct K14 as (Kp & Kq & Kn & Kx & Kd & Ks).
  apply wp_bind, wp_modify. apply wp_bind, wp_get.
  apply wp_bind. unfold Popen.
  destruct (emulator_fails e) as [errno|] eqn:Hfails.
  { apply wp_raise. right. left. exists port, errno.
    split; [reflexivity|]. split; [exact Hfails|].
    unfold port_taken. cbn. by rewrite Kp, Kq, Kn, Kx. }
  apply wp_bind, wp_get.
  apply wp_bind, wp_modify. apply wp_ret.
  apply wp_bind, wp_modify.
  match goal with |- wp _ _ ?s => set (s6 := s) end.
  assert (Hs : started id (default EmulatorConfig.default config) st s6 port).
  { unfold started, s6. cbn. rewrite Kp, Kq, Kn, Kx.
    repeat (split; [done|]). eexists. apply elem_of_app. right.
    apply elem_of_cons. by left. }
  clearbody s6.
  apply wp_bind. eapply wp_mono; [by apply start_wait_boot|].
  intros [[]|x] s7 H7.
  2: { destruct H7 as [[K7 H7]|(-> & Hw & Hc & Ha)].
       - right. right. left. exists port.
         split; [by eapply started_keeps|].
         destruct H7 as [H7|H7]; [by left | right; by left].
       - right. right. right. repeat (split; [done|]).
         intros port' Hport'. rewrite Hcfg in Hport'. by simplify_eq. }
  destruct H7 as [K7 Ha].
  assert (Hs7 : started id (default EmulatorConfig.default config) st s7 port).
  { by eapply started_keeps. }
  apply wp_bind. eapply (quiet_wp io_error).
  { destruct metadata; [apply quiet_save_metadata | apply quiet_ret]. }
  intros [[]|x] s8 K8 E8;
    assert (Hs8 : started id (default EmulatorConfig.default config) st s8 port)
      by (by eapply started_keeps).
  - apply wp_ret. exists port. split; [reflexivity|]. split; [exact Hs8 | exact Ha].
  - right. right. left. exists port. split; [exact Hs8|].
    right. right. split; [by apply E8 | exact Ha].
Qed.

Lemma started_registry_inv id cfg st s port :
  started id cfg st s port -> registry_inv st -> registry_inv s.
Proof.
  intros (_ & _ & Hq & Hp & _) Hinv. unfold registry_inv in *.
  rewrite Hp, Hq, !dom_insert. by apply union_mono_l.
Qed.

Lemma port_taken_registry_inv id cfg st s port :
  port_taken id cfg st s port -> registry_inv st -> registry_inv s.
Proof.
  intros (_ & _ & Hq & Hp & _) Hinv. unfold registry_inv in *.
  rewrite Hp, Hq, dom_insert. intros x Hx. apply elem_of_union. right.
  by apply Hinv.
Qed.

Lemma cleaned_up_registry_inv id cfg st s :
  cleaned_up id cfg st s -> registry_inv st -> registry_inv s.
Proof.
  intros (Hp & Hq & _) Hinv. unfold registry_inv in *.
  rewrite Hp, Hq, !dom_delete.
  intros x [Hx Hne]%elem_of_difference. apply elem_of_difference.
  split; [by apply Hinv | exact Hne].
Qed.

Lemma start_registry_inv id config wait_boot timeout e st :
  registry_inv st -> registry_inv (start id config wait_boot timeout e st).2.
Proof.
  intros Hinv. destruct (decide (id ∈ dom (_processes st))) as [Hin|Hout].
  - by rewrite start_registered_state.
  - pose proof (start_spec id config wait_boot timeout e st Hout) as H.
    unfold wp, start_post in H.
    destruct (start id config wait_boot timeout e st) as [[serial|x] s];
      cbn [fst snd] in *.
    + destruct H as (port & _ & H & _). by eapply started_registry_inv.
    + destruct H as [[_ H]|[(port & errno & _ & _ & H)|[(port & H & _)|(_ & _ & H & _)]]].
      * by eapply keeps_registry_inv.
      * by eapply port_taken_registry_inv.
      * by eapply started_registry_inv.
      * by eapply cleaned_up_registry_inv.
Qed.

Lemma bind_registry_inv {A B} (m : M A) (k : A -> M B) st :
  registry_inv (m st).2 ->
  (forall a, registry_inv (m st).2 -> registry_inv (k a (m st).2).2) ->
  registry_inv (bind m k st).2.
Proof.
  unfold bind. destruct (m st) as [[a|x] s]; cbn [snd]; auto.
Qed.

Lemma restart_registry_inv id config se e st :
  registry_inv st -> registry_inv (restart id config se e st).2.
Proof.
  intros Hinv. unfold restart. apply bind_registry_inv.
  - by apply stop_registry_inv.
  - intros _. apply start_registry_inv.
Qed.

Lemma quiet_registry_inv {A} E (m : M A) st :
  quiet E m -> registry_inv st -> registry_inv (m st).2.
Proof. intros Hm. destruct (Hm st) as [Hk _]. by apply keeps_registry_inv. Qed.

Lemma delete_session_registry_inv id force e st :
  registry_inv st -> registry_inv (delete_session id force e st).2.
Proof.
  intros Hinv. unfold delete_session. apply bind_registry_inv; [exact Hinv|].
  intros st0 _. cbn [get snd]. apply bind_registry_inv.
  - destruct (decide (id ∈ dom (_processes st0))); [|exact Hinv].
    destruct force; [|exact Hinv].
    apply bind_registry_inv; [by apply stop_registry_inv | auto].
  - intros _ Hinv'. revert Hinv'. generalize ((if decide (id ∈ dom (_processes st0))
       then if force then stop id e;;; ret tt else raise (session_running id)
       else ret tt) st).2. intros s Hs.
    apply (quiet_registry_inv (fun _ => True)); [|exact Hs].
    apply quiet_bind; [apply quiet_get|]. intros st'.
    apply quiet_if; [|apply quiet_ret].
    apply quiet_bind; [by apply quiet_on_disk|]. intros _. apply quiet_ret.
Qed.

Lemma stop_each_registry_inv ids e st :
  registry_inv st -> registry_inv (stop_each ids e st).2.
Proof.
  revert st. induction ids as [|id ids IH]; intros st Hinv; [exact Hinv|].
  cbn [stop_each]. apply bind_registry_inv; [by apply stop_registry_inv|].
  intros _. apply IH.
Qed.

Lemma cleanup_registry_inv e st :
  registry_inv st -> registry_inv (_cleanup e st).2.
Proof. intros Hinv. unfold _cleanup, bind, get. by apply stop_each_registry_inv. Qed.

Lemma init_registry_inv data sdk d st : __init__ data sdk d = Ok st -> registry_inv st.
Proof.
  unfold __init__, rbind. repeat case_match; try discriminate.
  intros [= <-]. unfold registry_inv. cbn. set_solver.
Qed.

Lemma after_registry_inv c st : registry_inv st -> registry_inv (after c st).
Proof.
  intros Hinv. destruct c; cbn [after].
  - by eapply quiet_registry_inv; [apply quiet_create_session|].
  - by apply delete_session_registry_inv.
  - by apply start_registry_inv.
  - by apply stop_registry_inv.
  - by apply restart_registry_inv.
  - by eapply quiet_registry_inv; [apply quiet_save_snapshot|].
  - by eapply quiet_registry_inv; [apply quiet_load_snapshot|].
  - by eapply quiet_registry_inv; [apply quiet_list_snapshots|].
  - by eapply quiet_registry_inv; [apply quiet_delete_snapshot|].
  - by eapply quiet_registry_inv; [apply quiet_install_apk|].
  - by eapply quiet_registry_inv; [apply quiet_list_installed_packages|].
  - by eapply quiet_registry_inv; [apply quiet_ensure_system_image|].
  - by eapply quiet_registry_inv; [apply quiet_create_base_avd|].
  - by eapply quiet_registry_inv; [apply quiet_list_avds|].
  - by eapply quiet_registry_inv; [apply quiet_delete_avd|].
  - by eapply quiet_registry_inv; [apply quiet_list_sessions|].
  - by apply cleanup_registry_inv.
Qed.

Lemma reachable_inv st : reachable st -> registry_inv st.
Proof.
  induction 1 as [data sdk d st Hinit|c st _ IH|pid st _ IH].
  - by eapply init_registry_inv.
  - by apply after_registry_inv.
  - exact IH.
Qed.

(** The outcomes of [start], as an equation. *)
Lemma start_cases id config wait_boot timeout e st :
  id ∉ dom (_processes st) ->
  exists r s, start id config wait_boot timeout e st = (r, s) /\
              start_post id config wait_boot timeout e st r s.
Proof. intros Hout. by apply wp_run, start_spec. Qed.

Lemma start_post_exited id config wait_boot timeout e st r s :
  start_post id config wait_boot timeout e st r s -> exited st ⊆ exited s.
Proof.
  unfold start_post. destruct r as [serial|x].
  - intros (port & _ & (_ & _ & _ & _ & _ & -> & _) & _). done.
  - intros [[_ (_ & _ & _ & -> & _)]
           |[(port & errno & _ & _ & _ & _ & _ & _ & _ & ->)
            |[(port & (_ & _ & _ & _ & _ & -> & _) & _)
             |(_ & _ & (_ & _ & _ & -> & _) & _)]]]; try done.
    apply union_subseteq_r.
Qed.

(** Without a fixed port [start] cannot get past the allocator. *)
Lemma start_post_auto_port id config wait_boot timeout e st r s :
  EmulatorConfig.port (default EmulatorConfig.default config) = None \/
  EmulatorConfig.port (default EmulatorConfig.default config) = Some 0 ->
  start_post id config wait_boot timeout e st r s ->
  exists x, r = Raise x /\ x <> boot_timeout timeout /\ keeps st s.
Proof.
  intros Hauto. unfold start_post.
  assert (Hno : forall port,
            EmulatorConfig.port (default EmulatorConfig.default config) = Some port ->
            port <> 0 -> False).
  { intros port Hp Hnz. destruct Hauto as [H|H]; rewrite H in Hp; by simplify_eq. }
  destruct r as [serial|x].
  - intros (port & _ & (Hp & Hnz & _) & _). destruct (Hno port Hp Hnz).
  - intros [[Hx K]
           |[(port & errno & _ & _ & Hp & Hnz & _)
            |[(port & (Hp & Hnz & _) & _)
             |(_ & _ & (_ & _ & _ & _ & _ & port & Hp & Hnz & _) & _)]]].
    + by exists x.
    + destruct (Hno port Hp Hnz).
    + destruct (Hno port Hp Hnz).
    + destruct (Hno port Hp Hnz).
Qed.

(** ** More on the disk *)

Lemma update_at_diverge d c p f d' q :
  diverge (c :: p) q ->
  update_at d c p f = Ok d' ->
  lookup_node (Dir d') q = lookup_node (Dir d) q.
Proof.
  revert d c d' q. induction p as [|c' p IH]; intros d c d' [|b q] Hdiv Hup;
    try (by destruct Hdiv).
  - cbn [update_at] in Hup. destruct (f (d !! c)) as [o|]; [|discriminate].
    cbn [rbind] in Hup. simplify_eq.
    destruct Hdiv as [Hne|[_ []]]. cbn [lookup_node].
    destruct o; by rewrite ?lookup_insert_ne, ?lookup_delete_ne.
  - change (update_at d c (c' :: p) f) with
      (match d !! c with
       | Some (Dir d0) =>
           rbind (update_at d0 c' p f) (fun d'' => Ok (<[c := Dir d'']> d))
       | Some (File _) => Raise (OSError ENOTDIR)
       | None => Raise (OSError ENOENT)
       end) in Hup.
    destruct (d !! c) as [[|d0]|] eqn:Hc; try discriminate.
    destruct (update_at d0 c' p f) as [d0'|] eqn:Hup0; [|discriminate].
    cbn [rbind] in Hup. simplify_eq. cbn [lookup_node].
    destruct Hdiv as [Hne|[<- Hdiv]].
    + by rewrite lookup_insert_ne.
    + rewrite lookup_insert_eq, Hc. by eapply IH.
Qed.

Lemma update_path_diverge d p f d' q :
  diverge p q ->
  update_path d p f = Ok d' ->
  lookup_path d' q = lookup_path d q.
Proof.
  destruct p as [|c p]; [intros []|]. apply update_at_diverge.
Qed.

Lemma diverge_app r a b p q : a <> b -> diverge (r ++ a :: p) (r ++ b :: q).
Proof.
  intros Hne. induction r as [|c r IH]; cbn [app diverge]; [by left|].
  right. by split.
Qed.

Lemma diverge_prefix p q r : diverge p q -> diverge (p ++ r) q.
Proof.
  revert q. induction p as [|a p IH]; intros [|b q]; cbn [app diverge]; try done.
  intros [?|[? ?]]; [by left | right; split; auto].
Qed.

Lemma diverge_sym p q : diverge p q -> diverge q p.
Proof.
  revert q. induction p as [|a p IH]; intros [|b q]; cbn [diverge]; try done.
  intros [?|[? ?]]; [left; congruence | right; split; auto].
Qed.

(** With the parent there, [mkdir(parents=True)] is [mkdir]. *)
Lemma mkdir_at_update_at d c p :
  is_Some (lookup_node (Dir d) (removelast (c :: p))) ->
  mkdir_at d c p =
  update_at d c p (fun o => match o with
                            | Some _ => Raise (OSError EEXIST)
                            | None => Ok (Some (Dir ∅))
                            end).
Proof.
  revert d c. induction p as [|c' p IH]; intros d c Hp.
  - cbn [mkdir_at update_at]. by destruct (d !! c).
  - change (removelast (c :: c' :: p)) with (c :: removelast (c' :: p)) in Hp.
    cbn [lookup_node] in Hp.
    change (mkdir_at d c (c' :: p)) with
      (match d !! c with
       | Some (Dir d') =>
           rbind (mkdir_at d' c' p) (fun d'' => Ok (<[c := Dir d'']> d))
       | Some (File _) => Raise (OSError ENOTDIR)
       | None =>
           rbind (mkdir_at ∅ c' p) (fun d'' => Ok (<[c := Dir d'']> d))
       end).
    change (update_at d c (c' :: p) ?f) with
      (match d !! c with
       | Some (Dir d') =>
           rbind (update_at d' c' p f) (fun d'' => Ok (<[c := Dir d'']> d))
       | Some (File _) => Raise (OSError ENOTDIR)
       | None => Raise (OSError ENOENT)
       end).
    destruct (d !! c) as [[|d0]|]; try reflexivity.
    + by rewrite IH.
    + by destruct Hp.
Qed.

Lemma mkdir_parents_mkdir d dir name m :
  lookup_path d dir = Some (Dir m) ->
  mkdir_parents (dir ++ [name]) d = mkdir (dir ++ [name]) d.
Proof.
  intros Hl. destruct dir as [|c p].
  { cbn [app mkdir_parents]. unfold mkdir. cbn [update_path].
    apply mkdir_at_update_at. cbn [removelast lookup_node]. eauto. }
  cbn [app mkdir_parents]. unfold mkdir. cbn [update_path].
  apply mkdir_at_update_at.
  change (c :: p ++ [name]) with ((c :: p) ++ [name]).
  rewrite removelast_last. unfold lookup_path in Hl. by rewrite Hl.
Qed.

Lemma mkdir_child d dir name m :
  lookup_path d dir = Some (Dir m) ->
  m !! name = None ->
  exists d', mkdir (dir ++ [name]) d = Ok d' /\
             lookup_path d' dir = Some (Dir (<[name := Dir ∅]> m)) /\
             forall q, diverge (dir ++ [name]) q -> lookup_path d' q = lookup_path d q.
Proof.
  intros Hl Hn. unfold mkdir.
  destruct (update_path_child d dir name
              (fun o => match o with
                        | Some _ => Raise (OSError EEXIST)
                        | None => Ok (Some (Dir ∅))
                        end) m (Some (Dir ∅)) Hl) as (d' & Hu & Hl').
  { by rewrite Hn. }
  exists d'. split; [exact Hu|]. split; [exact Hl'|].
  intros q Hq. by eapply update_path_diverge.
Qed.

Lemma write_file_child_frame d dir name data m :
  lookup_path d dir = Some (Dir m) ->
  (forall m', m !! name <> Some (Dir m')) ->
  exists d', write_file (dir ++ [name]) data d = Ok d' /\
             lookup_path d' dir = Some (Dir (<[name := File data]> m)) /\
             forall q, diverge (dir ++ [name]) q -> lookup_path d' q = lookup_path d q.
Proof.
  intros Hl Hn.
  destruct (write_file_child d dir name data m Hl Hn) as (d' & Hw & Hl').
  exists d'. split; [exact Hw|]. split; [exact Hl'|].
  intros q Hq. by eapply update_path_diverge.
Qed.

Lemma rmtree_child d dir name m m' :
  lookup_path d dir = Some (Dir m) ->
  m !! name = Some (Dir m') ->
  exists d', rmtree (dir ++ [name]) d = Ok d' /\
             lookup_path d' dir = Some (Dir (delete name m)) /\
             forall q, diverge (dir ++ [name]) q -> lookup_path d' q = lookup_path d q.
Proof.
  intros Hl Hn. unfold rmtree.
  destruct (update_path_child d dir name
              (fun o => match o with
                        | Some (Dir _) => Ok None
                        | Some (File _) => Raise (OSError ENOTDIR)
                        | None => Raise (OSError ENOENT)
                        end) m None Hl) as (d' & Hu & Hl').
  { by rewrite Hn. }
  exists d'. split; [exact Hu|]. split; [exact Hl'|].
  intros q Hq. by eapply update_path_diverge.
Qed.

(** The parent directory after a change below one of its entries. *)
Lemma lookup_parent d d0 dir name m n :
  lookup_path d0 dir = Some (Dir m) ->
  lookup_path d (dir ++ [name]) = Some n ->
  (forall q, diverge (dir ++ [name]) q -> lookup_path d q = lookup_path d0 q) ->
  lookup_path d dir = Some (Dir (<[name := n]> m)).
Proof.
  intros H0 Hn Hframe. unfold lookup_path in *.
  rewrite lookup_node_app in Hn.
  destruct (lookup_node (Dir d) dir) as [[|X]|] eqn:HX; try discriminate.
  cbn [lookup_node] in Hn.
  f_equal. f_equal. apply map_eq. intros k.
  destruct (decide (k = name)) as [->|Hne].
  - rewrite lookup_insert_eq. by destruct (X !! name).
  - rewrite lookup_insert_ne by done.
    pose proof (Hframe (dir ++ [k])) as Hk.
    rewrite !lookup_node_app, HX, H0 in Hk. cbn [lookup_node] in Hk.
    assert (Hd : diverge (dir ++ [name]) (dir ++ [k])) by (apply diverge_app; congruence).
    specialize (Hk Hd). by destruct (X !! k), (m !! k).
Qed.

Lemma lookup_path_root d : lookup_path d [] = Some (Dir d).
Proof. reflexivity. Qed.

(** ** Creating and deleting sessions *)

Lemma with_disk_with_disk d d' st : with_disk d' (with_disk d st) = with_disk d' st.
Proof. reflexivity. Qed.

Lemma on_disk_ok f st d : f (disk st) = Ok d -> on_disk f st = (Ok tt, with_disk d st).
Proof. unfold on_disk. by intros ->. Qed.

Lemma on_disk_raise f st x : f (disk st) = Raise x -> on_disk f st = (Raise x, st).
Proof. unfold on_disk. by intros ->. Qed.

Lemma with_disk_same st : with_disk (disk st) st = st.
Proof. by destruct st. Qed.

Lemma path_exists_child d dir name m :
  lookup_path d dir = Some (Dir m) ->
  path_exists d (dir ++ [name]) = bool_decide (is_Some (m !! name)).
Proof.
  intros Hl. unfold path_exists. rewrite (lookup_path_child _ _ _ _ Hl).
  destruct (m !! name); [by rewrite bool_decide_true | rewrite bool_decide_false; [done|]].
  by intros [? ?].
Qed.

(** The template's image is looked for where the new directory does not
    reach, or inside the new directory, where there is none yet. *)
Lemma template_source_lookup id t d d' sm md :
  lookup_path d sessions_dir = Some (Dir sm) ->
  sm !! id = None ->
  lookup_path d' (sessions_dir ++ [id]) = Some (Dir (new_session_dir md)) ->
  (forall q, diverge (sessions_dir ++ [id]) q -> lookup_path d' q = lookup_path d q) ->
  lookup_path d' (template_source t) = lookup_path d (template_source t).
Proof.
  intros Hs Hid Hnew Hframe. unfold template_source.
  destruct (decide (t = "base")) as [_|_].
  { apply Hframe. cbn. left. discriminate. }
  destruct (decide (t = id)) as [->|Hne].
  - change (sessions_dir ++ [id; "userdata.img"])
      with ((sessions_dir ++ [id]) ++ ["userdata.img"]).
    rewrite (lookup_path_child _ _ _ _ Hnew).
    change ((sessions_dir ++ [id]) ++ ["userdata.img"])
      with (sessions_dir ++ [id] ++ ["userdata.img"]).
    unfold lookup_path in *. rewrite lookup_node_app, Hs.
    cbn [app lookup_node]. rewrite Hid.
    unfold new_session_dir. by rewrite lookup_insert_ne, lookup_singleton_ne.
  - apply Hframe. cbn. right. split; [done|]. left. congruence.
Qed.

Lemma create_session_fresh id config tmpl e st sm :
  lookup_path (disk st) sessions_dir = Some (Dir sm) ->
  sm !! id = None ->
  exists d r,
    create_session id config tmpl e st = (r, with_disk d st) /\
    (forall q, diverge (sessions_dir ++ [id]) q ->
               lookup_path d q = lookup_path (disk st) q) /\
    exists dm,
      lookup_path d sessions_dir = Some (Dir (<[id := Dir dm]> sm)) /\
      match template_node tmpl (disk st) with
      | None => r = Ok (sessions_dir ++ [id]) /\
                dm = new_session_dir (initial_metadata id config e)
      | Some (File data) =>
          r = Ok (sessions_dir ++ [id]) /\
          dm = <["userdata.img" := File data]>
                 (new_session_dir (initial_metadata id config e))
      | Some (Dir _) =>
          r = Raise (OSError EISDIR) /\
          dm = new_session_dir (initial_metadata id config e)
      end.
Proof.
  intros Hs Hid. set (dir := sessions_dir ++ [id]).
  set (md := initial_metadata id config e).
  (* the three steps every call makes *)
  destruct (mkdir_child _ _ id _ Hs Hid) as (d1 & H1 & L1 & F1).
  rewrite <- (mkdir_parents_mkdir _ _ _ _ Hs) in H1.
  assert (D1 : lookup_path d1 dir = Some (Dir ∅)).
  { unfold dir. by rewrite (lookup_path_child _ _ _ _ L1), lookup_insert_eq. }
  destruct (mkdir_child _ _ "snapshots" _ D1 (lookup_empty _)) as (d2 & H2 & L2 & F2).
  rewrite insert_empty in L2.
  destruct (write_file_child_frame d2 dir "metadata.json"
              (Json.dumps (asdict md)) _ L2) as (d3 & H3 & L3 & F3).
  { intros m'. by rewrite lookup_singleton_ne. }
  fold (new_session_dir md) in L3.
  assert (F : forall q, diverge dir q -> lookup_path d3 q = lookup_path (disk st) q).
  { intros q Hq. rewrite F3, F2, F1; auto using diverge_prefix. }
  assert (P3 : forall dm, lookup_path d3 dir = Some (Dir dm) ->
            lookup_path d3 sessions_dir = Some (Dir (<[id := Dir dm]> sm))).
  { intros dm Hdm. by eapply lookup_parent. }
  assert (Hsrc : template_node tmpl d3 = template_node tmpl (disk st)).
  { destruct tmpl as [[|c t]|]; try reflexivity. cbn [template_node].
    by eapply template_source_lookup. }
  enough (Hwp : wp (create_session id config tmpl e)
            (fun r s => exists d, s = with_disk d st /\
               (forall q, diverge dir q -> lookup_path d q = lookup_path (disk st) q) /\
               exists dm, lookup_path d sessions_dir = Some (Dir (<[id := Dir dm]> sm)) /\
                 match template_node tmpl (disk st) with
                 | None => r = Ok dir /\ dm = new_session_dir md
                 | Some (File data) =>
                     r = Ok dir /\ dm = <["userdata.img" := File data]> (new_session_dir md)
                 | Some (Dir _) => r = Raise (OSError EISDIR) /\ dm = new_session_dir md
                 end) st).
  { unfold wp in Hwp. destruct Hwp as (d & Hd & Hrest).
    exists d, (create_session id config tmpl e st).1. split; [|exact Hrest].
    rewrite <- Hd. by destruct (create_session id config tmpl e st). }
  unfold create_session. apply wp_bind, wp_get.
  cbv zeta. rewrite (path_exists_child _ _ _ _ Hs), Hid.
  rewrite bool_decide_false by (by intros [? ?]).
  apply wp_bind. eapply wp_eq; [apply on_disk_ok; exact H1|].
  apply wp_bind. eapply wp_eq; [apply on_disk_ok; exact H2|].
  apply wp_bind. eapply wp_eq; [apply on_disk_ok; exact H3|].
  rewrite <- Hsrc. clear Hsrc.
  apply wp_bind.
  destruct tmpl as [[|c t]|]; cbn [template_node];
    try (apply wp_ret, wp_ret; exists d3; split; [reflexivity|];
         split; [exact F|]; exists (new_session_dir md); split; [by apply P3 | done]).
  apply wp_bind, wp_get. fold (template_source (Chr c t)).
  unfold path_exists. cbn [disk with_disk].
  destruct (lookup_path d3 (template_source (Chr c t))) as [[data|m']|] eqn:Hsrc.
  - (* the image is there: it is copied *)
    destruct (write_file_child_frame d3 dir "userdata.img" data _ L3)
      as (d4 & H4 & L4 & F4).
    { intros m'. unfold new_session_dir.
      by rewrite lookup_insert_ne, lookup_singleton_ne. }
    eapply wp_eq.
    { apply on_disk_ok. unfold copy, read_file. cbn [disk with_disk].
      rewrite Hsrc. cbn [rbind]. unfold is_dir.
      rewrite (lookup_path_child _ _ _ _ L3). unfold new_session_dir.
      rewrite lookup_insert_ne, lookup_singleton_ne by done. exact H4. }
    apply wp_ret. exists d4. split; [reflexivity|].
    split; [intros q Hq; rewrite F4; auto using diverge_prefix|].
    eexists. split; [|done].
    eapply lookup_parent; [exact Hs|exact L4|].
    intros q Hq. rewrite F4; auto using diverge_prefix.
  - (* a directory is there: the copy fails *)
    eapply wp_eq.
    { apply on_disk_raise. unfold copy, read_file. cbn [disk with_disk].
      rewrite Hsrc. reflexivity. }
    exists d3. split; [reflexivity|]. split; [exact F|].
    exists (new_session_dir md). split; [by apply P3 | done].
  - apply wp_ret, wp_ret. exists d3. split; [reflexivity|]. split; [exact F|].
    exists (new_session_dir md). split; [by apply P3 | done].
Qed.


(** The second half of [delete_session]. *)
Lemma delete_session_rmtree id s sm dm :
  lookup_path (disk s) sessions_dir = Some (Dir sm) ->
  sm !! id = Some (Dir dm) ->
  wp (st' <- get;;
      if path_exists (disk st') (sessions_dir ++ [id]) then
        on_disk (rmtree (sessions_dir ++ [id]));;;
        ret true
      else ret false)
     (fun r s' => r = Ok true /\ exists d, s' = with_disk d s /\
        rmtree (sessions_dir ++ [id]) (disk s) = Ok d /\
        lookup_path d sessions_dir = Some (Dir (delete id sm)) /\
        forall q, diverge (sessions_dir ++ [id]) q ->
                  lookup_path d q = lookup_path (disk s) q) s.
Proof.
  intros Hs Hid. apply wp_bind, wp_get.
  rewrite (path_exists_child _ _ _ _ Hs), Hid, bool_decide_true by eauto.
  destruct (rmtree_child _ _ _ _ _ Hs Hid) as (d & Hrm & Hl & Hf).
  apply wp_bind. eapply wp_eq; [apply on_disk_ok; exact Hrm|].
  apply wp_ret. split; [reflexivity|]. by exists d.
Qed.

Lemma delete_session_unregistered id force e st sm dm :
  _processes st !! id = None ->
  lookup_path (disk st) sessions_dir = Some (Dir sm) ->
  sm !! id = Some (Dir dm) ->
  exists d, delete_session id force e st = (Ok true, with_disk d st) /\
    lookup_path d sessions_dir = Some (Dir (delete id sm)) /\
    forall q, diverge (sessions_dir ++ [id]) q ->
              lookup_path d q = lookup_path (disk st) q.
Proof.
  intros Hp Hs Hid.
  enough (Hwp : wp (delete_session id force e)
            (fun r s' => r = Ok true /\ exists d, s' = with_disk d st /\
               rmtree (sessions_dir ++ [id]) (disk st) = Ok d /\
               lookup_path d sessions_dir = Some (Dir (delete id sm)) /\
               forall q, diverge (sessions_dir ++ [id]) q ->
                         lookup_path d q = lookup_path (disk st) q) st).
  { apply wp_run in Hwp as (r & s & Heq & -> & d & -> & _ & H). by exists d. }
  unfold delete_session. apply wp_bind, wp_get.
  rewrite decide_False by (by apply not_elem_of_dom).
  apply wp_bind, wp_ret. by apply delete_session_rmtree with (dm := dm).
Qed.

Lemma delete_session_absent id force e st :
  _processes st !! id = None ->
  path_exists (disk st) (sessions_dir ++ [id]) = false ->
  delete_session id force e st = (Ok false, st).
Proof.
  intros Hp Hpe. unfold delete_session, bind, get, ret.
  rewrite decide_False by (by apply not_elem_of_dom). by rewrite Hpe.
Qed.



(** When [adb] cannot be started, [delete_session] with [force] fails in
    [stop] and removes nothing. *)
Lemma delete_session_forced_unstarted id e st p port errno :
  _processes st !! id = Some p ->
  _ports st !! id = Some port ->
  kill_reply e = Unstarted errno ->
  delete_session id true e st =
  (Raise (OSError errno), with_log (log st ++ [kill_request st port]) st).
Proof.
  intros Hp Hport Hk. unfold delete_session. unfold bind at 1. unfold get.
  rewrite decide_True by (apply elem_of_dom; eauto).
  unfold bind. by rewrite (stop_unstarted st id e p port errno Hp Hport Hk).
Qed.

Lemma get_session_none id s m :
  lookup_path (disk s) sessions_dir = Some (Dir m) ->
  m !! id = None ->
  get_session id s = (Ok None, s).
Proof.
  intros Hs Hid. unfold get_session, bind, get, ret.
  rewrite (path_exists_child _ _ _ _ Hs), Hid, bool_decide_false; [done|].
  by intros [? ?].
Qed.

Lemma get_session_some id s m n :
  lookup_path (disk s) sessions_dir = Some (Dir m) ->
  m !! id = Some n ->
  get_session id s = (Ok (Some (sessions_dir ++ [id])), s).
Proof.
  intros Hs Hid. unfold get_session, bind, get, ret.
  by rewrite (path_exists_child _ _ _ _ Hs), Hid, bool_decide_true by eauto.
Qed.

Lemma is_dir_child_inv d dir name :
  is_dir d (dir ++ [name]) = true ->
  exists m dm, lookup_path d dir = Some (Dir m) /\ m !! name = Some (Dir dm).
Proof.
  unfold is_dir, lookup_path. rewrite lookup_node_app.
  destruct (lookup_node (Dir d) dir) as [[|m]|]; try discriminate.
  cbn [lookup_node]. destruct (m !! name) as [[|dm]|] eqn:H; try discriminate.
  intros _. by exists m, dm.
Qed.

Lemma is_dir_inv d p : is_dir d p = true -> exists m, lookup_path d p = Some (Dir m).
Proof.
  unfold is_dir. destruct (lookup_path d p) as [[|m]|]; try discriminate. eauto.
Qed.

(** ** The snapshot list in the metadata *)

Lemma stores_load id m s :
  stable_record m = true ->
  stores id m s -> _load_metadata (Some (sessions_dir ++ [id])) s = (Ok (Some m), s).
Proof. intros Hm (dm & Hl & Hf). by eapply load_metadata_child. Qed.

Lemma stores_persisted id m s :
  stable_record m = true -> stores id m s -> persisted id s = Some m.
Proof. intros Hm H. unfold persisted. by rewrite (stores_load _ _ _ Hm H). Qed.

(** *** Stable records *)

Lemma stable_record_snapshots m :
  stable_record m = true -> forallb Json.stable (SessionMetadata.snapshots m) = true.
Proof.
  unfold stable_record. intros H. repeat (apply andb_true_iff in H as [H ?]). done.
Qed.

Lemma stable_set_snapshots l m :
  stable_record m = true -> forallb Json.stable l = true ->
  stable_record (set_snapshots l m) = true.
Proof.
  unfold stable_record. intros H Hl. repeat (apply andb_true_iff in H as [H ?]).
  destruct m. cbn in *. repeat (apply andb_true_iff; split); done.
Qed.

Lemma stable_remove_first n l :
  forallb Json.stable l = true -> forallb Json.stable (remove_first n l) = true.
Proof.
  induction l as [|x l IH]; [done|]. cbn [forallb remove_first].
  intros [Hx Hl]%andb_true_iff. destruct (decide (n = x)); [done|].
  cbn [forallb]. by rewrite Hx, IH.
Qed.

Lemma stable_after_save n rc m :
  stable_record m = true -> Json.stable n = true ->
  stable_record (set_snapshots (after_save n rc (SessionMetadata.snapshots m)) m) = true.
Proof.
  intros Hm Hn. apply stable_set_snapshots; [done|].
  pose proof (stable_record_snapshots m Hm) as Hl. unfold after_save.
  destruct (decide _); [|done]. rewrite forallb_app, Hl. cbn [forallb].
  by rewrite Hn.
Qed.

Lemma stable_after_delete n rc m :
  stable_record m = true ->
  stable_record (set_snapshots (after_delete n rc (SessionMetadata.snapshots m)) m) = true.
Proof.
  intros Hm. apply stable_set_snapshots; [done|].
  pose proof (stable_record_snapshots m Hm) as Hl. unfold after_delete.
  destruct (decide _); [|done]. by apply stable_remove_first.
Qed.

Lemma stores_get_session id m s :
  stores id m s -> get_session id s = (Ok (Some (sessions_dir ++ [id])), s).
Proof.
  intros (dm & Hl & Hf). unfold get_session, bind, get, ret, path_exists.
  by rewrite Hl.
Qed.

Lemma stores_save id m m' s :
  stores id m s ->
  exists d, _save_metadata (Some (sessions_dir ++ [id])) m' s = (Ok tt, with_disk d s) /\
            stores id m' (with_disk d s).
Proof.
  intros (dm & Hl & Hf).
  destruct (save_metadata_child s _ dm m' Hl) as (d & Hsave & Hl').
  { intros m0. by rewrite Hf. }
  exists d. split; [exact Hsave|]. eexists. split; [exact Hl'|].
  by rewrite lookup_insert_eq.
Qed.

Lemma stores_disk id m s s' : disk s' = disk s -> stores id m s -> stores id m s'.
Proof. unfold stores. by intros ->. Qed.

Lemma set_snapshots_same m : set_snapshots (SessionMetadata.snapshots m) m = m.
Proof. by destruct m. Qed.

Lemma get_serial_some id port st :
  _ports st !! id = Some port -> get_serial id st = (Ok (Some (serial_of port)), st).
Proof. intros H. unfold get_serial, bind, get, ret. by rewrite H. Qed.

Lemma get_serial_none id st :
  _ports st !! id = None -> get_serial id st = (Ok None, st).
Proof. intros H. unfold get_serial, bind, get, ret. by rewrite H. Qed.

Lemma truthy_serial port : truthy (Some (serial_of port)) = true.
Proof. reflexivity. Qed.

Lemma wp_run_tool argv reply (Q : result CompletedProcess -> state -> Prop) st :
  Q (Ok reply) (with_log (log st ++ [Run argv]) st) ->
  wp (run argv (Completes reply)) Q st.
Proof. intros H. exact H. Qed.

(** Running a program: the request is logged, whatever comes of it. *)
Lemma wp_run_any argv reply (Q : result CompletedProcess -> state -> Prop) st :
  (forall r, reply = Completes r -> Q (Ok r) (with_log (log st ++ [Run argv]) st)) ->
  (forall x, tool_error x -> Q (Raise x) (with_log (log st ++ [Run argv]) st)) ->
  wp (run argv reply) Q st.
Proof.
  intros Hok Herr. unfold wp, run, bind, modify, ret, raise. cbv beta iota.
  destruct reply as [r|errno|]; cbn [fst snd]; [by apply Hok | by apply Herr..].
Qed.

Lemma save_snapshot_stored id n reply port m st :
  stable_record m = true ->
  _ports st !! id = Some port ->
  stores id m st ->
  exists s,
    save_snapshot id n (Completes reply) st = (Ok (bool_decide (returncode reply = 0)), s) /\
    keeps st s /\
    stores id (set_snapshots
                 (after_save n (returncode reply) (SessionMetadata.snapshots m)) m) s.
Proof.
  intros Hm Hport Hst.
  enough (Hwp : wp (save_snapshot id n (Completes reply))
            (fun r s => r = Ok (bool_decide (returncode reply = 0)) /\ keeps st s /\
               stores id (set_snapshots
                 (after_save n (returncode reply) (SessionMetadata.snapshots m)) m) s) st).
  { apply wp_run in Hwp as (r & s & Heq & -> & H). by exists s. }
  unfold save_snapshot. apply wp_bind.
  eapply wp_eq; [by apply get_serial_some|]. cbv beta iota.
  rewrite truthy_serial. cbn [negb].
  apply wp_bind, wp_get. apply wp_bind, wp_run_tool.
  cbn [returncode]. unfold after_save.
  destruct (decide (returncode reply = 0)) as [Hrc|Hrc].
  - rewrite bool_decide_true by done.
    apply wp_bind. eapply wp_eq; [by eapply stores_get_session|].
    apply wp_bind. eapply wp_eq; [by eapply stores_load|].
    apply wp_bind. cbv beta iota.
    destruct (decide (n ∉ SessionMetadata.snapshots m)) as [Hn|Hn].
    + rewrite decide_True by done.
      destruct (stores_save id m (set_snapshots (SessionMetadata.snapshots m ++ [n]) m)
                  (with_log (log st ++ [Run [adb_bin st; "-s";
                     default EmptyStr (Some (serial_of port)); "emu"; "avd";
                     "snapshot"; "save"; n]]) st) Hst) as (d & Hsave & Hst').
      eapply wp_eq; [exact Hsave|]. apply wp_ret.
      split; [done|]. split; [repeat (split; [reflexivity|]); by apply prefix_app_r | exact Hst'].
    + rewrite decide_False by tauto. apply wp_ret, wp_ret.
      split; [done|]. split; [repeat (split; [reflexivity|]); by apply prefix_app_r|]. by rewrite set_snapshots_same.
  - rewrite bool_decide_false, decide_False by tauto. apply wp_ret.
    split; [done|]. split; [repeat (split; [reflexivity|]); by apply prefix_app_r|]. by rewrite set_snapshots_same.
Qed.

Lemma delete_snapshot_stored id n reply port m st :
  stable_record m = true ->
  _ports st !! id = Some port ->
  stores id m st ->
  exists s,
    delete_snapshot id n (Completes reply) st = (Ok (bool_decide (returncode reply = 0)), s) /\
    keeps st s /\
    stores id (set_snapshots
                 (after_delete n (returncode reply) (SessionMetadata.snapshots m)) m) s.
Proof.
  intros Hm Hport Hst.
  enough (Hwp : wp (delete_snapshot id n (Completes reply))
            (fun r s => r = Ok (bool_decide (returncode reply = 0)) /\ keeps st s /\
               stores id (set_snapshots
                 (after_delete n (returncode reply) (SessionMetadata.snapshots m)) m) s) st).
  { apply wp_run in Hwp as (r & s & Heq & -> & H). by exists s. }
  unfold delete_snapshot. apply wp_bind.
  eapply wp_eq; [by apply get_serial_some|]. cbv beta iota.
  rewrite truthy_serial. cbn [negb].
  apply wp_bind, wp_get. apply wp_bind, wp_run_tool.
  cbn [returncode]. unfold after_delete.
  destruct (decide (returncode reply = 0)) as [Hrc|Hrc].
  - rewrite bool_decide_true by done.
    apply wp_bind. eapply wp_eq; [by eapply stores_get_session|].
    apply wp_bind. eapply wp_eq; [by eapply stores_load|].
    apply wp_bind. cbv beta iota.
    destruct (decide (n ∈ SessionMetadata.snapshots m)) as [Hn|Hn].
    + rewrite decide_True by done.
      destruct (stores_save id m
                  (set_snapshots (remove_first n (SessionMetadata.snapshots m)) m)
                  (with_log (log st ++ [Run [adb_bin st; "-s";
                     default EmptyStr (Some (serial_of port)); "emu"; "avd";
                     "snapshot"; "delete"; n]]) st) Hst) as (d & Hsave & Hst').
      eapply wp_eq; [exact Hsave|]. apply wp_ret.
      split; [done|]. split; [repeat (split; [reflexivity|]); by apply prefix_app_r | exact Hst'].
    + rewrite decide_False by tauto. apply wp_ret, wp_ret.
      split; [done|]. split; [repeat (split; [reflexivity|]); by apply prefix_app_r|]. by rewrite set_snapshots_same.
  - rewrite bool_decide_false, decide_False by tauto. apply wp_ret.
    split; [done|]. split; [repeat (split; [reflexivity|]); by apply prefix_app_r|]. by rewrite set_snapshots_same.
Qed.

Lemma list_snapshots_running id reply port st :
  _ports st !! id = Some port ->
  exists s, list_snapshots id (Completes reply) st = (Ok (parse_snapshot_list (stdout reply)), s) /\
            keeps st s /\ disk s = disk st.
Proof.
  intros Hport.
  enough (Hwp : wp (list_snapshots id (Completes reply))
            (fun r s => r = Ok (parse_snapshot_list (stdout reply)) /\ keeps st s /\
                        disk s = disk st) st).
  { apply wp_run in Hwp as (r & s & Heq & -> & H). by exists s. }
  unfold list_snapshots. apply wp_bind.
  eapply wp_eq; [by apply get_serial_some|]. cbv beta iota.
  rewrite truthy_serial. cbn [negb].
  apply wp_bind, wp_get. apply wp_bind, wp_run_tool. apply wp_ret.
  split; [done|]. split; [repeat (split; [reflexivity|]); by apply prefix_app_r | done].
Qed.

Lemma list_snapshots_stopped id reply m st :
  stable_record m = true ->
  _ports st !! id = None ->
  stores id m st ->
  list_snapshots id reply st = (Ok (SessionMetadata.snapshots m), st).
Proof.
  intros Hm Hport Hst. unfold list_snapshots.
  unfold bind at 1. rewrite (get_serial_none _ _ Hport). cbn [truthy negb].
  unfold bind at 1. rewrite (stores_get_session _ _ _ Hst).
  unfold bind. by rewrite (stores_load _ _ _ Hm Hst).
Qed.

Lemma remove_first_NoDup n l : NoDup l -> n ∉ remove_first n l.
Proof.
  induction 1 as [|x l Hx Hl IH]; cbn [remove_first]; [set_solver|].
  destruct (decide (n = x)) as [->|Hne]; [done|].
  intros [?|?]%elem_of_cons; [done | by apply IH].
Qed.

Lemma after_save_elem n l : n ∈ after_save n 0 l.
Proof.
  unfold after_save. destruct (decide (n ∈ l)).
  - by rewrite decide_False by tauto.
  - rewrite decide_True by done. apply elem_of_app. right. apply elem_of_cons. by left.
Qed.

Lemma after_delete_not_elem n l : NoDup l -> n ∉ after_delete n 0 l.
Proof.
  intros Hnd. unfold after_delete. destruct (decide (n ∈ l)).
  - rewrite decide_True by done. by apply remove_first_NoDup.
  - by rewrite decide_False by tauto.
Qed.

(** ** The check made by the operations on a running session *)

Ltac quiet_io :=
  repeat first
    [ apply quiet_ret | apply quiet_get | apply quiet_run, tool_error_io
    | apply quiet_get_session | apply quiet_load_metadata
    | apply quiet_save_metadata
    | apply quiet_bind; [|intros ?]
    | match goal with
      | |- quiet _ (if ?b then _ else _) => destruct b
      | |- quiet _ (match ?x with _ => _ end) => destruct x
      end ].

Lemma save_snapshot_no_port id n reply st :
  _ports st !! id = None ->
  save_snapshot id n reply st = (Raise (not_running id), st).
Proof.
  intros H. unfold save_snapshot, bind. by rewrite (get_serial_none _ _ H).
Qed.

Lemma load_snapshot_no_port id n reply st :
  _ports st !! id = None ->
  load_snapshot id n reply st = (Raise (not_running id), st).
Proof.
  intros H. unfold load_snapshot, bind. by rewrite (get_serial_none _ _ H).
Qed.

Lemma delete_snapshot_no_port id n reply st :
  _ports st !! id = None ->
  delete_snapshot id n reply st = (Raise (not_running id), st).
Proof.
  intros H. unfold delete_snapshot, bind. by rewrite (get_serial_none _ _ H).
Qed.

Lemma install_apk_no_port id apk e st :
  _ports st !! id = None ->
  install_apk id apk e st = (Raise (not_running id), st).
Proof.
  intros H. unfold install_apk, bind. by rewrite (get_serial_none _ _ H).
Qed.

Lemma list_installed_packages_no_port id reply st :
  _ports st !! id = None ->
  list_installed_packages id reply st = (Raise (not_running id), st).
Proof.
  intros H. unfold list_installed_packages, bind. by rewrite (get_serial_none _ _ H).
Qed.

Lemma io_error_not_not_running id e : io_error e -> e <> not_running id.
Proof. destruct e; cbn; done. Qed.

Lemma tool_error_not_not_running id e : tool_error e -> e <> not_running id.
Proof. destruct e; cbn; done. Qed.

(** With a port the command is sent, and only the bookkeeping can fail. *)
Lemma save_snapshot_with_port id n reply port st :
  _ports st !! id = Some port ->
  wp (save_snapshot id n reply)
     (fun r s => keeps st s /\
        Run [adb_bin st; "-s"; serial_of port; "emu"; "avd"; "snapshot"; "save"; n]
          ∈ log s /\
        forall e, r = Raise e -> io_error e) st.
Proof.
  intros Hport. unfold save_snapshot. apply wp_bind.
  eapply wp_eq; [by apply get_serial_some|]. cbv beta iota.
  rewrite truthy_serial. cbn [negb].
  apply wp_bind, wp_get. apply wp_bind, wp_run_any.
  2: { intros x Hx. split; [apply keeps_with_log|]. split.
       - cbn [log with_log]. apply elem_of_app. right. apply elem_of_cons. by left.
       - intros ? [= <-]. by apply tool_error_io. }
  intros r0 _.
  eapply (quiet_wp io_error); [quiet_io|].
  intros r s K E. split; [eapply keeps_trans; [apply keeps_with_log | exact K]|].
  split; [|exact E]. eapply keeps_log; [exact K|].
  cbn [log with_log]. apply elem_of_app. right. apply elem_of_cons. by left.
Qed.

Lemma delete_snapshot_with_port id n reply port st :
  _ports st !! id = Some port ->
  wp (delete_snapshot id n reply)
     (fun r s => keeps st s /\
        Run [adb_bin st; "-s"; serial_of port; "emu"; "avd"; "snapshot"; "delete"; n]
          ∈ log s /\
        forall e, r = Raise e -> io_error e) st.
Proof.
  intros Hport. unfold delete_snapshot. apply wp_bind.
  eapply wp_eq; [by apply get_serial_some|]. cbv beta iota.
  rewrite truthy_serial. cbn [negb].
  apply wp_bind, wp_get. apply wp_bind, wp_run_any.
  2: { intros x Hx. split; [apply keeps_with_log|]. split.
       - cbn [log with_log]. apply elem_of_app. right. apply elem_of_cons. by left.
       - intros ? [= <-]. by apply tool_error_io. }
  intros r0 _.
  eapply (quiet_wp io_error); [quiet_io|].
  intros r s K E. split; [eapply keeps_trans; [apply keeps_with_log | exact K]|].
  split; [|exact E]. eapply keeps_log; [exact K|].
  cbn [log with_log]. apply elem_of_app. right. apply elem_of_cons. by left.
Qed.

Lemma load_snapshot_with_port id n reply port st :
  _ports st !! id = Some port ->
  load_snapshot id n (Completes reply) st =
  (Ok (bool_decide (returncode reply = 0)),
   with_log (log st ++ [Run [adb_bin st; "-s"; serial_of port; "emu"; "avd";
                             "snapshot"; "load"; n]]) st).
Proof.
  intros Hport. unfold load_snapshot, bind. rewrite (get_serial_some _ _ _ Hport).
  rewrite truthy_serial. cbn [negb]. unfold get, run, bind, modify, ret.
  cbn [returncode]. destruct (decide (returncode reply = 0)).
  - by rewrite bool_decide_true.
  - by rewrite bool_decide_false.
Qed.

Lemma load_snapshot_sends id n reply port st :
  _ports st !! id = Some port ->
  wp (load_snapshot id n reply)
     (fun r s => keeps st s /\
        Run [adb_bin st; "-s"; serial_of port; "emu"; "avd"; "snapshot"; "load"; n]
          ∈ log s /\
        forall e, r = Raise e -> tool_error e) st.
Proof.
  intros Hport. unfold load_snapshot. apply wp_bind.
  eapply wp_eq; [by apply get_serial_some|]. cbv beta iota.
  rewrite truthy_serial. cbn [negb].
  apply wp_bind, wp_get. apply wp_bind, wp_run_any.
  - intros r0 _. destruct (decide (returncode r0 = 0)); apply wp_ret;
      (split; [apply keeps_with_log|]); (split; [|discriminate]);
      cbn [log with_log]; apply elem_of_app; right; apply elem_of_cons; by left.
  - intros x Hx. split; [apply keeps_with_log|]. split.
    + cbn [log with_log]. apply elem_of_app. right. apply elem_of_cons. by left.
    + by intros ? [= <-].
Qed.

Lemma install_apk_with_port id apk e port st :
  _ports st !! id = Some port ->
  wp (install_apk id apk e)
     (fun r s => keeps st s /\
        Run [adb_bin st; "-s"; serial_of port; "install"; "-r"; apk] ∈ log s /\
        r = install_result (install_reply e)) st.
Proof.
  intros Hport. unfold install_apk. apply wp_bind.
  eapply wp_eq; [by apply get_serial_some|]. cbv beta iota.
  rewrite truthy_serial. cbn [negb].
  apply wp_bind, wp_get. apply wp_bind.
  set (s0 := with_log (log st ++ [Run [adb_bin st; "-s";
                 default EmptyStr (Some (serial_of port)); "install"; "-r"; apk]]) st).
  assert (K0 : keeps st s0) by apply keeps_with_log.
  assert (L0 : Run [adb_bin st; "-s"; serial_of port; "install"; "-r"; apk] ∈ log s0).
  { unfold s0. cbn [log with_log]. apply elem_of_app. right. apply elem_of_cons. by left. }
  destruct (install_reply e) as [r0|errno|];
    [|by eapply wp_eq; [reflexivity|]..].
  eapply wp_eq; [reflexivity|]. fold s0. clearbody s0. cbn [install_result].
  destruct (decide (returncode r0 = 0)) as [Hrc|Hrc].
  2: { apply wp_ret. by rewrite bool_decide_false. }
  rewrite bool_decide_true by done.
  apply wp_bind, wp_try_except.
  eapply (quiet_wp (fun _ => True)).
  { apply quiet_bind; [by apply quiet_run|]. intros aapt.
    destruct (find _ _) as [line|]; [|apply quiet_ret].
    apply quiet_bind; [by apply quiet_lift|]. intros parts.
    apply quiet_bind; [by apply quiet_lift|]. intros rest.
    apply quiet_bind; [by apply quiet_lift|]. intros parts'.
    apply quiet_bind; [by apply quiet_lift|]. intros package.
    apply (quiet_weaken io_error); [done|]. quiet_io. }
  intros [[]|x] s K _.
  - apply wp_ret. split; [by eapply keeps_trans|]. split; [|done].
    by eapply keeps_log.
  - cbn [is_Exception]. apply wp_ret, wp_ret.
    split; [by eapply keeps_trans|]. split; [|done]. by eapply keeps_log.
Qed.

Lemma is_running_exited id p st :
  _processes st !! id = Some p -> p ∈ exited st -> is_running id st = (Ok false, st).
Proof.
  intros Hp Hex. unfold is_running, bind, get, ret. rewrite Hp.
  by rewrite bool_decide_false by tauto.
Qed.

Lemma is_running_unregistered id st :
  _processes st !! id = None -> is_running id st = (Ok false, st).
Proof. intros Hp. unfold is_running, bind, get, ret. by rewrite Hp. Qed.

(** ** Stopping every session *)

Lemma stop_each_spec ids e st :
  registry_inv st ->
  (forall id errno, id ∈ ids -> kill_reply (e id) <> Unstarted errno) ->
  exists s,
    stop_each ids e st = (Ok tt, s) /\
    registry_inv s /\
    (forall id, id ∈ ids -> _processes s !! id = None) /\
    (forall id, id ∉ ids -> _processes s !! id = _processes st !! id) /\
    (forall id, id ∈ ids -> id ∈ dom (_processes st) -> _ports s !! id = None) /\
    (forall id, id ∉ ids \/ id ∉ dom (_processes st) ->
                _ports s !! id = _ports st !! id) /\
    (forall id p, id ∈ ids -> _processes st !! id = Some p -> p ∈ exited s) /\
    exited st ⊆ exited s /\
    disk s = disk st.
Proof.
  revert st. induction ids as [|a ids IH]; intros st Hinv Hk.
  { exists st. split; [reflexivity|]. split; [exact Hinv|].
    split; [intros id Hin; by apply elem_of_nil in Hin|]. split; [done|].
    split; [intros id Hin; by apply elem_of_nil in Hin|]. split; [done|].
    split; [intros id p Hin; by apply elem_of_nil in Hin|]. done. }
  cbn [stop_each]. unfold bind.
  assert (Hk' : forall id errno, id ∈ ids -> kill_reply (e id) <> Unstarted errno).
  { intros id errno Hin. apply Hk, elem_of_cons. by right. }
  destruct (stop_cases st a (e a) Hinv) as [[Hp ->]|[H|H]].
  - destruct (IH st Hinv Hk') as (s & -> & Hinv' & P1 & P2 & Q1 & Q2 & X1 & X2 & D).
    exists s. split; [reflexivity|]. split; [exact Hinv'|].
    split; [|split; [|split; [|split; [|split; [|split]]]]]; try done.
    + intros id [->|Hin]%elem_of_cons; [|by apply P1].
      destruct (decide (a ∈ ids)); [by apply P1 | by rewrite P2].
    + intros id Hn. apply P2. intros Hin. apply Hn, elem_of_cons. by right.
    + intros id [->|Hin]%elem_of_cons Hd; [|by apply Q1].
      by apply not_elem_of_dom in Hp.
    + intros id [Hn|Hn]; apply Q2; [left|by right].
      intros Hin. apply Hn, elem_of_cons. by right.
    + intros id p [->|Hin]%elem_of_cons Hp'; [by rewrite Hp in Hp'|by eapply X1].
  - destruct H as (p & port & errno & _ & _ & Hu & _).
    destruct (Hk a errno); [apply elem_of_cons; by left | exact Hu].
  - destruct H as (p & port & s1 & Hp & Hport & _ & -> & Sp & Sq & Sd & _ & Sx & _).
    assert (Hinv1 : registry_inv s1).
    { unfold registry_inv. rewrite Sp, Sq, !dom_delete.
      intros x [Hx Hne]%elem_of_difference. apply elem_of_difference.
      split; [by apply Hinv | exact Hne]. }
    destruct (IH s1 Hinv1 Hk') as (s & -> & Hinv' & P1 & P2 & Q1 & Q2 & X1 & X2 & D).
    exists s. split; [reflexivity|]. split; [exact Hinv'|].
    split; [|split; [|split; [|split; [|split; [|split]]]]].
    + intros id [->|Hin]%elem_of_cons; [|by apply P1].
      destruct (decide (a ∈ ids)); [by apply P1|].
      by rewrite P2, Sp, lookup_delete_eq.
    + intros id Hn. rewrite P2, Sp.
      * apply lookup_delete_ne. intros ->. apply Hn, elem_of_cons. by left.
      * intros Hin. apply Hn, elem_of_cons. by right.
    + intros id Hin Hd. destruct (decide (id = a)) as [->|Hne].
      * destruct (decide (a ∈ ids ∧ a ∈ dom (_processes s1))) as [[? ?]|Hn];
          [by apply Q1|].
        rewrite Q2, Sq; [apply lookup_delete_eq|].
        destruct (decide (a ∈ ids)); [right|by left]. tauto.
      * apply elem_of_cons in Hin as [->|Hin]; [done|]. apply Q1; [done|].
        rewrite Sp, dom_delete. apply elem_of_difference. split; [done|].
        by intros ->%elem_of_singleton.
    + intros id Hn. assert (Hne : id <> a).
      { intros ->. destruct Hn as [Hn|Hn]; apply Hn;
          [apply elem_of_cons; by left | apply elem_of_dom; eauto]. }
      rewrite Q2, Sq; [by apply lookup_delete_ne|].
      destruct Hn as [Hn|Hn]; [left|right].
      * intros Hin. apply Hn, elem_of_cons. by right.
      * rewrite Sp, dom_delete. intros [? _]%elem_of_difference. by apply Hn.
    + intros id p' [->|Hin]%elem_of_cons Hp'.
      * rewrite Hp in Hp'. simplify_eq. apply X2. rewrite Sx.
        apply elem_of_union. left. by apply elem_of_singleton.
      * destruct (decide (id = a)) as [->|Hne].
        -- rewrite Hp in Hp'. simplify_eq. apply X2. rewrite Sx.
           apply elem_of_union. left. by apply elem_of_singleton.
        -- apply (X1 id p' Hin). by rewrite Sp, lookup_delete_ne.
    + etrans; [|exact X2]. rewrite Sx. apply union_subseteq_r.
    + by rewrite D, Sd.
Qed.

Lemma keys_elem {V} (m : gmap pystr V) id : id ∈ (map_to_list m).*1 <-> id ∈ dom m.
Proof.
  rewrite list_elem_of_fmap, elem_of_dom. split.
  - intros ([k v] & -> & Hin). apply elem_of_map_to_list in Hin. eauto.
  - intros [v Hv]. exists (id, v). split; [done|]. by apply elem_of_map_to_list.
Qed.

(** ** The constructor *)

Lemma is_dir_top c d :
  is_dir d [c] = match d !! c with Some (Dir _) => true | _ => false end.
Proof. unfold is_dir, lookup_path. cbn [lookup_node]. by destruct (d !! c) as [[|]|]. Qed.

Lemma mkdir_exist_ok_top c d :
  mkdir_exist_ok [c] d =
  match d !! c with
  | Some (Dir _) => Ok d
  | Some (File _) => Raise (OSError EEXIST)
  | None => Ok (<[c := Dir ∅]> d)
  end.
Proof.
  unfold mkdir_exist_ok. rewrite is_dir_top. cbn [mkdir_parents mkdir_at].
  by destruct (d !! c) as [[|]|].
Qed.

Lemma mkdir_exist_ok_spec c d d' :
  mkdir_exist_ok [c] d = Ok d' ->
  is_dir d' [c] = true /\
  (forall k, is_Some (d !! k) -> d' !! k = d !! k) /\
  (forall k, is_dir d [k] = true -> is_dir d' [k] = true) /\
  (forall data, d !! c <> Some (File data)).
Proof.
  rewrite mkdir_exist_ok_top. destruct (d !! c) as [[data|m]|] eqn:Hc;
    intros H; simplify_eq.
  - rewrite is_dir_top, Hc. repeat split; try done.
  - rewrite is_dir_top, lookup_insert_eq. split; [done|]. split; [|split; [|done]].
    + intros k [n Hk]. rewrite lookup_insert_ne; [done|]. intros ->. by rewrite Hc in Hk.
    + intros k. rewrite !is_dir_top. destruct (decide (k = c)) as [->|Hne].
      * by rewrite Hc.
      * by rewrite lookup_insert_ne.
Qed.

Lemma mkdir_exist_ok_again c d : is_dir d [c] = true -> mkdir_exist_ok [c] d = Ok d.
Proof. intros H. unfold mkdir_exist_ok. by rewrite H. Qed.

(** ** The boot watcher *)

Lemma wait_device_fuel e serial timeout fuel1 fuel2 i elapsed st :
  (Z.to_nat (timeout - elapsed) <= fuel1)%nat ->
  (Z.to_nat (timeout - elapsed) <= fuel2)%nat ->
  wait_device e serial timeout fuel1 i elapsed st =
  wait_device e serial timeout fuel2 i elapsed st.
Proof.
  revert fuel2 i elapsed st.
  induction fuel1 as [|fuel1 IH]; intros fuel2 i elapsed st H1 H2;
    destruct fuel2 as [|fuel2]; cbn [wait_device];
    destruct (elapsed <? timeout) eqn:Hlt; try reflexivity;
    try (apply Z.ltb_lt in Hlt; lia).
  apply Z.ltb_lt in Hlt.
  unfold run. unfold bind, get, modify, ret, raise, lift. cbv beta iota.
  destruct (devices_poll e i).2 as [r|errno|]; cbv beta iota; try reflexivity.
  destruct (device_listed serial (stdout r)) as [[]|x]; cbv beta iota;
    try reflexivity.
  apply IH; lia.
Qed.

Lemma wait_completed_fuel e serial timeout fuel1 fuel2 i elapsed st :
  (Z.to_nat (timeout - elapsed) <= fuel1)%nat ->
  (Z.to_nat (timeout - elapsed) <= fuel2)%nat ->
  wait_completed e serial timeout fuel1 i elapsed st =
  wait_completed e serial timeout fuel2 i elapsed st.
Proof.
  revert fuel2 i elapsed st.
  induction fuel1 as [|fuel1 IH]; intros fuel2 i elapsed st H1 H2;
    destruct fuel2 as [|fuel2]; cbn [wait_completed];
    destruct (elapsed <? timeout) eqn:Hlt; try reflexivity;
    try (apply Z.ltb_lt in Hlt; lia).
  apply Z.ltb_lt in Hlt.
  unfold run. unfold bind, get, modify, ret, raise. cbv beta iota.
  destruct (bootprop_poll e i).2 as [r|errno|]; cbv beta iota; try reflexivity.
  destruct (decide (Py.strip (stdout r) = "1")); [reflexivity|].
  apply IH; lia.
Qed.

Lemma wait_device_elapsed e serial timeout fuel i elapsed st el s :
  wait_device e serial timeout fuel i elapsed st = (Ok (Some el), s) -> elapsed <= el.
Proof.
  revert i elapsed st. induction fuel as [|fuel IH]; intros i elapsed st;
    cbn [wait_device]; destruct (elapsed <? timeout); try discriminate.
  unfold run. unfold bind, get, modify, ret, raise, lift. cbv beta iota.
  destruct (devices_poll e i).2 as [r|errno|]; cbv beta iota; try discriminate.
  destruct (device_listed serial (stdout r)) as [[]|x]; cbv beta iota;
    try discriminate.
  - intros [= <- _]. lia.
  - intros H%IH. lia.
Qed.

Lemma with_log_nil st : with_log (log st ++ []) st = st.
Proof. rewrite app_nil_r. by destruct st. Qed.

Lemma with_log_app l l' st :
  with_log (log (with_log (log st ++ l) st) ++ l') (with_log (log st ++ l) st) =
  with_log (log st ++ l ++ l') st.
Proof. cbn [log with_log]. unfold with_log. cbn. by rewrite (assoc_L (++)). Qed.

(** The loops of the boot watcher only run [adb], once a turn. *)
Lemma wait_device_runs e serial timeout fuel i elapsed st :
  exists r l,
    wait_device e serial timeout fuel i elapsed st = (r, with_log (log st ++ l) st) /\
    (length l <= fuel)%nat /\
    (timeout <= elapsed -> r = Ok None /\ l = []).
Proof.
  revert i elapsed st. induction fuel as [|fuel IH]; intros i elapsed st;
    cbn [wait_device]; destruct (elapsed <? timeout) eqn:Hlt;
    try (exists (Ok None), []; rewrite with_log_nil; split; [reflexivity|];
         split; [cbn; lia | done]).
  apply Z.ltb_lt in Hlt.
  unfold run. unfold bind, get, modify, ret, raise, lift. cbv beta iota.
  destruct (devices_poll e i).2 as [r0|errno|]; cbv beta iota;
    try (eexists _, [_]; split; [reflexivity|]; split; [cbn; lia | lia]).
  destruct (device_listed serial (stdout r0)) as [[]|x]; cbv beta iota;
    try (eexists _, [_]; split; [reflexivity|]; split; [cbn; lia | lia]).
  destruct (IH (S i) (elapsed + Z.of_nat (devices_poll e i).1 + 2)
              (with_log (log st ++ [Run [adb_bin st; "devices"]]) st))
    as (r & l & -> & Hlen & _).
  exists r, (Run [adb_bin st; "devices"] :: l). rewrite with_log_app.
  split; [reflexivity|]. split; [cbn; lia | lia].
Qed.

Lemma wait_completed_runs e serial timeout fuel i elapsed st :
  exists r l,
    wait_completed e serial timeout fuel i elapsed st =
      (r, with_log (log st ++ l) st) /\
    (length l <= fuel)%nat /\
    (timeout <= elapsed -> r = Ok false /\ l = []).
Proof.
  revert i elapsed st. induction fuel as [|fuel IH]; intros i elapsed st;
    cbn [wait_completed]; destruct (elapsed <? timeout) eqn:Hlt;
    try (exists (Ok false), []; rewrite with_log_nil; split; [reflexivity|];
         split; [cbn; lia | done]).
  apply Z.ltb_lt in Hlt.
  unfold run. unfold bind, get, modify, ret, raise. cbv beta iota.
  destruct (bootprop_poll e i).2 as [r0|errno|]; cbv beta iota;
    try (eexists _, [_]; split; [reflexivity|]; split; [cbn; lia | lia]).
  destruct (decide (Py.strip (stdout r0) = "1")).
  - eexists _, [_]. split; [reflexivity|]. split; [cbn; lia | lia].
  - destruct (IH (S i) (elapsed + Z.of_nat (bootprop_poll e i).1 + 2)
                (with_log (log st ++ [Run [adb_bin st; "-s"; serial; "shell";
                   "getprop"; "sys.boot_completed"]]) st))
      as (r & l & -> & Hlen & _).
    eexists r, (_ :: l). rewrite with_log_app.
    split; [reflexivity|]. split; [cbn; lia | lia].
Qed.

(** ** Reading the session store *)

Lemma load_metadata_state dir st : (_load_metadata dir st).2 = st.
Proof.
  destruct dir as [dir|]; [|reflexivity].
  unfold _load_metadata, bind, get, lift, ret.
  destruct (path_exists _ _); [|reflexivity].
  destruct (read_file _ _); [|reflexivity]. cbn [fst snd].
  destruct (Json.loads _); [|reflexivity].
  by destruct (from_dict _).
Qed.

Lemma list_sessions_from_state entries acc st :
  (list_sessions_from entries acc st).2 = st.
Proof.
  revert acc. induction entries as [|name rest IH]; intros acc; [reflexivity|].
  cbn [list_sessions_from]. unfold bind at 1. cbn [get].
  destruct (is_dir _ _); [|apply IH].
  unfold bind.
  pose proof (load_metadata_state (Some (sessions_dir ++ [name])) st) as Hst.
  destruct (_load_metadata _ st) as [[[m|]|x] s]; cbn [snd] in Hst; subst s;
    [apply IH | apply IH | reflexivity].
Qed.

Lemma list_sessions_state st : (list_sessions st).2 = st.
Proof.
  unfold list_sessions, bind, get, lift.
  destruct (iterdir _ _); [apply list_sessions_from_state | reflexivity].
Qed.

Lemma load_metadata_undecodable st dir m text :
  lookup_path (disk st) dir = Some (Dir m) ->
  m !! "metadata.json" = Some (File text) ->
  Json.loads text = Raise JSONDecodeError ->
  _load_metadata (Some dir) st = (Raise JSONDecodeError, st).
Proof.
  intros Hl Hn Hbad. unfold _load_metadata, bind, get, lift, ret, path_exists.
  rewrite (lookup_path_child _ _ _ _ Hl), Hn.
  by rewrite (read_file_child _ _ _ _ _ Hl Hn), Hbad.
Qed.

Lemma list_sessions_from_undecodable entries acc st name sm dm text :
  lookup_path (disk st) sessions_dir = Some (Dir sm) ->
  sm !! name = Some (Dir dm) ->
  dm !! "metadata.json" = Some (File text) ->
  Json.loads text = Raise JSONDecodeError ->
  name ∈ entries ->
  exists x, list_sessions_from entries acc st = (Raise x, st) /\ io_error x.
Proof.
  intros Hs Hname Hfile Hbad. revert acc.
  induction entries as [|a rest IH]; intros acc Hin; [by apply elem_of_nil in Hin|].
  assert (Hdir : lookup_path (disk st) (sessions_dir ++ [name]) = Some (Dir dm)).
  { by rewrite (lookup_path_child _ _ _ _ Hs). }
  cbn [list_sessions_from]. unfold bind at 1. cbn [get].
  destruct (decide (a = name)) as [->|Hne].
  - unfold is_dir. rewrite Hdir. unfold bind.
    rewrite (load_metadata_undecodable _ _ _ _ Hdir Hfile Hbad). by eexists.
  - apply elem_of_cons in Hin as [->|Hin]; [done|].
    destruct (is_dir _ _); [|by apply IH].
    unfold bind.
    pose proof (load_metadata_state (Some (sessions_dir ++ [a])) st) as Hst.
    pose proof (quiet_load_metadata (Some (sessions_dir ++ [a])) st) as [_ Hio].
    destruct (_load_metadata _ st) as [[[m|]|x] s]; cbn [fst snd] in *; subst s;
      [by apply IH | by apply IH |].
    exists x. split; [reflexivity|]. by apply Hio.
Qed.

Lemma persisted_lookup st sm a :
  lookup_path (disk st) sessions_dir = Some (Dir sm) ->
  persisted a st =
  match sm !! a with
  | Some (Dir dm) =>
      match dm !! "metadata.json" with
      | Some (File text) =>
          match rbind (Json.loads text) from_dict with
          | Ok m => Some m
          | Raise _ => None
          end
      | _ => None
      end
  | _ => None
  end.
Proof.
  intros Hs.
  unfold persisted, _load_metadata, bind, get, lift, ret, path_exists, read_file.
  change ((sessions_dir ++ [a]) ++ ["metadata.json"])
    with (sessions_dir ++ [a] ++ ["metadata.json"]).
  unfold lookup_path in *. rewrite lookup_node_app, Hs. cbn [app lookup_node].
  destruct (sm !! a) as [[|dm]|]; try reflexivity.
  destruct (dm !! "metadata.json") as [[text|]|]; try reflexivity.
  cbn [fst snd]. destruct (Json.loads text) as [data|]; [|reflexivity].
  cbn [rbind fst snd]. by destruct (from_dict data).
Qed.

Lemma persisted_well_kept st sm name m :
  lookup_path (disk st) sessions_dir = Some (Dir sm) ->
  well_kept sm ->
  persisted name st = Some m -> stable_record m = true /\ stores name m st.
Proof.
  intros Hs Hwk.
  rewrite (persisted_lookup _ _ _ Hs).
  destruct (sm !! name) as [[|dm]|] eqn:Hn; try discriminate.
  destruct (Hwk name dm Hn) as [->|(m' & Hst & Hm')]; [discriminate|].
  rewrite Hm', loads_dumps by (by apply stable_asdict).
  cbn [rbind]. rewrite from_dict_asdict.
  intros [= <-]. split; [exact Hst|]. exists dm. split; [|exact Hm'].
  by rewrite (lookup_path_child _ _ _ _ Hs).
Qed.

(** In a well kept store the loop collects what [persisted] finds. *)
Lemma list_sessions_from_well_kept entries acc st sm :
  lookup_path (disk st) sessions_dir = Some (Dir sm) ->
  well_kept sm ->
  list_sessions_from entries acc st =
  (Ok (acc ++ omap (fun name => persisted name st) entries), st).
Proof.
  intros Hs Hwk. revert acc.
  induction entries as [|a rest IH]; intros acc; cbn [list_sessions_from].
  { change (omap _ []) with (@nil SessionMetadata.t). by rewrite app_nil_r. }
  change (omap (fun name => persisted name st) (a :: rest))
    with (match persisted a st with
          | Some y => y :: omap (fun name => persisted name st) rest
          | None => omap (fun name => persisted name st) rest
          end).
  unfold bind at 1. cbn [get]. unfold is_dir.
  rewrite (lookup_path_child _ _ _ _ Hs).
  pose proof (persisted_lookup st sm a Hs) as Hp.
  destruct (sm !! a) as [[data|dm]|] eqn:Ha.
  - rewrite Hp. apply IH.
  - destruct (Hwk a dm Ha) as [Hnone|(m & Hsm & Hm)].
    + assert (Hdir : lookup_path (disk st) (sessions_dir ++ [a]) = Some (Dir dm)).
      { by rewrite (lookup_path_child _ _ _ _ Hs). }
      unfold bind. rewrite (load_metadata_absent _ _ _ Hdir Hnone).
      rewrite Hp, Hnone. apply IH.
    + assert (Hst : stores a m st).
      { exists dm. split; [by rewrite (lookup_path_child _ _ _ _ Hs)|done]. }
      unfold bind. rewrite (stores_load _ _ _ Hsm Hst).
      rewrite (stores_persisted _ _ _ Hsm Hst). rewrite IH.
      by rewrite <- (assoc_L (++)).
  - rewrite Hp. apply IH.
Qed.

Lemma stores_in_store name m st sm :
  lookup_path (disk st) sessions_dir = Some (Dir sm) ->
  stores name m st -> name ∈ dom sm.
Proof.
  intros Hs (dm & Hl & _). rewrite (lookup_path_child _ _ _ _ Hs) in Hl.
  apply elem_of_dom. eauto.
Qed.

Lemma remove_first_app n l : n ∉ l -> remove_first n (l ++ [n]) = l.
Proof.
  induction l as [|x l IH]; intros Hn; cbn [app remove_first].
  - by rewrite decide_True.
  - rewrite decide_False; [|intros ->; apply Hn, elem_of_cons; by left].
    rewrite IH; [done|]. intros H. apply Hn, elem_of_cons. by right.
Qed.
Lemma run_disk argv reply st : disk (run argv reply st).2 = disk st.
Proof.
  unfold run, bind, modify, ret, raise. cbv beta iota. by destruct reply.
Qed.

Lemma ensure_system_image_disk img e st :
  disk (ensure_system_image img e st).2 = disk st.
Proof.
  unfold ensure_system_image. unfold bind at 1. unfold get. unfold bind at 1.
  pose proof (run_disk [sdkmanager_bin st; "--list_installed"] (list_installed e) st) as H1.
  destruct (run _ (list_installed e) st) as [[r|x] s1]; cbn [snd] in *; [|done].
  destruct (Py.contains _ _); [exact H1|]. unfold bind.
  pose proof (run_disk [sdkmanager_bin st; img] (install_image e) s1) as H2.
  destruct (run _ (install_image e) s1) as [[r'|x] s2]; unfold ret;
    cbn [snd] in *; congruence.
Qed.

Lemma create_base_avd_disk config e st : disk (create_base_avd config e st).2 = disk st.
Proof.
  unfold create_base_avd. unfold bind at 1.
  pose proof (ensure_system_image_disk (EmulatorConfig.system_image config) e st) as H0.
  destruct (ensure_system_image _ e st) as [[ok|x] s0]; cbn [snd] in *; [|done].
  destruct ok; cbn [negb]; [|exact H0].
  unfold bind at 1. unfold get. unfold bind at 1.
  pose proof (run_disk [avdmanager_bin s0; "list"; "avd"; "-c"] (list_avd e) s0) as H1.
  destruct (run _ (list_avd e) s0) as [[r|x] s1]; cbn [snd] in *; [|congruence].
  destruct (bool_decide _); [unfold ret; cbn [snd]; congruence|]. unfold bind.
  match goal with |- context [run ?argv (create_avd e) s1] =>
    pose proof (run_disk argv (create_avd e) s1) as H2;
    destruct (run argv (create_avd e) s1) as [[r'|x] s2] end;
    cbn [snd] in *; [|congruence].
  destruct (decide _); unfold ret, raise; cbn [snd]; congruence.
Qed.

Lemma ensure_system_image_ok img e st b s :
  ensure_system_image img e st = (Ok b, s) ->
  b = true \/ (b = false /\ exists r, install_image e = Completes r /\ returncode r <> 0).
Proof.
  unfold ensure_system_image, run. unfold bind, get, modify, ret, raise. cbv beta iota.
  destruct (list_installed e) as [r|errno|]; cbv beta iota; try discriminate.
  destruct (Py.contains _ _); [intros [= <- _]; by left|].
  destruct (install_image e) as [r'|errno|]; cbv beta iota; try discriminate.
  intros [= <- _]. destruct (decide (returncode r' = 0)).
  - left. by rewrite bool_decide_true.
  - right. rewrite bool_decide_false by done. split; [done|]. by exists r'.
Qed.

Lemma create_base_avd_true config e st b :
  (create_base_avd config e st).1 = Ok b -> b = true.
Proof.
  unfold create_base_avd. unfold bind at 1.
  destruct (ensure_system_image _ e st) as [[ok|x] s0]; [|discriminate].
  destruct ok; cbn [negb]; [|discriminate].
  unfold run. unfold bind, get, modify, ret, raise. cbv beta iota.
  destruct (list_avd e) as [r|errno|]; cbv beta iota; try discriminate.
  destruct (bool_decide _); cbv beta iota; [by intros [= <-]|].
  destruct (create_avd e) as [r'|errno|]; cbv beta iota; try discriminate.
  destruct (decide _); cbn [fst]; [discriminate | by intros [= <-]].
Qed.

Lemma create_base_avd_present config e st installed avds :
  list_installed e = Completes installed ->
  list_avd e = Completes avds ->
  Py.contains (EmulatorConfig.system_image config) (stdout installed) = true ->
  EmulatorConfig.avd_name config ∈ Py.lines (stdout avds) ->
  create_base_avd config e st =
  (Ok true, with_log (log st ++ [Run [sdkmanager_bin st; "--list_installed"];
                                 Run [avdmanager_bin st; "list"; "avd"; "-c"]]) st).
Proof.
  intros Hi Ha Himg Havd.
  unfold create_base_avd, ensure_system_image, run.
  unfold bind, get, modify, ret, raise.
  cbv beta iota. rewrite Hi. cbv beta iota. rewrite Himg. cbv beta iota. cbn [negb].
  rewrite Ha. cbv beta iota.
  rewrite bool_decide_true by done. cbv beta iota.
  unfold with_log. cbn. by rewrite <- (assoc_L (++)).
Qed.

Lemma set_snapshots_twice l l' m : set_snapshots l (set_snapshots l' m) = set_snapshots l m.
Proof. by destruct m. Qed.

Lemma snapshots_set_snapshots l m : SessionMetadata.snapshots (set_snapshots l m) = l.
Proof. by destruct m. Qed.

Lemma after_save_NoDup n rc l : NoDup l -> NoDup (after_save n rc l).
Proof.
  intros Hnd. unfold after_save. destruct (decide _) as [[_ Hn]|_]; [|done].
  apply NoDup_app. split; [done|]. split; [|apply NoDup_singleton].
  intros x Hx Hx'. apply list_elem_of_singleton in Hx'. by subst.
Qed.

Lemma after_save_twice n rc l : after_save n rc (after_save n 0 l) = after_save n 0 l.
Proof.
  unfold after_save at 1. rewrite decide_False; [done|].
  intros [_ Hn]. apply Hn, after_save_elem.
Qed.

(** ** Strings: reversal, stripping, splitting *)

Lemma sapp_nil_r s : s +:+ EmptyStr = s.
Proof. induction s as [|a s IH]; [reflexivity|]. by rewrite sapp_cons, IH. Qed.

Lemma rev_cons a s : srev (Chr a s) = srev s +:+ Chr a EmptyStr.
Proof. reflexivity. Qed.

Lemma rev_sapp s t : srev (s +:+ t) = srev t +:+ srev s.
Proof.
  induction s as [|a s IH].
  - by rewrite sapp_nil, sapp_nil_r.
  - by rewrite sapp_cons, !rev_cons, IH, sapp_assoc.
Qed.

Lemma rev_rev s : srev (srev s) = s.
Proof.
  induction s as [|a s IH]; [reflexivity|].
  by rewrite rev_cons, rev_sapp, IH.
Qed.

Lemma nospace_app s t : nospace (s +:+ t) = nospace s && nospace t.
Proof.
  induction s as [|a s IH]; [reflexivity|].
  rewrite sapp_cons. cbn [nospace]. by rewrite IH, andb_assoc.
Qed.

Lemma nospace_rev s : nospace (srev s) = nospace s.
Proof.
  induction s as [|a s IH]; [reflexivity|].
  rewrite rev_cons, nospace_app, IH. cbn [nospace].
  by rewrite andb_true_r, andb_comm.
Qed.

Lemma lstrip_nospace s : nospace s = true -> Py.lstrip s = s.
Proof.
  destruct s as [|a s]; [reflexivity|]. cbn [nospace Py.lstrip].
  intros [Ha _]%andb_true_iff. by destruct (Py.isspace a).
Qed.

Lemma strip_nospace s : nospace s = true -> Py.strip s = s.
Proof.
  intros H. unfold Py.strip. rewrite (lstrip_nospace s H).
  rewrite lstrip_nospace by (by rewrite nospace_rev). apply rev_rev.
Qed.

(** [lstrip] drops a run of white space from the front. *)
Lemma lstrip_suffix s : exists pre, s = pre +:+ Py.lstrip s.
Proof.
  induction s as [|a s [pre IH]]; [by exists EmptyStr|].
  cbn [Py.lstrip]. destruct (Py.isspace a).
  - exists (Chr a pre). by rewrite sapp_cons, <- IH.
  - by exists EmptyStr.
Qed.

Lemma lstrip_head s c r : Py.lstrip s = Chr c r -> Py.isspace c = false.
Proof.
  induction s as [|a s IH]; [discriminate|]. cbn [Py.lstrip].
  destruct (Py.isspace a) eqn:Ha; [exact IH|]. by intros [= <- _].
Qed.

(** A stripped string does not start with white space. *)
Lemma strip_head s c r : Py.strip s = Chr c r -> Py.isspace c = false.
Proof.
  unfold Py.strip. intros H.
  destruct (lstrip_suffix (srev (Py.lstrip s))) as [pre Hpre].
  apply (f_equal srev) in Hpre. rewrite rev_rev, rev_sapp, H in Hpre.
  rewrite sapp_cons in Hpre. by eapply lstrip_head.
Qed.

(** *** [split] *)

Lemma startswith_app p s : Py.startswith p (p +:+ s) = true.
Proof.
  induction p as [|a p IH]; [reflexivity|].
  rewrite sapp_cons. cbn [Py.startswith]. by rewrite decide_True.
Qed.

Lemma split_go_skip sep t cur x :
  Py.split_go sep (slen t) cur (t +:+ x) = Py.split_go sep 0 cur x \/
  (x = EmptyStr /\ t <> EmptyStr).
Proof.
  induction t as [|a t IH]; [by left|].
  destruct x as [|b x]; [right; by split|]. left.
  rewrite sapp_cons. cbn [slen Py.split_go].
  destruct IH as [IH|[? _]]; [exact IH | discriminate].
Qed.

Lemma split_go_no_sep sep cur s :
  Py.contains sep s = false ->
  Py.split_go sep 0 cur s = [srev cur +:+ s].
Proof.
  revert cur. induction s as [|a s IH]; intros cur Hc; cbn [Py.split_go].
  { by rewrite sapp_nil_r. }
  cbn [Py.contains] in Hc. apply orb_false_iff in Hc as [Hs Hc].
  rewrite Hs, IH by done. rewrite rev_cons, sapp_assoc. reflexivity.
Qed.

(** A field that starts with the separator and has no other occurrence. *)
Lemma split_prefix sep x :
  sep <> EmptyStr ->
  x <> EmptyStr ->
  Py.contains sep x = false ->
  Py.fields sep (sep +:+ x) = [EmptyStr; x].
Proof.
  intros Hsep Hx Hc. unfold Py.fields.
  destruct sep as [|c sep]; [done|].
  rewrite sapp_cons. cbn [Py.split_go]. rewrite <- sapp_cons.
  rewrite startswith_app. cbn [slen Nat.pred].
  destruct (split_go_skip (Chr c sep) sep EmptyStr x) as [->|[? _]]; [|done].
  by rewrite split_go_no_sep.
Qed.

Lemma str_replace_prefix sep x :
  sep <> EmptyStr ->
  x <> EmptyStr ->
  Py.contains sep x = false ->
  str_replace sep EmptyStr (sep +:+ x) = x.
Proof.
  intros Hsep Hx Hc. unfold str_replace. by rewrite split_prefix.
Qed.

(** *** Lines *)

Lemma isspace_nl : Py.isspace 10 = true.
Proof. reflexivity. Qed.

Lemma split_go_line cur l rest :
  nospace l = true ->
  Py.split_go Py.nl 0 cur (l +:+ Py.nl +:+ rest) =
  (srev cur +:+ l) :: Py.split_go Py.nl 0 EmptyStr rest.
Proof.
  revert cur. induction l as [|a l IH]; intros cur Hl.
  - rewrite sapp_nil, sapp_nil_r. unfold Py.nl at 2. rewrite sapp_cons, sapp_nil.
    destruct rest as [|b rest]; cbn [Py.split_go]; unfold Py.nl;
      cbn [Py.startswith]; rewrite decide_True by done; reflexivity.
  - cbn [nospace] in Hl. apply andb_true_iff in Hl as [Ha Hl].
    rewrite sapp_cons. cbn [Py.split_go]. unfold Py.nl at 1. cbn [Py.startswith].
    rewrite decide_False.
    + rewrite IH by done. by rewrite rev_cons, sapp_assoc.
    + intros <-. by rewrite isspace_nl in Ha.
Qed.

Lemma lines_unlines ls :
  Forall (fun l => nospace l = true) ls ->
  Py.lines (unlines ls) = ls ++ [EmptyStr].
Proof.
  unfold Py.lines, Py.fields. induction 1 as [|l ls Hl _ IH]; [reflexivity|].
  cbn [unlines foldr]. fold (unlines ls). rewrite split_go_line by done.
  by rewrite IH.
Qed.

(** *** Words *)

Lemma words_go_some cur r :
  exists w r2 rest,
    Py.words_go (Some cur) r = (srev cur +:+ w) :: rest /\
    r = w +:+ r2 /\ nospace w = true.
Proof.
  revert cur. induction r as [|a r IH]; intros cur; cbn [Py.words_go].
  - exists EmptyStr, EmptyStr, []. by rewrite sapp_nil_r.
  - destruct (Py.isspace a) eqn:Ha.
    + exists EmptyStr, (Chr a r), (Py.words_go None r). by rewrite sapp_nil_r.
    + change (default EmptyStr (Some cur)) with cur.
      destruct (IH (Chr a cur)) as (w & r2 & rest & -> & -> & Hw).
      exists (Chr a w), r2, rest. cbn [nospace].
      rewrite rev_cons, sapp_assoc, Ha. by split.
Qed.

(** The first word of a string that starts with no white space is a
    prefix of it. *)
Lemma words_head c r w :
  Py.isspace c = false ->
  head (Py.words (Chr c r)) = Some w ->
  exists w' r2, w = Chr c w' /\ Chr c r = w +:+ r2 /\ nospace w = true.
Proof.
  intros Hc. unfold Py.words. cbn [Py.words_go]. rewrite Hc.
  change (default EmptyStr None) with EmptyStr.
  destruct (words_go_some (Chr c EmptyStr) r) as (w1 & r2 & rest & -> & -> & Hw).
  change (srev (Chr c EmptyStr) +:+ w1) with (Chr c w1).
  cbn [head]. intros [= <-]. exists w1, r2.
  split; [reflexivity|]. split; [reflexivity|]. cbn [nospace].
  by rewrite Hc.
Qed.

Lemma startswith_prefix p s t :
  Py.startswith p s = true -> Py.startswith p (s +:+ t) = true.
Proof.
  revert s. induction p as [|a p IH]; intros [|b s]; cbn [Py.startswith]; try done.
  rewrite sapp_cons. cbn [Py.startswith]. destruct (decide (a = b)); [apply IH|done].
Qed.

Lemma nospace_pkg n : nospace n = true -> nospace ("package:" +:+ n) = true.
Proof. intros H. by rewrite nospace_app, H. Qed.

Lemma omap_pm_lines names :
  Forall (fun n => n <> EmptyStr /\ nospace n = true /\
                   Py.contains "package:" n = false) names ->
  omap (fun line =>
          if Py.startswith "package:" line
          then Some (Py.strip (str_replace "package:" EmptyStr line))
          else None)
       (((fun n => "package:" +:+ n) <$> names) ++ [EmptyStr]) = names.
Proof.
  induction 1 as [|n names (Hne & Hns & Hc) _ IH]; [reflexivity|].
  rewrite fmap_cons.
  change (omap ?f ((?x :: ?l) ++ ?k))
    with (match f x with Some y => y :: omap f (l ++ k) | None => omap f (l ++ k) end).
  cbv beta. rewrite startswith_app, str_replace_prefix, strip_nospace by done.
  by rewrite IH.
Qed.

Lemma filter_avd_lines names :
  Forall (fun n => n <> EmptyStr /\ nospace n = true) names ->
  Py.strip <$>
    List.filter (fun avd => negb (bool_decide (Py.strip avd = EmptyStr)))
                (names ++ [EmptyStr]) = names.
Proof.
  induction 1 as [|n names (Hne & Hns) _ IH]; [reflexivity|].
  cbn [app List.filter]. rewrite strip_nospace by done.
  rewrite bool_decide_false by done. cbn [negb]. rewrite fmap_cons.
  by rewrite strip_nospace, IH.
Qed.

(** * The claims of the specification *)

(** C1 (code bug).  The specification has the allocator return the first
    even port of [5554, 5682) that the registry does not hold and whose
    control and console ports are free: on an empty registry with every
    port free, 5554.  The code makes both binds on one socket, so the
    second bind fails for every candidate, every candidate is skipped, and
    the allocator raises "No available emulator ports" whatever the
    registry holds and whatever ports are free. *)
Theorem find_available_port_never_returns :
  allocate_spec (fun _ => true) ∅ = Some 5554 /\
  forall free st, _find_available_port free st = (Raise no_ports, st).
Proof.
  split; [vm_compute; reflexivity|]. apply find_available_port_raises.
Qed.



(** C3 (corrected), the counterexample.  Session [s1] runs and there is no
    [adb] below [sdk_path]: the kill request cannot be started, [stop]
    raises the [OSError], and the session is still in both registries,
    its process running. *)
Lemma stop_raises_without_adb :
  exists s,
    stop "s1" ex_no_adb ex_running = (Raise (OSError ENOENT), s) /\
    ("s1" ∈ dom (_processes s)) /\ ("s1" ∈ dom (_ports s)) /\
    is_running "s1" s = (Ok true, s).
Proof.
  eexists. split; [vm_compute; reflexivity|].
  split; [apply (bool_decide_unpack _); vm_compute; exact I|].
  split; [apply (bool_decide_unpack _); vm_compute; exact I|].
  vm_compute. reflexivity.
Qed.

(** C3 (corrected), the amended claim.  In a state that satisfies the
    registry invariant (every state the manager reaches does):
    - for a session without a process [stop] returns false and changes
      nothing;
    - for a session with a process, when [adb] can be started for the kill
      request, [stop] returns true, the process has ended, and the session
      is gone from both registries, whether the request completed, failed
      or timed out and whether or not the process had to be killed;
    - [stop] raises only when [adb] cannot be started for the kill request
      of a session with a process: it passes the [OSError] on, and the
      registries and the processes are as they were. *)
Theorem stop_raises_only_without_adb id e st :
  registry_inv st ->
  (id ∉ dom (_processes st) -> stop id e st = (Ok false, st)) /\
  (forall p,
     _processes st !! id = Some p ->
     (forall errno, kill_reply e <> Unstarted errno) ->
     exists s, stop id e st = (Ok true, s) /\
       (id ∉ dom (_processes s)) /\ (id ∉ dom (_ports s)) /\
       _processes s = delete id (_processes st) /\
       _ports s = delete id (_ports st) /\
       (p ∈ exited s)) /\
  (forall x s,
     stop id e st = (Raise x, s) ->
     (id ∈ dom (_processes st)) /\
     (exists errno, kill_reply e = Unstarted errno /\ x = OSError errno) /\
     _processes s = _processes st /\ _ports s = _ports st /\
     exited s = exited st /\ disk s = disk st).
Proof.
  intros Hinv. split; [|split].
  - intros Hout. apply stop_unregistered. by apply not_elem_of_dom.
  - intros p Hp Hk.
    assert (Hd : id ∈ dom (_ports st)) by (apply Hinv, elem_of_dom; eauto).
    apply elem_of_dom in Hd as [port Hport].
    destruct (stop_registered st id e p port Hp Hport Hk)
      as (s & Hs & Sp & Sq & _ & _ & Sx & _).
    exists s. split; [exact Hs|].
    split; [apply not_elem_of_dom; by rewrite Sp, lookup_delete_eq|].
    split; [apply not_elem_of_dom; by rewrite Sq, lookup_delete_eq|].
    repeat (split; [done|]). rewrite Sx. apply elem_of_union. left.
    by apply elem_of_singleton.
  - intros x s Hs.
    destruct (stop_cases st id e Hinv) as [[_ H]|[H|H]].
    + rewrite H in Hs. discriminate.
    + destruct H as (p & port & errno & Hp & _ & Hk & H). rewrite H in Hs.
      simplify_eq. split; [apply elem_of_dom; eauto|].
      split; [by exists errno|]. done.
    + destruct H as (p & port & s' & _ & _ & _ & H & _). rewrite H in Hs.
      discriminate.
Qed.

Lemma stop_raises_only_without_adb_witness :
  exists s,
    stop "s1" ex_forced ex_running = (Ok true, s) /\
    ("s1" ∉ dom (_processes s)) /\ ("s1" ∉ dom (_ports s)) /\
    (0%nat ∈ exited s).
Proof.
  destruct (stop_raises_only_without_adb "s1" ex_forced ex_running) as (_ & H & _).
  { unfold registry_inv. apply (bool_decide_unpack _). vm_compute. exact I. }
  destruct (H 0%nat) as (s & Hs & Hp & Hq & _ & _ & Hx).
  - vm_compute. reflexivity.
  - intros errno. vm_compute. discriminate.
  - exists s. repeat (split; [assumption|]). assumption.
Defined.

(** C4.  [start] on a session that has a process returns the serial of the
    port it has, and leaves the state as it is: nothing is spawned, no
    port is taken, no entry changes. *)
Theorem start_idempotent id config wait_boot timeout e st :
  registry_inv st ->
  id ∈ dom (_processes st) ->
  exists port,
    _ports st !! id = Some port /\
    start id config wait_boot timeout e st = (Ok (serial_of port), st).
Proof.
  intros Hinv Hin. pose proof (Hinv id Hin) as Hd.
  apply elem_of_dom in Hd as [port Hport].
  exists port. split; [exact Hport|]. by apply start_registered.
Qed.

Lemma start_idempotent_witness :
  exists port,
    _ports ex_running !! "s1" = Some port /\
    start "s1" None true 120 ex_start ex_running = (Ok (serial_of port), ex_running).
Proof.
  apply (start_idempotent "s1" None true 120 ex_start ex_running).
  - unfold registry_inv. apply (bool_decide_unpack _). vm_compute. exact I.
  - apply (bool_decide_unpack _). vm_compute. exact I.
Defined.

(** C5.  [create_session] on an identifier whose directory exists raises
    "already exists" and leaves the whole state, the disk with it, as it
    was. *)
Theorem create_session_existing id config from_template e st :
  path_exists (disk st) (sessions_dir ++ [id]) = true ->
  create_session id config from_template e st = (Raise (already_exists id), st).
Proof.
  intros H. unfold create_session, bind, get, raise. by rewrite H.
Qed.

Lemma create_session_existing_witness :
  create_session "s1" (Some ex_config) (Some "base") ex_create ex_running =
  (Raise (already_exists "s1"), ex_running).
Proof.
  apply (create_session_existing "s1" (Some ex_config) (Some "base") ex_create ex_running).
  vm_compute. reflexivity.
Defined.



(** C8, counterexample.  A record whose notes are a high surrogate
    followed by a low one is written with two [\u] escapes, which are read
    back as the one character the pair stands for: the record read is not
    the record written. *)
Lemma metadata_pair_read_joined :
  exists s,
    _save_metadata (Some (sessions_dir ++ ["s1"])) ex_pair ex_running = (Ok tt, s) /\
    _load_metadata (Some (sessions_dir ++ ["s1"])) s = (Ok (Some ex_joined), s) /\
    ex_joined <> ex_pair.
Proof.
  eexists. split; [vm_compute; reflexivity|].
  split; [vm_compute; reflexivity | discriminate].
Qed.

(** C8, amended.  What [_save_metadata] writes into a session directory
    for a record in whose strings no high surrogate is followed by a low
    one, [_load_metadata] reads back as the same record, field by field.
    (The directory has to be there, and [metadata.json] must not be a
    directory.) *)
Theorem metadata_round_trip dir md st :
  stable_record md = true ->
  is_dir (disk st) dir = true ->
  is_dir (disk st) (dir ++ ["metadata.json"]) = false ->
  exists s,
    _save_metadata (Some dir) md st = (Ok tt, s) /\
    _load_metadata (Some dir) s = (Ok (Some md), s).
Proof.
  intros Hst Hdir Hfile. apply is_dir_inv in Hdir as [dm Hl].
  assert (Hn : forall m', dm !! "metadata.json" <> Some (Dir m')).
  { intros m' Hm. unfold is_dir in Hfile.
    by rewrite (lookup_path_child _ _ _ _ Hl), Hm in Hfile. }
  destruct (save_metadata_child st dir dm md Hl Hn) as (d & Hsave & Hl').
  exists (with_disk d st). split; [exact Hsave|].
  eapply load_metadata_child; [exact Hst | exact Hl' |]. apply lookup_insert_eq.
Qed.

Lemma metadata_round_trip_witness :
  exists s,
    _save_metadata (Some (sessions_dir ++ ["s1"]))
      (initial_metadata "s1" None ex_create) ex_running = (Ok tt, s) /\
    _load_metadata (Some (sessions_dir ++ ["s1"])) s =
      (Ok (Some (initial_metadata "s1" None ex_create)), s).
Proof.
  apply (metadata_round_trip (sessions_dir ++ ["s1"])
           (initial_metadata "s1" None ex_create) ex_running);
    vm_compute; reflexivity.
Defined.

(** C9.  For an identifier that is a file name and has no directory yet,
    [create_session] with a template (a file name as well) whose image is
    not there (the shared base image for ["base"], the user data of the
    named session otherwise) succeeds: the directory, its [snapshots]
    directory and the metadata file are made, the copy is skipped, and the
    new session has no user data image.  The metadata is read back as
    written when its strings are stable. *)
Theorem create_session_missing_template id config template e st :
  path_component id = true ->
  path_component template = true ->
  is_dir (disk st) sessions_dir = true ->
  path_exists (disk st) (sessions_dir ++ [id]) = false ->
  path_exists (disk st) (template_source template) = false ->
  exists s,
    create_session id config (Some template) e st = (Ok (sessions_dir ++ [id]), s) /\
    keeps st s /\
    is_dir (disk s) (sessions_dir ++ [id; "snapshots"]) = true /\
    path_exists (disk s) (sessions_dir ++ [id; "userdata.img"]) = false /\
    stores id (initial_metadata id config e) s /\
    (stable_record (initial_metadata id config e) = true ->
     _load_metadata (Some (sessions_dir ++ [id])) s =
       (Ok (Some (initial_metadata id config e)), s)).
Proof.
  intros _ _ Hdir Hfresh Hsrc. apply is_dir_inv in Hdir as [sm Hs].
  assert (Hid : sm !! id = None).
  { rewrite (path_exists_child _ _ _ _ Hs) in Hfresh.
    destruct (sm !! id) eqn:H; [|done]. by rewrite bool_decide_true in Hfresh. }
  destruct (create_session_fresh id config (Some template) e st sm Hs Hid)
    as (d & r & Hcreate & _ & dm & Hl & Hcase).
  assert (Hnode : template_node (Some template) (disk st) = None).
  { destruct template; [done|]. cbn [template_node]. unfold path_exists in Hsrc.
    by destruct (lookup_path (disk st) (template_source _)). }
  rewrite Hnode in Hcase. destruct Hcase as [-> ->].
  exists (with_disk d st). split; [exact Hcreate|].
  split; [apply keeps_with_disk|].
  assert (Hnew : lookup_path d (sessions_dir ++ [id]) =
                 Some (Dir (new_session_dir (initial_metadata id config e)))).
  { by rewrite (lookup_path_child _ _ _ _ Hl), lookup_insert_eq. }
  split; [|split; [|split]].
  - change (sessions_dir ++ [id; "snapshots"])
      with ((sessions_dir ++ [id]) ++ ["snapshots"]).
    unfold is_dir. cbn [disk with_disk].
    rewrite (lookup_path_child _ _ _ _ Hnew). unfold new_session_dir.
    by rewrite lookup_insert_ne, lookup_singleton_eq.
  - change (sessions_dir ++ [id; "userdata.img"])
      with ((sessions_dir ++ [id]) ++ ["userdata.img"]).
    unfold path_exists. cbn [disk with_disk].
    rewrite (lookup_path_child _ _ _ _ Hnew). unfold new_session_dir.
    by rewrite lookup_insert_ne, lookup_singleton_ne.
  - eexists. split; [exact Hnew|]. apply lookup_insert_eq.
  - intros Hst. eapply load_metadata_child; [exact Hst | exact Hnew |].
    apply lookup_insert_eq.
Qed.

Lemma create_session_missing_template_witness :
  exists s,
    create_session "s2" None (Some "base") ex_create ex_fresh =
      (Ok (sessions_dir ++ ["s2"]), s) /\
    keeps ex_fresh s /\
    is_dir (disk s) (sessions_dir ++ ["s2"; "snapshots"]) = true /\
    path_exists (disk s) (sessions_dir ++ ["s2"; "userdata.img"]) = false /\
    stores "s2" (initial_metadata "s2" None ex_create) s /\
    (stable_record (initial_metadata "s2" None ex_create) = true ->
     _load_metadata (Some (sessions_dir ++ ["s2"])) s =
       (Ok (Some (initial_metadata "s2" None ex_create)), s)).
Proof.
  apply (create_session_missing_template "s2" None "base" ex_create ex_fresh);
    vm_compute; reflexivity.
Defined.

(** C7 (code bug).  Session [s1] runs; [save_snapshot] succeeds and
    records [snap1] in the metadata; the instance then lists its snapshots
    as the emulator console does, in a table with a title, the column
    heads, a row for [snap1] and [OK].  [list_snapshots] returns the first
    word of the title and of the last line, and not [snap1], whose row
    starts with dashes and is taken for a rule. *)
Theorem list_snapshots_misses_saved :
  save_snapshot "s1" "snap1" (Completes ex_done) ex_running =
    (Ok true, (save_snapshot "s1" "snap1" (Completes ex_done) ex_running).2) /\
  (SessionMetadata.snapshots <$>
     persisted "s1" (save_snapshot "s1" "snap1" (Completes ex_done) ex_running).2) =
    Some ["snap1"] /\
  (list_snapshots "s1" (Completes ex_listing)
     (save_snapshot "s1" "snap1" (Completes ex_done) ex_running).2).1 =
    Ok ["List"; "OK"] /\
  ("snap1" ∉ ["List"; "OK"]).
Proof.
  split; [vm_compute; reflexivity|].
  split; [vm_compute; reflexivity|].
  split; [vm_compute; reflexivity|].
  apply (bool_decide_unpack _). vm_compute. exact I.
Qed.

(** C10.  [save_snapshot], [load_snapshot], [delete_snapshot] and
    [install_apk] raise "is not running" exactly when the session has no
    entry in [_ports].  The process is not asked: with an entry, and the
    process gone, [is_running] is false and each of the four still sends
    its command to the instance. *)
Theorem not_running_iff_no_port id n apk reply ie st :
  ((save_snapshot id n reply st).1 = Raise (not_running id) <-> _ports st !! id = None) /\
  ((load_snapshot id n reply st).1 = Raise (not_running id) <-> _ports st !! id = None) /\
  ((delete_snapshot id n reply st).1 = Raise (not_running id) <-> _ports st !! id = None) /\
  ((install_apk id apk ie st).1 = Raise (not_running id) <-> _ports st !! id = None) /\
  forall p port,
    _processes st !! id = Some p ->
    _ports st !! id = Some port ->
    p ∈ exited st ->
    is_running id st = (Ok false, st) /\
    (Run [adb_bin st; "-s"; serial_of port; "emu"; "avd"; "snapshot"; "save"; n]
       ∈ log (save_snapshot id n reply st).2) /\
    (Run [adb_bin st; "-s"; serial_of port; "emu"; "avd"; "snapshot"; "load"; n]
       ∈ log (load_snapshot id n reply st).2) /\
    (Run [adb_bin st; "-s"; serial_of port; "emu"; "avd"; "snapshot"; "delete"; n]
       ∈ log (delete_snapshot id n reply st).2) /\
    (Run [adb_bin st; "-s"; serial_of port; "install"; "-r"; apk]
       ∈ log (install_apk id apk ie st).2).
Proof.
  destruct (_ports st !! id) as [port|] eqn:Hport.
  - pose proof (save_snapshot_with_port id n reply port st Hport) as (_ & Ls & Es).
    pose proof (delete_snapshot_with_port id n reply port st Hport) as (_ & Ld & Ed).
    pose proof (install_apk_with_port id apk ie port st Hport) as (_ & Li & Ei).
    pose proof (load_snapshot_sends id n reply port st Hport) as (_ & Ll & El).
    repeat split; try discriminate.
    + intros H. by destruct (io_error_not_not_running id _ (Es _ H)).
    + intros H. by destruct (tool_error_not_not_running id _ (El _ H)).
    + intros H. by destruct (io_error_not_not_running id _ (Ed _ H)).
    + rewrite Ei. by destruct (install_reply ie).
    + by eapply is_running_exited.
    + by simplify_eq.
    + by simplify_eq.
    + by simplify_eq.
    + by simplify_eq.
  - rewrite (save_snapshot_no_port _ _ _ _ Hport), (load_snapshot_no_port _ _ _ _ Hport),
      (delete_snapshot_no_port _ _ _ _ Hport), (install_apk_no_port _ _ _ _ Hport).
    repeat split; try done.
Qed.

Lemma not_running_iff_no_port_witness :
  is_running "s1" ex_exited = (Ok false, ex_exited) /\
  (Run [adb_bin ex_exited; "-s"; serial_of 5554; "emu"; "avd"; "snapshot"; "save"; "snap1"]
     ∈ log (save_snapshot "s1" "snap1" (Completes ex_done) ex_exited).2) /\
  (Run [adb_bin ex_exited; "-s"; serial_of 5554; "emu"; "avd"; "snapshot"; "load"; "snap1"]
     ∈ log (load_snapshot "s1" "snap1" (Completes ex_done) ex_exited).2) /\
  (Run [adb_bin ex_exited; "-s"; serial_of 5554; "emu"; "avd"; "snapshot"; "delete"; "snap1"]
     ∈ log (delete_snapshot "s1" "snap1" (Completes ex_done) ex_exited).2) /\
  (Run [adb_bin ex_exited; "-s"; serial_of 5554; "install"; "-r"; "app.apk"]
     ∈ log (install_apk "s1" "app.apk" ex_install ex_exited).2).
Proof.
  destruct (not_running_iff_no_port "s1" "snap1" "app.apk" (Completes ex_done)
              ex_install ex_exited)
    as (_ & _ & _ & _ & H).
  apply (H 0%nat 5554).
  - vm_compute. reflexivity.
  - vm_compute. reflexivity.
  - apply (bool_decide_unpack _). vm_compute. exact I.
Defined.

(** * Further properties of the code *)

(** X1.  In every state the manager reaches, whatever the calls, their
    outcomes and the answers of the outside world, a session with a
    process handle has a port: [stop] and [start] find the port they look
    up, and a session that [is_running] reports has a serial. *)
Theorem reachable_running_has_serial st :
  reachable st ->
  registry_inv st /\
  forall id, is_running id st = (Ok true, st) ->
             exists port, get_serial id st = (Ok (Some (serial_of port)), st).
Proof.
  intros Hr. pose proof (reachable_inv st Hr) as Hinv. split; [exact Hinv|].
  intros id Hrun. unfold is_running, bind, get, ret in Hrun.
  destruct (_processes st !! id) as [p|] eqn:Hp; [|discriminate].
  assert (Hd : id ∈ dom (_ports st)) by (apply Hinv, elem_of_dom; eauto).
  apply elem_of_dom in Hd as [port Hport]. exists port.
  by apply get_serial_some.
Qed.

Lemma reachable_running_has_serial_witness :
  registry_inv ex_running /\
  forall id, is_running id ex_running = (Ok true, ex_running) ->
             exists port, get_serial id ex_running = (Ok (Some (serial_of port)), ex_running).
Proof.
  apply reachable_running_has_serial.
  apply (reachable_call (Call_start "s1" (Some ex_config) false 120 ex_start) ex_fresh).
  apply (reachable_init "/data" "/sdk" ∅). vm_compute. reflexivity.
Defined.

(** X2.  [start] on a session without a process returns only when the
    configuration fixes a port: the session is then registered on that
    port, whether or not another session holds it, with the handle of the
    process just spawned.  With no port in the configuration, or port 0,
    the allocator is asked, and [start] raises and leaves the registries
    and the processes as they were. *)
Theorem start_needs_fixed_port id config wait_boot timeout e st :
  id ∉ dom (_processes st) ->
  (forall serial s,
     start id config wait_boot timeout e st = (Ok serial, s) ->
     exists port,
       EmulatorConfig.port (default EmulatorConfig.default config) = Some port /\
       port <> 0 /\ serial = serial_of port /\
       _ports s = <[id := port]> (_ports st) /\
       _processes s = <[id := next_pid st]> (_processes st) /\
       exists cmd, Spawn (next_pid st) cmd ∈ log s) /\
  (EmulatorConfig.port (default EmulatorConfig.default config) = None \/
   EmulatorConfig.port (default EmulatorConfig.default config) = Some 0 ->
   exists x s, start id config wait_boot timeout e st = (Raise x, s) /\ keeps st s).
Proof.
  intros Hout.
  destruct (start_cases id config wait_boot timeout e st Hout) as (r & s & Heq & Hpost).
  split.
  - intros serial s' Hok. rewrite Heq in Hok. simplify_eq.
    destruct Hpost as (port & -> & (Hcfg & Hnz & Hq & Hp & _ & _ & Hcmd) & _).
    by exists port.
  - intros Hauto.
    destruct (start_post_auto_port _ _ _ _ _ _ _ _ Hauto Hpost) as (x & -> & _ & K).
    by exists x, s.
Qed.

Lemma start_needs_fixed_port_witness :
  (exists port,
     start "s1" (Some ex_config) false 120 ex_start ex_fresh =
       (Ok (serial_of port), ex_running) /\
     EmulatorConfig.port ex_config = Some port /\
     _ports ex_running = <["s1" := port]> (_ports ex_fresh) /\
     _processes ex_running = <["s1" := next_pid ex_fresh]> (_processes ex_fresh)) /\
  (exists x s, start "s1" None true 120 ex_start ex_fresh = (Raise x, s) /\
               keeps ex_fresh s).
Proof.
  split.
  - destruct (start_needs_fixed_port "s1" (Some ex_config) false 120 ex_start ex_fresh)
      as [H _]; [apply (bool_decide_unpack _); vm_compute; exact I|].
    destruct (H (serial_of 5554) ex_running) as (port & Hc & _ & Hser & Hq & Hp & _);
      [vm_compute; reflexivity|].
    exists port. rewrite <- Hser. split; [vm_compute; reflexivity|].
    split; [exact Hc|]. split; [exact Hq | exact Hp].
  - destruct (start_needs_fixed_port "s1" None true 120 ex_start ex_fresh)
      as [_ H]; [apply (bool_decide_unpack _); vm_compute; exact I|].
    apply H. left. reflexivity.
Defined.

(** X3.  [restart], when [adb] can be started for the kill request of its
    [stop], always ends the process the session had.  With no fixed port
    in the configuration it then fails in [start]: it raises, and the
    session is left stopped. *)
Theorem restart_stops_old_process id config se e st :
  registry_inv st ->
  (forall errno, kill_reply se <> Unstarted errno) ->
  (forall p, _processes st !! id = Some p ->
             p ∈ exited (restart id config se e st).2) /\
  (EmulatorConfig.port (default EmulatorConfig.default config) = None \/
   EmulatorConfig.port (default EmulatorConfig.default config) = Some 0 ->
   exists x s, restart id config se e st = (Raise x, s) /\
               (id ∉ dom (_processes s)) /\ is_running id s = (Ok false, s)).
Proof.
  intros Hinv Hk.
  assert (H1 : exists b s1, stop id se st = (Ok b, s1) /\
                 _processes s1 !! id = None /\
                 forall p, _processes st !! id = Some p -> p ∈ exited s1).
  { destruct (stop_cases st id se Hinv) as [[Hp Hs]|[H|H]].
    - exists false, st. split; [exact Hs|]. split; [exact Hp|].
      intros p Hp'. by rewrite Hp in Hp'.
    - destruct H as (p & port & errno & _ & _ & Hu & _). by destruct (Hk errno).
    - destruct H as (p & port & s1 & Hp & _ & _ & Hs & Sp & _ & _ & _ & Sx & _).
      exists true, s1. split; [exact Hs|].
      split; [by rewrite Sp, lookup_delete_eq|].
      intros p' Hp'. rewrite Hp in Hp'. simplify_eq. rewrite Sx.
      apply elem_of_union. left. by apply elem_of_singleton. }
  destruct H1 as (b & s1 & Hstop & Hnone & Hex).
  assert (Hout : id ∉ dom (_processes s1)) by (by apply not_elem_of_dom).
  destruct (start_cases id config true 120 e s1 Hout) as (r & s & Heq & Hpost).
  assert (Hre : restart id config se e st = (r, s)).
  { unfold restart, bind. by rewrite Hstop. }
  rewrite Hre. cbn [snd]. split.
  - intros p Hp. by apply (start_post_exited _ _ _ _ _ _ _ _ Hpost), Hex.
  - intros Hauto.
    destruct (start_post_auto_port _ _ _ _ _ _ _ _ Hauto Hpost) as (x & -> & _ & K).
    exists x, s. split; [reflexivity|].
    assert (Hn : _processes s !! id = None).
    { destruct K as (-> & _). exact Hnone. }
    split; [by apply not_elem_of_dom | by apply is_running_unregistered].
Qed.

Lemma restart_stops_old_process_witness :
  (forall p, _processes ex_running !! "s1" = Some p ->
             p ∈ exited (restart "s1" None ex_forced ex_start ex_running).2) /\
  (EmulatorConfig.port (default EmulatorConfig.default None) = None \/
   EmulatorConfig.port (default EmulatorConfig.default None) = Some 0 ->
   exists x s, restart "s1" None ex_forced ex_start ex_running = (Raise x, s) /\
               ("s1" ∉ dom (_processes s)) /\ is_running "s1" s = (Ok false, s)).
Proof.
  apply (restart_stops_old_process "s1" None ex_forced ex_start ex_running).
  - unfold registry_inv. apply (bool_decide_unpack _). vm_compute. exact I.
  - intros errno. vm_compute. discriminate.
Defined.

(** X4.  After a [stop] that has returned, whatever it returned, another
    [stop] of the same session returns false and changes nothing. *)
Theorem stop_twice id e e' b s st :
  registry_inv st ->
  stop id e st = (Ok b, s) ->
  stop id e' s = (Ok false, s).
Proof.
  intros Hinv Hs. apply stop_unregistered.
  destruct (stop_cases st id e Hinv) as [[Hp H]|[H|H]].
  - rewrite H in Hs. by simplify_eq.
  - destruct H as (p & port & errno & _ & _ & _ & H). rewrite H in Hs. discriminate.
  - destruct H as (p & port & s' & _ & _ & _ & H & Sp & _). rewrite H in Hs.
    simplify_eq. by rewrite Sp, lookup_delete_eq.
Qed.

Lemma stop_twice_witness :
  stop "s1" ex_forced (stop "s1" ex_forced ex_running).2 =
  (Ok false, (stop "s1" ex_forced ex_running).2).
Proof.
  apply (stop_twice "s1" ex_forced ex_forced true _ ex_running).
  - unfold registry_inv. apply (bool_decide_unpack _). vm_compute. exact I.
  - vm_compute. reflexivity.
Defined.

(** X5.  For a session with a port, what [install_apk] comes to is decided
    by [adb install] alone: it returns whether that succeeded, or passes
    on the error of an [adb] that cannot be run.  A failure while looking
    up the package name or recording it ([aapt] missing, no name in its
    output, a metadata file that cannot be read or written) is swallowed.
    The registries and the processes are left alone. *)
Theorem install_apk_swallows_bookkeeping_errors id apk e port st :
  _ports st !! id = Some port ->
  exists s,
    install_apk id apk e st = (install_result (install_reply e), s) /\
    keeps st s /\
    Run [adb_bin st; "-s"; serial_of port; "install"; "-r"; apk] ∈ log s.
Proof.
  intros Hport.
  destruct (wp_run _ _ _ (install_apk_with_port id apk e port st Hport))
    as (r & s & Heq & K & Hlog & ->).
  by exists s.
Qed.

Lemma install_apk_swallows_bookkeeping_errors_witness :
  exists s,
    install_apk "s1" "app.apk" ex_install ex_running =
      (install_result (install_reply ex_install), s) /\
    keeps ex_running s /\
    Run [adb_bin ex_running; "-s"; serial_of 5554; "install"; "-r"; "app.apk"] ∈ log s.
Proof.
  apply (install_apk_swallows_bookkeeping_errors "s1" "app.apk" ex_install 5554 ex_running).
  vm_compute. reflexivity.
Defined.

(** X6.  In a state that satisfies the registry invariant, [adb] being
    there for the kill request of every session that has a process,
    [_cleanup] returns: it empties [_processes], removes from [_ports] the
    entries of the sessions that had a process and no others, ends every
    process that was registered, and does not touch the disk. *)
Theorem cleanup_stops_everything e st :
  registry_inv st ->
  (forall id errno, id ∈ dom (_processes st) -> kill_reply (e id) <> Unstarted errno) ->
  exists s,
    _cleanup e st = (Ok tt, s) /\
    _processes s = ∅ /\
    (forall id, id ∈ dom (_processes st) -> _ports s !! id = None) /\
    (forall id, id ∉ dom (_processes st) -> _ports s !! id = _ports st !! id) /\
    (forall id p, _processes st !! id = Some p -> p ∈ exited s) /\
    disk s = disk st.
Proof.
  intros Hinv Hk.
  destruct (stop_each_spec (map_to_list (_processes st)).*1 e st Hinv)
    as (s & Heq & _ & P1 & P2 & Q1 & Q2 & X1 & _ & D).
  { intros id errno Hin. apply Hk. by apply keys_elem. }
  exists s. split; [exact Heq|]. split; [|split; [|split; [|split]]].
  - apply map_eq. intros id. rewrite lookup_empty.
    destruct (decide (id ∈ dom (_processes st))) as [Hin|Hout].
    + apply P1. by apply keys_elem.
    + rewrite P2; [by apply not_elem_of_dom|]. by rewrite keys_elem.
  - intros id Hin. apply Q1; [by apply keys_elem | exact Hin].
  - intros id Hout. apply Q2. by right.
  - intros id p Hp. apply (X1 id p); [|exact Hp].
    apply keys_elem, elem_of_dom. eauto.
  - exact D.
Qed.

Lemma cleanup_stops_everything_witness :
  exists s,
    _cleanup (fun _ => ex_forced) ex_running = (Ok tt, s) /\
    _processes s = ∅ /\
    (forall id, id ∈ dom (_processes ex_running) -> _ports s !! id = None) /\
    (forall id, id ∉ dom (_processes ex_running) ->
                _ports s !! id = _ports ex_running !! id) /\
    (forall id p, _processes ex_running !! id = Some p -> p ∈ exited s) /\
    disk s = disk ex_running.
Proof.
  apply (cleanup_stops_everything (fun _ => ex_forced) ex_running).
  - unfold registry_inv. apply (bool_decide_unpack _). vm_compute. exact I.
  - intros id errno _. vm_compute. discriminate.
Defined.

(** X7.  When the constructor returns, the three directories are there,
    what the data directory held before is still there, both registries
    are empty, and none of the three names was a regular file.  Making a
    manager again on the disk it left gives the same manager: the
    constructor is idempotent, and a new manager knows nothing of the
    emulators an earlier one started. *)
Theorem init_directories data sdk d st :
  __init__ data sdk d = Ok st ->
  is_dir (disk st) avds_dir = true /\
  is_dir (disk st) sessions_dir = true /\
  is_dir (disk st) shared_dir = true /\
  (forall k, is_Some (d !! k) -> disk st !! k = d !! k) /\
  (forall c data, c ∈ ["avds"; "sessions"; "shared"] -> d !! c <> Some (File data)) /\
  _processes st = ∅ /\ _ports st = ∅ /\
  __init__ data sdk (disk st) = Ok st.
Proof.
  unfold __init__, avds_dir, sessions_dir, shared_dir.
  destruct (mkdir_exist_ok ["avds"] d) as [d1|] eqn:H1; cbn [rbind]; [|discriminate].
  destruct (mkdir_exist_ok ["sessions"] d1) as [d2|] eqn:H2; cbn [rbind]; [|discriminate].
  destruct (mkdir_exist_ok ["shared"] d2) as [d3|] eqn:H3; cbn [rbind]; [|discriminate].
  intros [= <-]. cbn [disk _processes _ports].
  destruct (mkdir_exist_ok_spec _ _ _ H1) as (A1 & A2 & A3 & A4).
  destruct (mkdir_exist_ok_spec _ _ _ H2) as (B1 & B2 & B3 & B4).
  destruct (mkdir_exist_ok_spec _ _ _ H3) as (C1 & C2 & C3 & C4).
  assert (K : forall k, is_Some (d !! k) -> d3 !! k = d !! k).
  { intros k Hk. rewrite C2, B2, A2; try done.
    - by rewrite A2.
    - by rewrite B2, A2; rewrite ?A2. }
  split; [by apply C3, B3|]. split; [by apply C3|]. split; [exact C1|].
  split; [exact K|]. split; [|split; [done|split; [done|]]].
  - intros c x Hc Hf.
    assert (Hk : forall k y, d !! k = Some (File y) -> is_dir d3 [k] = false).
    { intros k y Hy. by rewrite is_dir_top, K, Hy by (by rewrite Hy). }
    apply (Hk c x) in Hf as Hn.
    repeat (apply elem_of_cons in Hc as [->|Hc]);
      [ by rewrite (C3 _ (B3 _ A1)) in Hn | by rewrite (C3 _ B1) in Hn
      | by rewrite C1 in Hn | by apply elem_of_nil in Hc ].
  - rewrite (mkdir_exist_ok_again "avds" d3) by (by apply C3, B3). cbn [rbind].
    rewrite (mkdir_exist_ok_again "sessions" d3) by (by apply C3). cbn [rbind].
    by rewrite (mkdir_exist_ok_again "shared" d3) by exact C1.
Qed.

Lemma init_directories_witness :
  is_dir (disk ex_fresh) avds_dir = true /\
  is_dir (disk ex_fresh) sessions_dir = true /\
  is_dir (disk ex_fresh) shared_dir = true /\
  (forall k, is_Some ((∅ : gmap pystr node) !! k) ->
             disk ex_fresh !! k = (∅ : gmap pystr node) !! k) /\
  (forall c data, c ∈ ["avds"; "sessions"; "shared"] ->
                  (∅ : gmap pystr node) !! c <> Some (File data)) /\
  _processes ex_fresh = ∅ /\ _ports ex_fresh = ∅ /\
  __init__ "/data" "/sdk" (disk ex_fresh) = Ok ex_fresh.
Proof.
  apply (init_directories "/data" "/sdk" ∅ ex_fresh). vm_compute. reflexivity.
Defined.

(** X8.  Creating a session under a file name and deleting it again puts
    the disk back as it was, whether or not a template image was copied,
    and also when [create_session] failed on a template whose source is a
    directory. *)
Theorem create_then_delete_restores_disk id config from_template e force se st :
  path_component id = true ->
  is_dir (disk st) sessions_dir = true ->
  path_exists (disk st) (sessions_dir ++ [id]) = false ->
  _processes st !! id = None ->
  exists s,
    delete_session id force se (create_session id config from_template e st).2 =
      (Ok true, s) /\
    disk s = disk st /\ keeps st s.
Proof.
  intros _ Hdir Hfresh Hp. apply is_dir_inv in Hdir as [sm Hs].
  assert (Hid : sm !! id = None).
  { rewrite (path_exists_child _ _ _ _ Hs) in Hfresh.
    destruct (sm !! id) eqn:H; [|done]. by rewrite bool_decide_true in Hfresh. }
  destruct (create_session_fresh id config from_template e st sm Hs Hid)
    as (d & r & -> & F & dm & Hl & _). cbn [snd].
  destruct (delete_session_unregistered id force se (with_disk d st)
              (<[id := Dir dm]> sm) dm Hp Hl (lookup_insert_eq _ _ _))
    as (d' & Hdel & Hl' & F').
  exists (with_disk d' (with_disk d st)). split; [exact Hdel|].
  split; [|exact (keeps_with_disk d' st)]. cbn [disk with_disk] in *.
  rewrite delete_insert_eq, delete_id in Hl' by done.
  apply map_eq. intros k.
  destruct (decide (k = "sessions")) as [->|Hne].
  - unfold lookup_path, sessions_dir in Hl', Hs. cbn [lookup_node] in Hl', Hs.
    destruct (d' !! "sessions"), (disk st !! "sessions"); congruence.
  - assert (Hd : diverge (sessions_dir ++ [id]) [k]) by (left; congruence).
    pose proof (F' [k] Hd) as E1. pose proof (F [k] Hd) as E2.
    unfold lookup_path in E1, E2. cbn [lookup_node] in E1, E2.
    destruct (d' !! k), (d !! k), (disk st !! k); congruence.
Qed.

Lemma create_then_delete_restores_disk_witness :
  exists s,
    delete_session "s2" false ex_forced
      (create_session "s2" None (Some "s1") ex_create ex_running).2 = (Ok true, s) /\
    disk s = disk ex_running /\ keeps ex_running s.
Proof.
  apply (create_then_delete_restores_disk "s2" None (Some "s1") ex_create false
           ex_forced ex_running); vm_compute; reflexivity.
Defined.

(** X9.  With a template whose image is a regular file, [create_session]
    gives the new session a copy of it as its user data image; the
    template keeps its image, and the metadata file of the new session
    holds the initial record, which is read back as written when its
    strings are stable.  The identifier and the template are file
    names. *)
Theorem create_session_copies_template id config template e data st :
  path_component id = true ->
  path_component template = true ->
  is_dir (disk st) sessions_dir = true ->
  path_exists (disk st) (sessions_dir ++ [id]) = false ->
  read_file (template_source template) (disk st) = Ok data ->
  exists s,
    create_session id config (Some template) e st = (Ok (sessions_dir ++ [id]), s) /\
    read_file (sessions_dir ++ [id; "userdata.img"]) (disk s) = Ok data /\
    read_file (template_source template) (disk s) = Ok data /\
    stores id (initial_metadata id config e) s /\
    (stable_record (initial_metadata id config e) = true ->
     _load_metadata (Some (sessions_dir ++ [id])) s =
       (Ok (Some (initial_metadata id config e)), s)).
Proof.
  intros _ Hne Hdir Hfresh Hread. apply is_dir_inv in Hdir as [sm Hs].
  assert (Hne' : template <> EmptyStr) by (by intros ->).
  clear Hne. rename Hne' into Hne.
  assert (Hid : sm !! id = None).
  { rewrite (path_exists_child _ _ _ _ Hs) in Hfresh.
    destruct (sm !! id) eqn:H; [|done]. by rewrite bool_decide_true in Hfresh. }
  assert (Hsrc : lookup_path (disk st) (template_source template) = Some (File data)).
  { unfold read_file in Hread.
    destruct (lookup_path (disk st) (template_source template)) as [[|]|];
      by simplify_eq. }
  destruct (create_session_fresh id config (Some template) e st sm Hs Hid)
    as (d & r & Hcreate & F & dm & Hl & Hcase).
  assert (Hnode : template_node (Some template) (disk st) = Some (File data)).
  { by destruct template. }
  rewrite Hnode in Hcase. destruct Hcase as [-> ->].
  exists (with_disk d st). split; [exact Hcreate|]. cbn [disk with_disk].
  assert (Hnew : lookup_path d (sessions_dir ++ [id]) =
                 Some (Dir (<["userdata.img" := File data]>
                              (new_session_dir (initial_metadata id config e))))).
  { by rewrite (lookup_path_child _ _ _ _ Hl), lookup_insert_eq. }
  split; [|split; [|split]].
  - change (sessions_dir ++ [id; "userdata.img"])
      with ((sessions_dir ++ [id]) ++ ["userdata.img"]).
    eapply read_file_child; [exact Hnew|]. apply lookup_insert_eq.
  - unfold read_file. rewrite F, Hsrc; [done|].
    unfold template_source in *. destruct (decide (template = "base")).
    { left. discriminate. }
    right. split; [done|]. left. intros <-.
    unfold lookup_path, sessions_dir in Hsrc, Hs. cbn [app lookup_node] in Hsrc, Hs.
    destruct (disk st !! "sessions") as [[|sm']|]; try discriminate.
    simplify_eq. by rewrite Hid in Hsrc.
  - eexists. split; [exact Hnew|].
    rewrite lookup_insert_ne by done. apply lookup_insert_eq.
  - intros Hst. eapply load_metadata_child; [exact Hst | exact Hnew |].
    rewrite lookup_insert_ne by done. apply lookup_insert_eq.
Qed.

Lemma create_session_copies_template_witness :
  exists s,
    create_session "s2" None (Some "base") ex_create
      (with_disk (<["shared" := Dir {["base_userdata.img" := File "image"]}]>
                    (disk ex_fresh)) ex_fresh) = (Ok (sessions_dir ++ ["s2"]), s) /\
    read_file (sessions_dir ++ ["s2"; "userdata.img"]) (disk s) = Ok "image" /\
    read_file (template_source "base") (disk s) = Ok "image" /\
    stores "s2" (initial_metadata "s2" None ex_create) s /\
    (stable_record (initial_metadata "s2" None ex_create) = true ->
     _load_metadata (Some (sessions_dir ++ ["s2"])) s =
       (Ok (Some (initial_metadata "s2" None ex_create)), s)).
Proof.
  apply (create_session_copies_template "s2" None "base" ex_create "image");
    vm_compute; reflexivity.
Defined.

(** X10.  After [create_session] on a file name that has no directory
    yet, the session directory is there, whatever the call returned:
    [get_session] finds it, another [create_session] is refused, and the
    metadata file holds the initial record (read back as written when its
    strings are stable).  The call can only fail on a template whose
    source is a directory, and it then leaves the directory and the
    metadata it has made. *)
Theorem create_session_leaves_directory id config from_template e config' from_template' e' st :
  path_component id = true ->
  template_component from_template = true ->
  is_dir (disk st) sessions_dir = true ->
  path_exists (disk st) (sessions_dir ++ [id]) = false ->
  let r := create_session id config from_template e st in
  get_session id r.2 = (Ok (Some (sessions_dir ++ [id])), r.2) /\
  create_session id config' from_template' e' r.2 = (Raise (already_exists id), r.2) /\
  stores id (initial_metadata id config e) r.2 /\
  (stable_record (initial_metadata id config e) = true ->
   persisted id r.2 = Some (initial_metadata id config e)) /\
  (r.1 = Ok (sessions_dir ++ [id]) \/
   (r.1 = Raise (OSError EISDIR) /\
    exists m, template_node from_template (disk st) = Some (Dir m))).
Proof.
  intros _ _ Hdir Hfresh. apply is_dir_inv in Hdir as [sm Hs].
  assert (Hid : sm !! id = None).
  { rewrite (path_exists_child _ _ _ _ Hs) in Hfresh.
    destruct (sm !! id) eqn:H; [|done]. by rewrite bool_decide_true in Hfresh. }
  destruct (create_session_fresh id config from_template e st sm Hs Hid)
    as (d & r & -> & F & dm & Hl & Hcase). cbn [fst snd].
  assert (Hget : get_session id (with_disk d st) =
                 (Ok (Some (sessions_dir ++ [id])), with_disk d st)).
  { eapply get_session_some; [exact Hl|]. apply lookup_insert_eq. }
  assert (Hex : path_exists d (sessions_dir ++ [id]) = true).
  { by rewrite (path_exists_child _ _ _ _ Hl), lookup_insert_eq, bool_decide_true by eauto. }
  assert (Hnew : lookup_path d (sessions_dir ++ [id]) = Some (Dir dm)).
  { by rewrite (lookup_path_child _ _ _ _ Hl), lookup_insert_eq. }
  split; [exact Hget|].
  split; [unfold create_session, bind, get, raise; cbn [disk with_disk]; by rewrite Hex|].
  assert (Hmeta : dm !! "metadata.json" =
            Some (File (Json.dumps (asdict (initial_metadata id config e))))).
  { destruct (template_node from_template (disk st)) as [[data|m]|];
      destruct Hcase as [_ ->]; unfold new_session_dir;
      rewrite ?(lookup_insert_ne _ "userdata.img") by done; apply lookup_insert_eq. }
  split; [by exists dm|]. split.
  { intros Hst. unfold persisted.
    by rewrite (load_metadata_child (with_disk d st) _ _ _ Hst Hnew Hmeta). }
  destruct (template_node from_template (disk st)) as [[data|m]|];
    destruct Hcase as [-> _]; eauto.
Qed.

Lemma create_session_leaves_directory_witness :
  let r := create_session "s2" None None ex_create ex_fresh in
  get_session "s2" r.2 = (Ok (Some (sessions_dir ++ ["s2"])), r.2) /\
  create_session "s2" None None ex_create r.2 = (Raise (already_exists "s2"), r.2) /\
  stores "s2" (initial_metadata "s2" None ex_create) r.2 /\
  (stable_record (initial_metadata "s2" None ex_create) = true ->
   persisted "s2" r.2 = Some (initial_metadata "s2" None ex_create)) /\
  (r.1 = Ok (sessions_dir ++ ["s2"]) \/
   (r.1 = Raise (OSError EISDIR) /\
    exists m, template_node None (disk ex_fresh) = Some (Dir m))).
Proof.
  apply (create_session_leaves_directory "s2" None None ex_create None None ex_create
           ex_fresh); vm_compute; reflexivity.
Defined.

(** X11.  The boot watcher does nothing but run [adb]: it leaves the
    state as it is except for the log, to which it adds at most one entry
    for each turn of its two loops.  It raises only what running [adb]
    raises, or the [ValueError] of a split by an empty serial.  With a
    timeout that is not positive it returns false at once, without
    asking. *)
Theorem wait_for_boot_only_polls serial timeout e st :
  exists r l,
    _wait_for_boot serial timeout e st = (r, with_log (log st ++ l) st) /\
    (length l <= 2 * Z.to_nat timeout)%nat /\
    (forall x, r = Raise x -> boot_error serial x) /\
    (timeout <= 0 -> r = Ok false /\ l = []).
Proof.
  destruct (quiet_wait_for_boot serial timeout e st) as [_ Herr].
  revert Herr. unfold _wait_for_boot, bind.
  destruct (wait_device_runs e serial timeout (Z.to_nat timeout) 0 0 st)
    as (r & l1 & -> & H1 & Z1).
  destruct r as [[elapsed|]|x].
  - destruct (wait_completed_runs e serial timeout (Z.to_nat timeout) 0 elapsed
                (with_log (log st ++ l1) st)) as (b & l2 & -> & H2 & _).
    intros Herr. exists b, (l1 ++ l2). rewrite with_log_app. split; [reflexivity|].
    split; [rewrite length_app; lia|]. split; [exact Herr|].
    intros Hle. by destruct (Z1 Hle).
  - intros Herr. exists (Ok false), l1. split; [reflexivity|]. split; [lia|].
    split; [exact Herr|]. intros Hle. by destruct (Z1 Hle).
  - intros Herr. exists (Raise x), l1. split; [reflexivity|]. split; [lia|].
    split; [exact Herr|]. intros Hle. by destruct (Z1 Hle).
Qed.

(** X12.  The loops of the boot watcher are ended by the clock and never
    by the number of turns the model allows them: with any allowance of
    at least [timeout] turns the outcome is the same. *)
Theorem wait_for_boot_fuel_enough fuel serial timeout e st :
  (Z.to_nat timeout <= fuel)%nat ->
  wait_for_boot_fuel fuel serial timeout e st = _wait_for_boot serial timeout e st.
Proof.
  intros Hfuel. unfold wait_for_boot_fuel, _wait_for_boot, bind.
  rewrite (wait_device_fuel e serial timeout fuel (Z.to_nat timeout)) by lia.
  destruct (wait_device e serial timeout (Z.to_nat timeout) 0 0 st)
    as [[[elapsed|]|x] s] eqn:Hdev; try reflexivity.
  apply wait_device_elapsed in Hdev.
  apply wait_completed_fuel; lia.
Qed.

Lemma wait_for_boot_fuel_enough_witness :
  wait_for_boot_fuel 100 "emulator-5554" 3 ex_never_boots ex_running =
  _wait_for_boot "emulator-5554" 3 ex_never_boots ex_running.
Proof.
  apply (wait_for_boot_fuel_enough 100 "emulator-5554" 3 ex_never_boots ex_running).
  vm_compute. lia.
Defined.

(** X13.  [list_sessions] only reads.  If one session directory has a
    metadata file that is empty or holds only white space (what is left
    when writing it is cut short after the file has been truncated), the
    decoding error is not caught: the whole listing fails and no session
    is reported. *)
Theorem list_sessions_fails_on_empty_metadata name sm dm text st :
  lookup_path (disk st) sessions_dir = Some (Dir sm) ->
  sm !! name = Some (Dir dm) ->
  dm !! "metadata.json" = Some (File text) ->
  Json.skip_ws text = EmptyStr ->
  exists x, list_sessions st = (Raise x, st) /\ io_error x.
Proof.
  intros Hs Hname Hfile Hempty. unfold list_sessions, bind, get, lift, iterdir.
  rewrite Hs. cbn [fst snd].
  eapply list_sessions_from_undecodable; eauto.
  - unfold Json.loads. by rewrite Hempty.
  - apply keys_elem, elem_of_dom. eauto.
Qed.

Lemma list_sessions_fails_on_empty_metadata_witness :
  exists x, list_sessions ex_corrupt = (Raise x, ex_corrupt) /\ io_error x.
Proof.
  apply (list_sessions_fails_on_empty_metadata "cut"
           {["cut" := Dir {["metadata.json" := File Py.nl]}]}
           {["metadata.json" := File Py.nl]} Py.nl ex_corrupt);
    vm_compute; reflexivity.
Defined.

(** X14.  In a store where every metadata file is one that
    [_save_metadata] wrote for a record that reads back as written,
    [list_sessions] returns, and changes nothing; it reports exactly the
    records of that kind that the session directories hold, and passes
    over the directories without a metadata file and the entries that are
    not directories. *)
Theorem list_sessions_collects_metadata sm st :
  lookup_path (disk st) sessions_dir = Some (Dir sm) ->
  well_kept sm ->
  exists l, list_sessions st = (Ok l, st) /\
            forall m, m ∈ l <->
                      stable_record m = true /\ exists name, stores name m st.
Proof.
  intros Hs Hwk. unfold list_sessions, bind, get, lift, iterdir.
  rewrite Hs. cbn [fst snd].
  rewrite (list_sessions_from_well_kept _ [] st sm Hs Hwk). cbn [app].
  eexists. split; [reflexivity|]. intros m. rewrite list_elem_of_omap. split.
  - intros (name & _ & Hp).
    destruct (persisted_well_kept st sm name m Hs Hwk Hp) as [Hm Hst].
    split; [exact Hm|]. by exists name.
  - intros (Hm & name & Hst). exists name. split.
    + by eapply keys_elem, stores_in_store.
    + by apply stores_persisted.
Qed.

Lemma list_sessions_collects_metadata_witness :
  exists l, list_sessions ex_running = (Ok l, ex_running) /\
            forall m, m ∈ l <->
                      stable_record m = true /\
                      exists name, stores name m ex_running.
Proof.
  apply (list_sessions_collects_metadata ex_store ex_running).
  - vm_compute. reflexivity.
  - intros name dm H. unfold ex_store in H.
    apply lookup_singleton_Some in H as [_ H]. right. exists ex_metadata.
    split; [vm_compute; reflexivity|].
    injection H as <-. apply lookup_insert_eq.
Defined.

(** X15.  [create_base_avd] never returns false: it returns true, or
    raises "Failed to ...", or passes on the error of a tool that cannot
    be run.  It runs SDK tools and nothing else.  When the image is listed
    as installed and the AVD is listed, it only runs the two listings:
    nothing is installed or created a second time. *)
Theorem create_base_avd_true_or_raises config e st :
  (forall b, (create_base_avd config e st).1 = Ok b -> b = true) /\
  (forall x, (create_base_avd config e st).1 = Raise x ->
             tool_error x \/ exists msg, x = RuntimeError ("Failed to " +:+ msg)) /\
  keeps st (create_base_avd config e st).2 /\
  disk (create_base_avd config e st).2 = disk st /\
  (forall installed avds,
     list_installed e = Completes installed ->
     list_avd e = Completes avds ->
     Py.contains (EmulatorConfig.system_image config) (stdout installed) = true ->
     EmulatorConfig.avd_name config ∈ Py.lines (stdout avds) ->
     create_base_avd config e st =
     (Ok true, with_log (log st ++ [Run [sdkmanager_bin st; "--list_installed"];
                                    Run [avdmanager_bin st; "list"; "avd"; "-c"]]) st)).
Proof.
  destruct (quiet_create_base_avd config e st) as [K E].
  split; [intros b; apply create_base_avd_true|].
  split; [exact E|]. split; [exact K|].
  split; [apply create_base_avd_disk|].
  intros installed avds. apply create_base_avd_present.
Qed.

(** X16.  On a running session, saving a snapshot under a new name and
    then deleting it, the instance reporting success both times, leaves
    the metadata file as it was before.  The record and the name are
    strings that are read back as written. *)
Theorem save_then_delete_snapshot_restores_metadata id n port m save_reply delete_reply st :
  stable_record m = true ->
  Json.stable n = true ->
  _ports st !! id = Some port ->
  stores id m st ->
  returncode save_reply = 0 ->
  returncode delete_reply = 0 ->
  n ∉ SessionMetadata.snapshots m ->
  exists s1 s2,
    save_snapshot id n (Completes save_reply) st = (Ok true, s1) /\
    persisted id s1 = Some (set_snapshots (SessionMetadata.snapshots m ++ [n]) m) /\
    delete_snapshot id n (Completes delete_reply) s1 = (Ok true, s2) /\
    persisted id s2 = Some m.
Proof.
  intros Hm Hsn Hport Hst Hrs Hrd Hn.
  destruct (save_snapshot_stored id n save_reply port m st Hm Hport Hst)
    as (s1 & Hsave & K1 & Hst1).
  pose proof (stable_after_save n (returncode save_reply) m Hm Hsn) as Hm1.
  rewrite Hrs, bool_decide_true in Hsave by done.
  rewrite Hrs in Hst1, Hm1. unfold after_save in Hst1, Hm1.
  rewrite decide_True in Hst1, Hm1 by done.
  assert (Hport1 : _ports s1 !! id = Some port).
  { destruct K1 as (_ & -> & _). exact Hport. }
  destruct (delete_snapshot_stored id n delete_reply port _ s1 Hm1 Hport1 Hst1)
    as (s2 & Hdel & _ & Hst2).
  rewrite Hrd, bool_decide_true in Hdel by done.
  rewrite Hrd, snapshots_set_snapshots, set_snapshots_twice in Hst2.
  unfold after_delete in Hst2. rewrite decide_True in Hst2.
  2: { split; [done|]. apply elem_of_app. right. apply elem_of_cons. by left. }
  rewrite remove_first_app, set_snapshots_same in Hst2 by done.
  exists s1, s2. split; [exact Hsave|].
  split; [by apply stores_persisted|]. split; [exact Hdel|].
  by apply stores_persisted.
Qed.

Lemma save_then_delete_snapshot_restores_metadata_witness :
  exists s1 s2,
    save_snapshot "s1" "snap1" (Completes ex_done) ex_running = (Ok true, s1) /\
    persisted "s1" s1 =
      Some (set_snapshots (SessionMetadata.snapshots ex_metadata ++ ["snap1"]) ex_metadata) /\
    delete_snapshot "s1" "snap1" (Completes ex_done) s1 = (Ok true, s2) /\
    persisted "s1" s2 = Some ex_metadata.
Proof.
  apply (save_then_delete_snapshot_restores_metadata "s1" "snap1" 5554 ex_metadata
           ex_done ex_done ex_running).
  - vm_compute. reflexivity.
  - vm_compute. reflexivity.
  - vm_compute. reflexivity.
  - eexists. split; vm_compute; reflexivity.
  - reflexivity.
  - reflexivity.
  - apply (bool_decide_unpack _). vm_compute. exact I.
Defined.

(** X17.  [save_snapshot] keeps the snapshot list of the metadata free of
    duplicates, and saving under the same name again changes nothing in
    it.  The record and the name are strings that are read back as
    written. *)
Theorem save_snapshot_twice id n port m reply reply' st :
  stable_record m = true ->
  Json.stable n = true ->
  _ports st !! id = Some port ->
  stores id m st ->
  NoDup (SessionMetadata.snapshots m) ->
  returncode reply = 0 ->
  exists s1 s2 m1,
    save_snapshot id n (Completes reply) st = (Ok true, s1) /\
    persisted id s1 = Some m1 /\
    NoDup (SessionMetadata.snapshots m1) /\
    (n ∈ SessionMetadata.snapshots m1) /\
    save_snapshot id n (Completes reply') s1 =
      (Ok (bool_decide (returncode reply' = 0)), s2) /\
    persisted id s2 = Some m1.
Proof.
  intros Hm Hsn Hport Hst Hnd Hrc.
  destruct (save_snapshot_stored id n reply port m st Hm Hport Hst)
    as (s1 & Hsave & K1 & Hst1).
  pose proof (stable_after_save n 0 m Hm Hsn) as Hm1.
  rewrite Hrc, bool_decide_true in Hsave by done. rewrite Hrc in Hst1.
  assert (Hport1 : _ports s1 !! id = Some port).
  { destruct K1 as (_ & -> & _). exact Hport. }
  destruct (save_snapshot_stored id n reply' port _ s1 Hm1 Hport1 Hst1)
    as (s2 & Hsave2 & _ & Hst2).
  rewrite snapshots_set_snapshots, set_snapshots_twice, after_save_twice in Hst2.
  exists s1, s2, (set_snapshots (after_save n 0 (SessionMetadata.snapshots m)) m).
  split; [exact Hsave|]. split; [by apply stores_persisted|].
  rewrite snapshots_set_snapshots.
  split; [by apply after_save_NoDup|]. split; [apply after_save_elem|].
  split; [exact Hsave2 | by apply stores_persisted].
Qed.

Lemma save_snapshot_twice_witness :
  exists s1 s2 m1,
    save_snapshot "s1" "snap1" (Completes ex_done) ex_running = (Ok true, s1) /\
    persisted "s1" s1 = Some m1 /\
    NoDup (SessionMetadata.snapshots m1) /\
    ("snap1" ∈ SessionMetadata.snapshots m1) /\
    save_snapshot "s1" "snap1" (Completes ex_failed) s1 =
      (Ok (bool_decide (returncode ex_failed = 0)), s2) /\
    persisted "s1" s2 = Some m1.
Proof.
  apply (save_snapshot_twice "s1" "snap1" 5554 ex_metadata ex_done ex_failed ex_running).
  - vm_compute. reflexivity.
  - vm_compute. reflexivity.
  - vm_compute. reflexivity.
  - eexists. split; vm_compute; reflexivity.
  - apply NoDup_nil_2.
  - reflexivity.
Defined.

(** X18.  [delete_session] on a session without a process, its
    identifier a file name: when there is no directory it returns false
    and changes nothing; when there is one it removes it and returns true,
    [get_session] then finds nothing, and what lies outside the directory
    is as before. *)
Theorem delete_session_stopped id force e st :
  _processes st !! id = None ->
  path_component id = true ->
  (path_exists (disk st) (sessions_dir ++ [id]) = false ->
   delete_session id force e st = (Ok false, st)) /\
  (is_dir (disk st) (sessions_dir ++ [id]) = true ->
   exists s,
     delete_session id force e st = (Ok true, s) /\
     keeps st s /\
     path_exists (disk s) (sessions_dir ++ [id]) = false /\
     get_session id s = (Ok None, s) /\
     forall q, diverge (sessions_dir ++ [id]) q ->
               lookup_path (disk s) q = lookup_path (disk st) q).
Proof.
  intros Hp _. split; [by apply delete_session_absent|].
  intros Hdir. apply is_dir_child_inv in Hdir as (sm & dm & Hs & Hid).
  destruct (delete_session_unregistered id force e st sm dm Hp Hs Hid)
    as (d & Hdel & Hl & F).
  exists (with_disk d st). split; [exact Hdel|]. split; [apply keeps_with_disk|].
  split; [|split; [|exact F]].
  - cbn [disk with_disk]. rewrite (path_exists_child _ _ _ _ Hl), lookup_delete_eq.
    apply bool_decide_false. by intros [? ?].
  - eapply get_session_none; [exact Hl|]. apply lookup_delete_eq.
Qed.

Lemma delete_session_stopped_witness :
  exists s,
    delete_session "s1" false ex_forced (stop "s1" ex_forced ex_running).2 = (Ok true, s) /\
    keeps (stop "s1" ex_forced ex_running).2 s /\
    path_exists (disk s) (sessions_dir ++ ["s1"]) = false /\
    get_session "s1" s = (Ok None, s) /\
    forall q, diverge (sessions_dir ++ ["s1"]) q ->
              lookup_path (disk s) q =
              lookup_path (disk (stop "s1" ex_forced ex_running).2) q.
Proof.
  destruct (delete_session_stopped "s1" false ex_forced
              (stop "s1" ex_forced ex_running).2) as [_ H].
  - vm_compute. reflexivity.
  - vm_compute. reflexivity.
  - apply H. vm_compute. reflexivity.
Defined.

(** X19.  [list_installed_packages] raises "is not running" for a session
    without a port and changes nothing.  For a session with a port it
    asks the package manager and, given its listing of the packages
    [names] (one ["package:"] line each), returns [names]; it only adds
    to the log. *)
Theorem list_installed_packages_parses id reply st :
  (_ports st !! id = None ->
   list_installed_packages id (Completes reply) st = (Raise (not_running id), st)) /\
  (forall port names,
     _ports st !! id = Some port ->
     stdout reply = pm_listing names ->
     Forall (fun n => n <> EmptyStr /\ nospace n = true /\
                      Py.contains "package:" n = false) names ->
     list_installed_packages id (Completes reply) st =
     (Ok names,
      with_log (log st ++ [Run [adb_bin st; "-s"; serial_of port; "shell"; "pm";
                                "list"; "packages"; "-3"]]) st)).
Proof.
  split; [apply list_installed_packages_no_port|].
  intros port names Hport Hout Hnames.
  unfold list_installed_packages, bind. rewrite (get_serial_some _ _ _ Hport).
  rewrite truthy_serial. cbn [negb]. unfold get, run, bind, modify, ret.
  cbv beta iota. cbn [stdout]. rewrite Hout. unfold pm_listing.
  rewrite lines_unlines.
  - by rewrite omap_pm_lines.
  - apply Forall_fmap. eapply Forall_impl; [exact Hnames|].
    intros n (_ & Hn & _). by apply nospace_pkg.
Qed.

(** X20.  Given a listing of the AVDs [names], one name a line,
    [list_avds] returns [names], and [create_base_avd] recognises each of
    them: for a configuration that names one, with the image installed,
    it creates nothing. *)
Theorem list_avds_parses names reply installed config e st :
  stdout reply = unlines names ->
  Forall (fun n => n <> EmptyStr /\ nospace n = true) names ->
  list_avds (Completes reply) st =
    (Ok names, with_log (log st ++ [Run [avdmanager_bin st; "list"; "avd"; "-c"]]) st) /\
  (list_avd e = Completes reply ->
   EmulatorConfig.avd_name config ∈ names ->
   list_installed e = Completes installed ->
   Py.contains (EmulatorConfig.system_image config) (stdout installed) = true ->
   create_base_avd config e st =
   (Ok true, with_log (log st ++ [Run [sdkmanager_bin st; "--list_installed"];
                                  Run [avdmanager_bin st; "list"; "avd"; "-c"]]) st)).
Proof.
  intros Hout Hnames.
  assert (Hlines : Py.lines (stdout reply) = names ++ [EmptyStr]).
  { rewrite Hout. apply lines_unlines. eapply Forall_impl; [exact Hnames|].
    by intros n [_ Hn]. }
  split.
  - unfold list_avds, get, run, bind, modify, ret. cbv beta iota. cbn [stdout].
    by rewrite Hlines, filter_avd_lines.
  - intros Havd Hin Hinst Himg.
    apply (create_base_avd_present config e st installed reply); try done.
    rewrite Hlines. apply elem_of_app. by left.
Qed.

Lemma list_avds_parses_witness :
  list_avds (list_avd ex_sdk_two) ex_fresh =
    (Ok ["base_pixel7_api34"; "tablet"],
     with_log (log ex_fresh ++ [Run [avdmanager_bin ex_fresh; "list"; "avd"; "-c"]])
       ex_fresh) /\
  create_base_avd ex_config ex_sdk_two ex_fresh =
    (Ok true, with_log (log ex_fresh ++ [Run [sdkmanager_bin ex_fresh; "--list_installed"];
                                         Run [avdmanager_bin ex_fresh; "list"; "avd"; "-c"]])
                ex_fresh).
Proof.
  destruct (list_avds_parses ["base_pixel7_api34"; "tablet"]
              (Completed 0 (unlines ["base_pixel7_api34"; "tablet"]) EmptyStr)
              (Completed 0 ex_image EmptyStr) ex_config ex_sdk_two ex_fresh) as [H1 H2].
  - reflexivity.
  - repeat constructor; discriminate.
  - split; [exact H1|]. apply H2.
    + reflexivity.
    + apply (bool_decide_unpack _). vm_compute. exact I.
    + reflexivity.
    + vm_compute. reflexivity.
Defined.

(** X21.  Every name [list_snapshots] reads off a listing is a word: it
    is not empty, has no white space, and starts neither with a dash nor
    with [ID].  A snapshot the instance lists in a row that starts with a
    dash is therefore never reported. *)
Theorem parse_snapshot_list_names out name :
  name ∈ parse_snapshot_list out ->
  name <> EmptyStr /\ nospace name = true /\
  Py.startswith "-" name = false /\ Py.startswith "ID" name = false.
Proof.
  unfold parse_snapshot_list. rewrite list_elem_of_omap.
  intros (line & _ & Hline). cbv zeta in Hline.
  destruct (Py.strip line) as [|c r] eqn:Hstrip; [discriminate|].
  rewrite bool_decide_false in Hline by done. cbn [negb andb] in Hline.
  destruct (Py.startswith "ID" (Chr c r)) eqn:Hid; [discriminate|].
  destruct (Py.startswith "-" (Chr c r)) eqn:Hdash; [discriminate|].
  cbn [negb andb] in Hline.
  destruct (words_head c r name (strip_head _ _ _ Hstrip) Hline)
    as (w' & r2 & -> & Hpre & Hns).
  split; [discriminate|]. split; [exact Hns|].
  split.
  - destruct (Py.startswith "-" (Chr c w')) eqn:H; [|done].
    by rewrite Hpre, (startswith_prefix _ _ _ H) in Hdash.
  - destruct (Py.startswith "ID" (Chr c w')) eqn:H; [|done].
    by rewrite Hpre, (startswith_prefix _ _ _ H) in Hid.
Qed.

Lemma parse_snapshot_list_names_witness :
  "OK" <> EmptyStr /\ nospace "OK" = true /\
  Py.startswith "-" "OK" = false /\ Py.startswith "ID" "OK" = false.
Proof.
  apply (parse_snapshot_list_names (stdout ex_listing) "OK").
  apply (bool_decide_unpack _). vm_compute. exact I.
Defined.

(** The list in the metadata is what [list_snapshots] returns once the
    session is stopped. *)
Lemma stop_then_list id p port l m list_reply se st s1 :
  _processes st !! id = Some p ->
  _ports st !! id = Some port ->
  (forall errno, kill_reply se <> Unstarted errno) ->
  stable_record (set_snapshots l m) = true ->
  keeps st s1 -> stores id (set_snapshots l m) s1 ->
  exists s2, stop id se s1 = (Ok true, s2) /\
             (p ∈ exited s2) /\
             list_snapshots id list_reply s2 = (Ok l, s2).
Proof.
  intros Hp Hport Hk Hm (Kp & Kq & _) Hst1.
  destruct (stop_registered s1 id se p port) as (s2 & Hstop & _ & Sq & Sd & _ & Sx & _);
    [by rewrite Kp | by rewrite Kq | exact Hk |].
  exists s2. split; [exact Hstop|].
  split; [rewrite Sx; apply elem_of_union; left; by apply elem_of_singleton|].
  rewrite (list_snapshots_stopped id list_reply (set_snapshots l m) s2).
  - by destruct m.
  - exact Hm.
  - by rewrite Sq, lookup_delete_eq.
  - by eapply stores_disk.
Qed.

(** X22.  A snapshot saved on a running session is listed after the
    session is stopped: [save_snapshot] returns whether the instance
    reported success and appends the name to the list in the metadata
    only then, and only if it is not in it; after [stop], [list_snapshots]
    returns that list without asking the instance.  (The record and the
    name are strings that are read back as written, and [adb] can be
    started for the kill request.) *)
Theorem saved_snapshot_listed_after_stop id n p port m save_reply list_reply se st :
  stable_record m = true ->
  Json.stable n = true ->
  _processes st !! id = Some p ->
  _ports st !! id = Some port ->
  stores id m st ->
  (forall errno, kill_reply se <> Unstarted errno) ->
  (exists s1 s2,
     save_snapshot id n (Completes save_reply) st =
       (Ok (bool_decide (returncode save_reply = 0)), s1) /\
     stop id se s1 = (Ok true, s2) /\
     (p ∈ exited s2) /\
     list_snapshots id list_reply s2 =
       (Ok (after_save n (returncode save_reply) (SessionMetadata.snapshots m)), s2)) /\
  (n ∈ after_save n 0 (SessionMetadata.snapshots m)) /\
  (forall rc, rc <> 0 ->
     after_save n rc (SessionMetadata.snapshots m) = SessionMetadata.snapshots m).
Proof.
  intros Hm Hn Hp Hport Hst Hk. split; [|split].
  - destruct (save_snapshot_stored id n save_reply port m st Hm Hport Hst)
      as (s1 & Hsave & K & Hst1).
    destruct (stop_then_list id p port _ m list_reply se st s1 Hp Hport Hk
                (stable_after_save n _ m Hm Hn) K Hst1) as (s2 & Hstop & Hx & Hlist).
    by exists s1, s2.
  - apply after_save_elem.
  - intros rc Hrc. unfold after_save. by rewrite decide_False by tauto.
Qed.

Lemma saved_snapshot_listed_after_stop_witness :
  exists s1 s2,
    save_snapshot "s1" "snap1" (Completes ex_done) ex_running = (Ok true, s1) /\
    stop "s1" ex_forced s1 = (Ok true, s2) /\
    (0%nat ∈ exited s2) /\
    list_snapshots "s1" (Completes ex_listing) s2 = (Ok ["snap1"], s2).
Proof.
  assert (Hst : stores "s1" ex_metadata ex_running).
  { eexists. split; vm_compute; reflexivity. }
  destruct (saved_snapshot_listed_after_stop "s1" "snap1" 0%nat 5554 ex_metadata
              ex_done (Completes ex_listing) ex_forced ex_running) as (H & _);
    [vm_compute; reflexivity.. | exact Hst | intros errno; vm_compute; discriminate |].
  exact H.
Defined.

(** X23.  A snapshot deleted on a running session is no longer listed
    after the session is stopped: [delete_snapshot] returns whether the
    instance reported success and removes the first occurrence of the name
    from the list in the metadata only then; after [stop],
    [list_snapshots] returns that list, which does not have the name if
    the list had no duplicates.  (The record is made of strings that are
    read back as written, and [adb] can be started for the kill
    request.) *)
Theorem deleted_snapshot_not_listed_after_stop id n p port m delete_reply list_reply se st :
  stable_record m = true ->
  _processes st !! id = Some p ->
  _ports st !! id = Some port ->
  stores id m st ->
  (forall errno, kill_reply se <> Unstarted errno) ->
  (exists s1 s2,
     delete_snapshot id n (Completes delete_reply) st =
       (Ok (bool_decide (returncode delete_reply = 0)), s1) /\
     stop id se s1 = (Ok true, s2) /\
     (p ∈ exited s2) /\
     list_snapshots id list_reply s2 =
       (Ok (after_delete n (returncode delete_reply) (SessionMetadata.snapshots m)), s2)) /\
  (NoDup (SessionMetadata.snapshots m) ->
   n ∉ after_delete n 0 (SessionMetadata.snapshots m)) /\
  (forall rc, rc <> 0 ->
     after_delete n rc (SessionMetadata.snapshots m) = SessionMetadata.snapshots m).
Proof.
  intros Hm Hp Hport Hst Hk. split; [|split].
  - destruct (delete_snapshot_stored id n delete_reply port m st Hm Hport Hst)
      as (s1 & Hdel & K & Hst1).
    destruct (stop_then_list id p port _ m list_reply se st s1 Hp Hport Hk
                (stable_after_delete n _ m Hm) K Hst1) as (s2 & Hstop & Hx & Hlist).
    by exists s1, s2.
  - apply after_delete_not_elem.
  - intros rc Hrc. unfold after_delete. by rewrite decide_False by tauto.
Qed.

Lemma deleted_snapshot_not_listed_after_stop_witness :
  exists s1 s2,
    delete_snapshot "s1" "snap1" (Completes ex_done) ex_saved = (Ok true, s1) /\
    stop "s1" ex_forced s1 = (Ok true, s2) /\
    (0%nat ∈ exited s2) /\
    list_snapshots "s1" (Completes ex_listing) s2 = (Ok [], s2).
Proof.
  assert (Hst : stores "s1" (set_snapshots ["snap1"] ex_metadata) ex_saved).
  { eexists. split; vm_compute; reflexivity. }
  destruct (deleted_snapshot_not_listed_after_stop "s1" "snap1" 0%nat 5554
              (set_snapshots ["snap1"] ex_metadata)
              ex_done (Completes ex_listing) ex_forced ex_saved) as (H & _);
    [vm_compute; reflexivity.. | exact Hst | intros errno; vm_compute; discriminate |].
  exact H.
Defined.
